(** * message-relayer: height tracker, scanner and batcher

    A shallow embedding of [src/prover.ts], [src/multicaller.ts] and
    [src/utils.ts].

    Conventions.
    - Block heights are integers ([Z]); the source stores them in JavaScript
      numbers and only ever adds, subtracts and compares them.
    - Gas figures are IEEE-754 binary64 values ([float]), because the
      calibration multiplier is fractional (default [1.1]).
    - Every awaited collaborator (provider, messenger, multicall contract,
      state file) is a field of [Chain]: a function that either fails with a
      JavaScript error or yields a value.  Each call is appended to the
      [trace] of the machine, in program order.
    - [logger.debug] and [logger.info] calls have no effect on any value the
      relayer reads and are left out; [logger.warn], the metrics gauges and
      the counter are recorded in the trace.
    - The two unbounded constructs, the recursion of [multicall] and the
      [for] loop over block heights, take a budget ([fuel]); running out of
      it is the outcome [OutOfFuel], and the properties below show which
      budgets suffice and where the source itself never returns. *)

From Stdlib Require Import ZArith List String Ascii Bool Lia Floats.
From Stdlib Require Import RelationClasses Permutation.
Import ListNotations.

Set Implicit Arguments.

(** ** JavaScript built-ins used by the sources *)

Module JS.

(** An [Error] object: only [name] and [message] are read. *)
Record Error : Type := mkError { name : string; message : string }.

Definition TypeError (msg : string) : Error := mkError "TypeError" msg.

(** What an awaited promise settles to. *)
Definition result (A : Type) : Type := (Error + A)%type.

(** [s.includes(sub)] *)
Definition includes (s sub : string) : bool :=
  match String.index 0 sub s with
  | Some _ => true
  | None => false
  end.

(** [array.slice(from, to)] and [array.slice(from)] for indices within
    [0 .. length]. *)
Definition slice {A : Type} (from to : nat) (l : list A) : list A :=
  firstn (to - from) (skipn from l).

Definition sliceFrom {A : Type} (from : nat) (l : list A) : list A :=
  skipn from l.

(** [Math.ceil(n / 2)] for an array length [n]. *)
Definition ceilHalf (n : nat) : nat := Nat.div2 (S n).

(** [array.reduce(f)] without an initial value: the first element seeds the
    accumulator, and an empty array raises a [TypeError]. *)
Definition reduce {A : Type} (f : A -> A -> A) (l : list A) : result A :=
  match l with
  | [] => inl (TypeError "Reduce of empty array with no initial value")
  | x :: rest => inr (fold_left f rest x)
  end.

(** The number whose value is the integer [z] (exact below [2^53]). *)
Definition ofZ (z : Z) : float :=
  if (z <? 0)%Z
  then PrimFloat.opp (PrimFloat.of_uint63 (Uint63.of_Z (- z)))
  else PrimFloat.of_uint63 (Uint63.of_Z z).

Definition ofNat (n : nat) : float := ofZ (Z.of_nat n).

(** Truthiness of a number: [0], [-0] and [NaN] are falsy. *)
Definition truthy (x : float) : bool :=
  negb (PrimFloat.eqb x 0%float || PrimFloat.is_nan x).

(** [x || y] on numbers. *)
Definition orElse (x y : float) : float := if truthy x then x else y.

(** Integer part of a number, rounding toward zero; [0] for [NaN] and the
    infinities. *)
Definition truncate (x : float) : Z :=
  match Prim2SF x with
  | S754_finite s m e =>
      let mag := Z.shiftl (Z.pos m) e in
      if s then (- mag)%Z else mag
  | _ => 0%Z
  end.

(** [~~x]: ToInt32 applied to [x] (two bitwise negations cancel). *)
Definition toInt32 (x : float) : Z :=
  let r := ((truncate x) mod 2 ^ 32)%Z in
  if (r <? 2 ^ 31)%Z then r else (r - 2 ^ 32)%Z.

(** [BigNumber.toNumber()]: fails outside the safe-integer range. *)
Definition toNumber (z : Z) : result float :=
  if (Z.abs z <=? 2 ^ 53 - 1)%Z
  then inr (ofZ z)
  else inl (mkError "Error" "overflow").

End JS.

(** ** Data model *)

(** [Call] of multicaller.ts. *)
Record Call : Type := mkCall { target : string; callData : string }.

(** Modelled from the spec: the SDK type [CrossChainMessage] is not part of
    the sources; the relayer stores the "resolved cross-chain message
    descriptor" without looking inside, so an identifier stands for it. *)
Definition CrossChainMessage : Type := string.

(** [CallWithMeta = Call & { blockHeight, txHash, message, err }]; the [Call]
    part is what [convertToCalls] hands to the contract. *)
Record CallWithMeta : Type := mkCallWithMeta {
  call : Call;
  blockHeight : Z;
  txHash : string;
  message : CrossChainMessage;
  err : option JS.Error
}.

(** [call.err = e] *)
Definition setErr (c : CallWithMeta) (e : JS.Error) : CallWithMeta :=
  mkCallWithMeta (call c) (blockHeight c) (txHash c) (message c) (Some e).

(** Modelled from the spec: [MessageRelayerState] is declared in
    service_types.ts, which is not part of the sources; it is "a structure
    with three ... integer fields". *)
Record MessageRelayerState : Type := mkState {
  highestKnownL2 : Z;
  highestProvenL2 : Z;
  highestFinalizedL2 : Z
}.

(** Modelled from the spec: the SDK enumeration [MessageStatus], "enumerated
    statuses including at least ready to prove". *)
Inductive MessageStatus : Type :=
| UNCONFIRMED_L1_TO_L2_MESSAGE
| FAILED_L1_TO_L2_MESSAGE
| STATE_ROOT_NOT_PUBLISHED
| READY_TO_PROVE
| IN_CHALLENGE_PERIOD
| READY_FOR_RELAY
| RELAYED.

Definition isReadyToProve (s : MessageStatus) : bool :=
  match s with
  | READY_TO_PROVE => true
  | _ => false
  end.

(** A block as returned by [getBlockWithTransactions]. *)
Record Transaction : Type := mkTransaction { hash : string }.
Record Block : Type := mkBlock { number : Z; transactions : list Transaction }.

(** Constructor arguments of [Prover] and [Multicaller] that never change. *)
Record Config : Type := mkConfig {
  fromL2TransactionIndex : option Z;   (* number | undefined *)
  l2blockConfirmations : Z;
  reorgSafetyDepth : Z;
  targetGas : float;
  gasMultiplier : float
}.

(** The collaborators the relayer awaits. *)
Record Chain : Type := mkChain {
  readFromFile : JS.result (option MessageRelayerState);
  getBlockNumber : JS.result Z;
  getBlockWithTransactions : Z -> JS.result (option Block);
  toCrossChainMessage : string -> JS.result CrossChainMessage;
  getMessageStatus : CrossChainMessage -> JS.result MessageStatus;
  estimateGas_proveMessage : string -> JS.result Z;
  populateTransaction_proveMessage : string -> JS.result string;
  optimismPortalTarget : string;
  estimateGas_tryAggregate : bool -> list Call -> JS.result Z;
  tryAggregate : bool -> list Call -> Z -> JS.result string;
  wait : string -> JS.result unit;
  postMessage : list CallWithMeta -> JS.result unit
}.

(** The [callback] argument of [multicall]: [null] or a function of the
    transaction hash and the calls.  A callback is an observer: it may raise,
    but it does not write to the relayer's store. *)
Definition Callback : Type := string -> list CallWithMeta -> JS.result unit.

Inductive Gauge : Type := GaugeKnownL2 | GaugeProvenL2 | GaugeFinalizedL2.

(** What the relayer does to the outside world, in program order. *)
Inductive Event : Type :=
| EvReadState
| EvGetBlockNumber
| EvGetBlock (height : Z)
| EvToMessage (tx : string)
| EvGetStatus (msg : CrossChainMessage)
| EvEstimateProve (tx : string)
| EvPopulateProve (tx : string)
| EvEstimateAggregate (calls : list Call)
| EvTryAggregate (calls : list Call) (gasOverride : Z)
| EvWait (tx : string)
| EvCallback (tx : string) (calls : list CallWithMeta)
| EvPostMessage (succeeds : list CallWithMeta)
| EvGaugeSet (g : Gauge) (v : Z)
| EvCounterInc (n : Z)
| EvWarn (tx : string) (msg : string).

(** The mutable store: [Prover.state], [Prover.initalIteration],
    [Multicaller.singleCallGas] (one multicaller object, shared by
    reference), and the trace of effects. *)
Record Machine : Type := mkMachine {
  state : MessageRelayerState;
  initalIteration : bool;
  singleCallGas : float;
  trace : list Event
}.

Definition withState (m : Machine) (s : MessageRelayerState) : Machine :=
  mkMachine s (initalIteration m) (singleCallGas m) (trace m).

Definition withInitalIteration (m : Machine) (b : bool) : Machine :=
  mkMachine (state m) b (singleCallGas m) (trace m).

Definition withSingleCallGas (m : Machine) (g : float) : Machine :=
  mkMachine (state m) (initalIteration m) g (trace m).

Definition withEvent (m : Machine) (ev : Event) : Machine :=
  mkMachine (state m) (initalIteration m) (singleCallGas m) (trace m ++ [ev]).

(** [new Prover(...)] around [new Multicaller(...)]: the flag
    [initalIteration] starts [true].  Neither constructor assigns
    [Prover.state] or [Multicaller.singleCallGas]: [state] is a placeholder
    here, overwritten by [init] before anything reads it, and the unassigned
    [singleCallGas] ([undefined]) is [NaN], which it equals under the two
    operations ever applied to it ([=== 0] and [*]). *)
Definition newProver : Machine :=
  mkMachine (mkState 0 0 0) true PrimFloat.nan [].

(** ** Computations: state, exceptions, and a step budget *)

Inductive outcome (A : Type) : Type :=
| Returned (a : A) (m : Machine)
| Thrown (e : JS.Error) (m : Machine)
| OutOfFuel.

Arguments Returned {A} a m.
Arguments Thrown {A} e m.
Arguments OutOfFuel {A}.

Definition M (A : Type) : Type := Machine -> outcome A.

Definition ret {A : Type} (a : A) : M A := fun m => Returned a m.

Definition throw {A : Type} (e : JS.Error) : M A := fun m => Thrown e m.

Definition bind {A B : Type} (c : M A) (k : A -> M B) : M B :=
  fun m =>
    match c m with
    | Returned a m' => k a m'
    | Thrown e m' => Thrown e m'
    | OutOfFuel => OutOfFuel
    end.

Declare Scope js_scope.
Delimit Scope js_scope with js.
Notation "x <- c1 ;; c2" := (bind c1 (fun x => c2))
  (at level 61, c1 at next level, right associativity) : js_scope.
Notation "c1 ;; c2" := (bind c1 (fun _ => c2))
  (at level 61, right associativity) : js_scope.
Open Scope js_scope.
Open Scope Z_scope.

Definition get : M Machine := fun m => Returned m m.
Definition modify (f : Machine -> Machine) : M unit := fun m => Returned tt (f m).
Definition emit (ev : Event) : M unit := modify (fun m => withEvent m ev).

(** [await] of a collaborator's promise: the call is recorded, a rejection
    is rethrown. *)
Definition await {A : Type} (ev : Event) (r : JS.result A) : M A :=
  emit ev ;;
  match r with
  | inl e => throw e
  | inr a => ret a
  end.

(** A synchronous built-in that may raise. *)
Definition lift {A : Type} (r : JS.result A) : M A :=
  match r with
  | inl e => throw e
  | inr a => ret a
  end.

(** The machine an outcome ends in, when it has one. *)
Definition finalMachine {A : Type} (o : outcome A) : option Machine :=
  match o with
  | Returned _ m => Some m
  | Thrown _ m => Some m
  | OutOfFuel => None
  end.

(** ** utils.ts *)

Definition splitArray {A : Type} (array : list A) : list A * list A :=
  let middle := JS.ceilHalf (List.length array) in
  let firstHalf := JS.slice 0 middle array in
  let secondHalf := JS.sliceFrom middle array in
  (firstHalf, secondHalf).

Section Relayer.

Variable cfg : Config.
Variable chain : Chain.

(** ** prover.ts: the height tracker *)

Definition readStateFromFile : M (option MessageRelayerState) :=
  await EvReadState (readFromFile chain).

Definition updateHighestKnownL2 (latest : Z) : M unit :=
  modify (fun m =>
    withState m (mkState latest
                   (highestProvenL2 (state m))
                   (highestFinalizedL2 (state m)))) ;;
  emit (EvGaugeSet GaugeKnownL2 latest).

Definition updateHighestProvenL2 (latest : Z) : M unit :=
  modify (fun m =>
    withState m (mkState (highestKnownL2 (state m))
                   latest
                   (highestFinalizedL2 (state m)))) ;;
  emit (EvGaugeSet GaugeProvenL2 latest).

Definition updateHighestFinalizedL2 (latest : Z) : M unit :=
  modify (fun m =>
    withState m (mkState (highestKnownL2 (state m))
                   (highestProvenL2 (state m))
                   latest)) ;;
  emit (EvGaugeSet GaugeFinalizedL2 latest).

(** [x < this.fromL2TransactionIndex]; a comparison with [undefined] is
    false. *)
Definition ltIndex (x : Z) (idx : option Z) : bool :=
  match idx with
  | Some i => x <? i
  | None => false
  end.

Definition init : M unit :=
  persisted <- readStateFromFile ;;
  let loaded :=
    match persisted with
    | Some s => s
    | None => mkState 0 0 0
    end in
  modify (fun m => withState m loaded) ;;
  m <- get ;;
  if ltIndex (highestProvenL2 (state m)) (fromL2TransactionIndex cfg)
  then
    match fromL2TransactionIndex cfg with
    | Some idx =>
        modify (fun m =>
          withState m (mkState (highestKnownL2 (state m)) idx idx))
    | None => ret tt
    end
  else ret tt.

Definition handleL2Reorg (latest : Z) : M unit :=
  updateHighestKnownL2 latest ;;
  m <- get ;;
  if highestProvenL2 (state m) <=? latest - reorgSafetyDepth cfg
  then ret tt
  else
    let currentProven := highestProvenL2 (state m) in
    let newProven := latest - reorgSafetyDepth cfg in
    updateHighestProvenL2 newProven ;;
    let diff := currentProven - newProven in
    m' <- get ;;
    updateHighestFinalizedL2 (highestFinalizedL2 (state m') - diff).

Definition startScanHeight : M Z :=
  m <- get ;;
  if initalIteration m
  then
    modify (fun m => withInitalIteration m false) ;;
    m' <- get ;;
    ret (highestFinalizedL2 (state m'))
  else ret (highestProvenL2 (state m) + 1).

Definition endScanHeight : M Z :=
  m <- get ;;
  ret (highestKnownL2 (state m) - l2blockConfirmations cfg).

(** The callback handed to [reduce]: an accumulator is always a call
    object, so the [!maxCall] test never fires. *)
Definition higherCall (maxCall currentCall : CallWithMeta) : CallWithMeta :=
  if blockHeight maxCall <? blockHeight currentCall
  then currentCall
  else maxCall.

Definition updateHighestCheckedL2 (calldatas : list CallWithMeta) : M bool :=
  maxCall <- lift (JS.reduce higherCall calldatas) ;;
  let highest := blockHeight maxCall in
  let highest := if 0 <? highest then highest - 1 else highest in
  m <- get ;;
  if highest <=? highestProvenL2 (state m)
  then ret false
  else updateHighestProvenL2 highest ;; ret true.

(** ** multicaller.ts: the batcher *)

Definition computeExpectedMulticallGas (m : Machine) (size : float) : float :=
  (singleCallGas m * size * gasMultiplier cfg)%float.

Definition isOvertargetGas (m : Machine) (size : float) : bool :=
  (targetGas cfg <? computeExpectedMulticallGas m size)%float.

Definition convertToCalls (calls : list CallWithMeta) : list Call :=
  map call calls.

Definition requireSuccess : bool := true.

(** [err.message.includes('gas required exceeds allowance')] *)
Definition exceedsAllowance (e : JS.Error) : bool :=
  JS.includes (JS.message e) "gas required exceeds allowance".

(** [callback(tx.hash, calls)]; calling [null] raises a [TypeError]. *)
Definition invokeCallback (callback : option Callback)
    (tx : string) (calls : list CallWithMeta) : M unit :=
  match callback with
  | None => throw (JS.TypeError "callback is not a function")
  | Some f => await (EvCallback tx calls) (f tx calls)
  end.

(** [fuel] bounds the depth of nested [multicall] invocations. *)
Fixpoint multicall (fuel : nat) (calls : list CallWithMeta)
    (callback : option Callback) {struct fuel} : M (list CallWithMeta) :=
  match fuel with
  | O => fun _ => OutOfFuel
  | S fuel' =>
      emit (EvEstimateAggregate (convertToCalls calls)) ;;
      match estimateGas_tryAggregate chain requireSuccess
              (convertToCalls calls) with
      | inl err =>
          (if exceedsAllowance err
           then modify (fun m => withSingleCallGas m 0%float)
           else ret tt) ;;
          match calls with
          | [c] => ret [setErr c err]
          | _ =>
              let (firstHalf, secondHalf) := splitArray calls in
              results <- multicall fuel' firstHalf callback ;;
              rest <- multicall fuel' secondHalf callback ;;
              ret (results ++ rest)
          end
      | inr estimatedGas =>
          gas <- lift (JS.toNumber estimatedGas) ;;
          let overrideOptions :=
            JS.toInt32 (gas * JS.orElse (gasMultiplier cfg) 1)%float in
          tx <- await (EvTryAggregate (convertToCalls calls) overrideOptions)
                  (tryAggregate chain requireSuccess (convertToCalls calls)
                     overrideOptions) ;;
          await (EvWait tx) (wait chain tx) ;;
          invokeCallback callback tx calls ;;
          ret []
      end
  end.

(** A depth that a non-empty batch never exhausts: every nested call works
    on a strictly shorter batch.  On the empty batch the source recurses
    without end when the estimate fails, and so does the model. *)
Definition depthFor (calls : list CallWithMeta) : nat :=
  S (List.length calls).

(** ** prover.ts: reconciliation and the scanner *)

Fixpoint warnFaileds (faileds : list CallWithMeta) : M unit :=
  match faileds with
  | [] => ret tt
  | fail :: rest =>
      match err fail with
      | Some e => emit (EvWarn (txHash fail) (JS.message e))
      | None =>
          throw (JS.TypeError
                   "Cannot read properties of null (reading 'message')")
      end ;;
      warnFaileds rest
  end.

Definition handleMulticallResult (calleds faileds : list CallWithMeta)
    : M unit :=
  let failedIds := map txHash faileds in
  let succeeds :=
    filter (fun c => negb (existsb (String.eqb (txHash c)) failedIds))
           calleds in
  advanced <- updateHighestCheckedL2 succeeds ;;
  (if advanced
   then emit (EvCounterInc (Z.of_nat (List.length succeeds)))
   else ret tt) ;;
  await (EvPostMessage succeeds) (postMessage chain succeeds) ;;
  warnFaileds faileds.

(** [this.handleMulticallResult(calldatas,
      await this.multicaller.multicall(calldatas, null))],
    written out at both flush sites of the source. *)
Definition flush (calldatas : list CallWithMeta) : M unit :=
  faileds <- multicall (depthFor calldatas) calldatas None ;;
  handleMulticallResult calldatas faileds.

(** The [for] loop of [handleSingleBlock] over [block.transactions]. *)
Fixpoint scanTransactions (blockNumber : Z) (txs : list Transaction)
    (calldatas : list CallWithMeta) : M (list CallWithMeta) :=
  match txs with
  | [] => ret calldatas
  | t :: rest =>
      let txHash := hash t in
      message <- await (EvToMessage txHash)
                   (toCrossChainMessage chain txHash) ;;
      status <- await (EvGetStatus message)
                  (getMessageStatus chain message) ;;
      if negb (isReadyToProve status)
      then scanTransactions blockNumber rest calldatas
      else
        m <- get ;;
        (if (singleCallGas m =? 0)%float
         then
           estimatedGas <- await (EvEstimateProve txHash)
                             (estimateGas_proveMessage chain txHash) ;;
           gas <- lift (JS.toNumber estimatedGas) ;;
           modify (fun m => withSingleCallGas m gas)
         else ret tt) ;;
        callData <- await (EvPopulateProve txHash)
                      (populateTransaction_proveMessage chain txHash) ;;
        let calldatas :=
          calldatas ++
          [mkCallWithMeta (mkCall (optimismPortalTarget chain) callData)
             blockNumber txHash message None] in
        m <- get ;;
        if negb (isOvertargetGas m (JS.ofNat (List.length calldatas)))
        then scanTransactions blockNumber rest calldatas
        else
          flush calldatas ;;
          scanTransactions blockNumber rest []
  end.

Definition handleSingleBlock (height : Z) (calldatas : list CallWithMeta)
    : M (list CallWithMeta) :=
  block <- await (EvGetBlock height)
             (getBlockWithTransactions chain height) ;;
  match block with
  | None => ret calldatas
  | Some b =>
      match transactions b with
      | [] => ret calldatas
      | _ => scanTransactions (number b) (transactions b) calldatas
      end
  end.

(** The [for] loop of [handleMultipleBlock]; [endScanHeight] is read again
    before every iteration, [fuel] bounds the number of iterations. *)
Fixpoint scanLoop (fuel : nat) (h : Z) (calldatas : list CallWithMeta)
    {struct fuel} : M (list CallWithMeta) :=
  match fuel with
  | O => fun _ => OutOfFuel
  | S fuel' =>
      stop <- endScanHeight ;;
      if h <=? stop
      then
        calldatas' <- handleSingleBlock h calldatas ;;
        scanLoop fuel' (h + 1) calldatas'
      else ret calldatas
  end.

Definition handleMultipleBlock (fuel : nat) : M unit :=
  latest <- await EvGetBlockNumber (getBlockNumber chain) ;;
  m <- get ;;
  if latest =? highestKnownL2 (state m)
  then ret tt
  else
    (if latest <? highestKnownL2 (state m)
     then handleL2Reorg latest
     else ret tt) ;;
    updateHighestKnownL2 latest ;;
    start <- startScanHeight ;;
    calldatas <- scanLoop fuel start [] ;;
    if (0 <? List.length calldatas)%nat
    then flush calldatas
    else ret tt.

End Relayer.

(** ** Vocabulary of the statements *)

(** "highestFinalizedL2 <= highestProvenL2 <= highestKnownL2", over
    non-negative fields. *)
Definition atRest (s : MessageRelayerState) : Prop :=
  0 <= highestFinalizedL2 s /\
  highestFinalizedL2 s <= highestProvenL2 s /\
  highestProvenL2 s <= highestKnownL2 s.

(** [h] is the greatest [blockHeight] among [calls]. *)
Definition isMaxHeight (calls : list CallWithMeta) (h : Z) : Prop :=
  In h (map blockHeight calls) /\
  Forall (fun c => blockHeight c <= h) calls.

(** [advanceProven] in the words of the specification: the candidate is the
    greatest block height minus one, the proven height moves to the candidate
    exactly when the candidate is strictly greater, and the answer tells
    whether it moved. *)
Definition advanceProvenSpec (calls : list CallWithMeta) (m : Machine)
    (o : outcome bool) : Prop :=
  exists hmax, isMaxHeight calls hmax /\
    let candidate := hmax - 1 in
    (highestProvenL2 (state m) < candidate ->
       exists m', o = Returned true m' /\
                  highestProvenL2 (state m') = candidate) /\
    (candidate <= highestProvenL2 (state m) ->
       exists m', o = Returned false m' /\
                  highestProvenL2 (state m') = highestProvenL2 (state m)).

(** The heights fetched with [getBlockWithTransactions], in program order. *)
Fixpoint fetchedHeights (t : list Event) : list Z :=
  match t with
  | [] => []
  | EvGetBlock h :: rest => h :: fetchedHeights rest
  | _ :: rest => fetchedHeights rest
  end.

(** The heights [from, from + 1, ...], [count] of them. *)
Fixpoint heightsFrom (from : Z) (count : nat) : list Z :=
  match count with
  | O => []
  | S n => from :: heightsFrom (from + 1) n
  end.

(** The estimations of single-call batches in a trace. *)
Fixpoint singleEstimations (t : list Event) : list Call :=
  match t with
  | [] => []
  | EvEstimateAggregate [c] :: rest => c :: singleEstimations rest
  | _ :: rest => singleEstimations rest
  end.

(** What [init] starts from: the persisted record, or all zeros. *)
Definition loadedState (persisted : option MessageRelayerState)
    : MessageRelayerState :=
  match persisted with
  | Some s => s
  | None => mkState 0 0 0
  end.

(** [r] is [c] marked failed: the estimation of the single-call batch made
    of [c] fails with an error [e], the error slot of [r] holds [e], and
    every other field of [r] is that of [c]. *)
Definition failedBy (chain : Chain) (c r : CallWithMeta) : Prop :=
  exists e,
    estimateGas_tryAggregate chain true [call c] = inl e /\
    err r = Some e /\
    call r = call c /\
    blockHeight r = blockHeight c /\
    txHash r = txHash c /\
    message r = message c.

(** The calls of a batch whose estimation as a single-call batch fails, in
    order, each with that error in its error slot and its other fields as
    they were. *)
Definition failedSingles (chain : Chain) (calls : list CallWithMeta)
    : list CallWithMeta :=
  flat_map
    (fun c =>
       match estimateGas_tryAggregate chain true [call c] with
       | inl e =>
           [mkCallWithMeta (call c) (blockHeight c) (txHash c) (message c)
              (Some e)]
       | inr _ => []
       end)
    calls.

(** A relation between the machine before and after holds of every outcome
    of a computation that ends. *)
Definition preserves (R : Machine -> Machine -> Prop) {A : Type} (c : M A)
    : Prop :=
  forall m,
    match c m with
    | Returned _ m' => R m m'
    | Thrown _ m' => R m m'
    | OutOfFuel => True
    end.

(** Among the events [new], a single-call gas estimate by the scanner that
    succeeded. *)
Definition calibrated (chain : Chain) (new : list Event) : Prop :=
  exists tx gas,
    In (EvEstimateProve tx) new /\
    estimateGas_proveMessage chain tx = inr gas.

(** From [m] to [m'] the trace only grows, and the calibration value is
    unchanged, or reset to zero, or a scanner estimate succeeded meanwhile. *)
Definition gasStep (chain : Chain) (m m' : Machine) : Prop :=
  exists new,
    trace m' = trace m ++ new /\
    (singleCallGas m' = singleCallGas m \/
     singleCallGas m' = 0%float \/
     calibrated chain new).

(** From [m] to [m'] the calibration value is unchanged or reset to zero. *)
Definition resetOnly (m m' : Machine) : Prop :=
  singleCallGas m' = singleCallGas m \/ singleCallGas m' = 0%float.

(** From [m] to [m'] the three watermarks are as before. *)
Definition sameState (m m' : Machine) : Prop := state m' = state m.

(** From [m] to [m'] no block was fetched and the known height and the
    first-iteration flag are as before. *)
Definition sameScan (m m' : Machine) : Prop :=
  fetchedHeights (trace m') = fetchedHeights (trace m) /\
  highestKnownL2 (state m') = highestKnownL2 (state m) /\
  initalIteration m' = initalIteration m.

(** A computation that ends from every machine. *)
Definition terminates {A : Type} (c : M A) : Prop :=
  forall m, c m <> OutOfFuel.

(** [observeHead] in the words of the specification: a lower head triggers
    reorg recovery (no change when the proven height is at most
    [latest - reorgSafetyDepth], else both watermarks rewound by the same
    amount), and the known height always becomes [latest]. *)
Definition observeHead (cfg : Config) (latest : Z) (s : MessageRelayerState)
    : MessageRelayerState :=
  if (latest <? highestKnownL2 s)
     && negb (highestProvenL2 s <=? latest - reorgSafetyDepth cfg)
  then
    let newProven := latest - reorgSafetyDepth cfg in
    let delta := highestProvenL2 s - newProven in
    mkState latest newProven (highestFinalizedL2 s - delta)
  else mkState latest (highestProvenL2 s) (highestFinalizedL2 s).

(** ** Concrete scenarios *)

Module Scenario.

(** targetGas = 1,000,000 and gasMultiplier = 1.1, the defaults of the
    [Multicaller] constructor; reorgSafetyDepth = 5. *)
Definition cfg (fromIndex : option Z) : Config :=
  mkConfig fromIndex 2 5 1000000%float 0x1.199999999999ap+0%float.

Definition machine (known proven finalized : Z) (gas : float) : Machine :=
  mkMachine (mkState known proven finalized) true gas [].

Definition callAt (h : Z) (tx : string) : CallWithMeta :=
  mkCallWithMeta (mkCall "portal" tx) h tx tx None.

(** No state file on disk ([readFromFile] yields [null]); nothing else is
    consulted by [init]. *)
Definition noStateFile : Chain :=
  mkChain (inr None) (inr 0) (fun _ => inr None) (fun tx => inr tx)
    (fun _ => inr RELAYED) (fun _ => inr 0) (fun tx => inr tx) "portal"
    (fun _ _ => inr 0) (fun _ _ _ => inr "0xtx"%string) (fun _ => inr tt)
    (fun _ => inr tt).

(** A chain given by its latest height, its blocks, the status of every
    message, the scanner's single-call estimate and the aggregate estimate;
    every other collaborator succeeds. *)
Definition chainWith (latest : Z) (blocks : Z -> option Block)
    (status : string -> MessageStatus) (proveGas : JS.result Z)
    (estimate : list Call -> JS.result Z) : Chain :=
  mkChain (inr None) (inr latest) (fun h => inr (blocks h))
    (fun tx => inr tx) (fun msg => inr (status msg)) (fun _ => proveGas)
    (fun tx => inr tx) "portal" (fun _ calls => estimate calls)
    (fun _ _ _ => inr "0xtx"%string) (fun _ => inr tt) (fun _ => inr tt).

(** One transaction per block, named after the height parity. *)
Definition oneTxBlocks (h : Z) : option Block :=
  Some (mkBlock h [mkTransaction (if Z.even h then "even" else "odd")]).

(** Every estimation fails, with a message that names the first call. *)
Definition neverEstimable (calls : list Call) : JS.result Z :=
  inl (JS.mkError "Error"
         (match calls with
          | c :: _ => "execution reverted: " ++ callData c
          | [] => "execution reverted"
          end)).

(** Batches of two or more calls exceed the block gas limit; a single call
    is estimated at 120,000. *)
Definition onlySingles (calls : list Call) : JS.result Z :=
  match calls with
  | [_] => inr 120000
  | _ => inl (JS.mkError "Error"
                "err: gas required exceeds allowance (30000000)")
  end.

Definition allFail : Chain :=
  chainWith 12 oneTxBlocks (fun _ => READY_TO_PROVE) (inr 100000)
    neverEstimable.

Definition singlesPass : Chain :=
  chainWith 12 oneTxBlocks (fun _ => READY_TO_PROVE) (inr 2000000)
    onlySingles.

Definition nothingToProve : Chain :=
  chainWith 12 oneTxBlocks (fun _ => RELAYED) (inr 100000) neverEstimable.

Definition threeCalls : list CallWithMeta :=
  [callAt 7 "0xa"; callAt 8 "0xb"; callAt 9 "0xc"].

End Scenario.

(** * The state file *)

(** ** utils.ts: [readFromFile] and [writeToFile]; [Prover.writeState] *)

Module Disk.

(** What a rejected [fs] promise or [JSON.parse] throws: [message] is always
    there, [code] on file-system errors only. *)
Record Failure : Type := mkFailure {
  code : option string;
  message : string
}.

Unset Elimination Schemes.

(** A parsed JSON document; numbers are integers, as the state file holds
    them. *)
Inductive Json : Type :=
| JNull
| JBool (b : bool)
| JNumber (z : Z)
| JString (s : string)
| JArray (items : list Json)
| JObject (fields : list (string * Json)).

Set Elimination Schemes.

(** Truthiness, as [state || { ... }] tests it. *)
Definition truthy (v : Json) : bool :=
  match v with
  | JNull => false
  | JBool b => b
  | JNumber z => negb (z =? 0)
  | JString s => negb (String.eqb s EmptyString)
  | JArray _ => true
  | JObject _ => true
  end.

(** The part of a file system the relayer touches: the directories that
    exist, what each file holds, and the paths that refuse access. *)
Record FileSystem : Type := mkFileSystem {
  dirs : string -> bool;
  files : string -> option string;
  denied : string -> bool
}.

Definition noEntry (path : string) : Failure :=
  mkFailure (Some "ENOENT"%string)
    ("ENOENT: no such file or directory, '" ++ path ++ "'").

Definition noAccess (path : string) : Failure :=
  mkFailure (Some "EACCES"%string) ("EACCES: permission denied, '" ++ path ++ "'").

(** [fs.readFile(path, 'utf-8')] *)
Definition readFile (fs : FileSystem) (path : string) : Failure + string :=
  if denied fs path
  then inl (noAccess path)
  else
    match files fs path with
    | Some data => inr data
    | None => inl (noEntry path)
    end.

(** [fs.access(dir)] *)
Definition access (fs : FileSystem) (dir : string) : Failure + unit :=
  if dirs fs dir then inr tt else inl (noEntry dir).

(** [fs.mkdir(dir, { recursive: true })] *)
Definition mkdir (fs : FileSystem) (dir : string) : Failure + FileSystem :=
  if denied fs dir
  then inl (noAccess dir)
  else
    inr (mkFileSystem
           (fun d => if String.eqb d dir then true else dirs fs d)
           (files fs) (denied fs)).

Section Codec.

(** [path.dirname], [JSON.parse] and [JSON.stringify(_, null, 2)]. *)
Variable dirname : string -> string.
Variable parse : string -> Failure + Json.
Variable stringify : Json -> string.

(** [fs.writeFile(path, data, 'utf-8')]: the directory has to exist. *)
Definition writeFile (fs : FileSystem) (path data : string)
    : Failure + FileSystem :=
  if denied fs path
  then inl (noAccess path)
  else if dirs fs (dirname path)
  then
    inr (mkFileSystem (dirs fs)
           (fun p => if String.eqb p path then Some data else files fs p)
           (denied fs))
  else inl (noEntry path).

(** The [catch] of [readFromFile]: a missing file is [null], anything else
    is rethrown with the path in front. *)
Definition recover (filepath : string) (err : Failure) : JS.result Json :=
  let rethrown :=
    JS.mkError "Error"
      ("failed to read file: " ++ filepath ++ ", err: " ++ message err) in
  match code err with
  | Some c => if String.eqb c "ENOENT" then inr JNull else inl rethrown
  | None => inl rethrown
  end.

Definition readFromFile (fs : FileSystem) (filepath : string)
    : JS.result Json :=
  match readFile fs filepath with
  | inl err => recover filepath err
  | inr data =>
      match parse data with
      | inl err => recover filepath err
      | inr value => inr value
      end
  end.

Definition writeToFile (fs : FileSystem) (filepath : string) (state : Json)
    : Failure + FileSystem :=
  let dir := dirname filepath in
  match
    match access fs dir with
    | inr _ => inr fs
    | inl _ => mkdir fs dir       (* create dir if not exists *)
    end
  with
  | inl err => inl err
  | inr fs' =>
      let data := stringify state in
      writeFile fs' filepath data
  end.

(** [Prover.state] as the object handed to [JSON.stringify]. *)
Definition stateToJson (s : MessageRelayerState) : Json :=
  JObject [("highestKnownL2"%string, JNumber (highestKnownL2 s));
           ("highestProvenL2"%string, JNumber (highestProvenL2 s));
           ("highestFinalizedL2"%string, JNumber (highestFinalizedL2 s))].

(** [object[name]]: of a repeated key the last one counts. *)
Fixpoint property (name : string) (fields : list (string * Json))
    : option Json :=
  match fields with
  | [] => None
  | (key, value) :: rest =>
      match property name rest with
      | Some later => Some later
      | None => if String.eqb key name then Some value else None
      end
  end.

Definition numberProperty (name : string) (fields : list (string * Json))
    : option Z :=
  match property name fields with
  | Some (JNumber z) => Some z
  | _ => None
  end.

(** What [init] gets out of [readFromFile(...) || default], for the documents
    the height model covers: a falsy document gives way to the default
    ([None] here), an object counts when its three fields are numbers; any
    other document is left out ([None] outside). *)
Definition jsonToState (value : Json)
    : option (option MessageRelayerState) :=
  if truthy value
  then
    match value with
    | JObject fields =>
        match numberProperty "highestKnownL2" fields,
              numberProperty "highestProvenL2" fields,
              numberProperty "highestFinalizedL2" fields with
        | Some k, Some p, Some f => Some (Some (mkState k p f))
        | _, _, _ => None
        end
    | _ => None
    end
  else Some None.

(** [Prover.readStateFromFile], for those documents. *)
Definition persisted (fs : FileSystem) (stateFilePath : string)
    : option (JS.result (option MessageRelayerState)) :=
  match readFromFile fs stateFilePath with
  | inl err => Some (inl err)
  | inr value =>
      match jsonToState value with
      | Some loaded => Some (inr loaded)
      | None => None
      end
  end.

(** [Prover.writeState] (through [writeStateToFile]). *)
Definition writeState (stateFilePath : string) (m : Machine)
    (fs : FileSystem) : Failure + FileSystem :=
  writeToFile fs stateFilePath (stateToJson (state m)).

End Codec.

End Disk.

(** ** Further vocabulary of the statements *)

(** The calls handed to the callback, batch after batch. *)
Fixpoint handedToCallback (t : list Event) : list CallWithMeta :=
  match t with
  | [] => []
  | EvCallback _ calls :: rest => calls ++ handedToCallback rest
  | _ :: rest => handedToCallback rest
  end.

(** How many aggregate estimations and how many submissions a trace holds. *)
Fixpoint estimationCount (t : list Event) : nat :=
  match t with
  | [] => O
  | EvEstimateAggregate _ :: rest => S (estimationCount rest)
  | _ :: rest => estimationCount rest
  end.

Fixpoint submissionCount (t : list Event) : nat :=
  match t with
  | [] => O
  | EvTryAggregate _ _ :: rest => S (submissionCount rest)
  | _ :: rest => submissionCount rest
  end.

(** How many gas estimations of either kind a trace holds. *)
Fixpoint gasEstimates (t : list Event) : nat :=
  match t with
  | [] => O
  | EvEstimateProve _ :: rest => S (gasEstimates rest)
  | EvEstimateAggregate _ :: rest => S (gasEstimates rest)
  | _ :: rest => gasEstimates rest
  end.

(** The calls [handleSingleBlock] builds for the transactions of a block
    that are ready to prove, in order. *)
Definition readyCallsOf (chain : Chain) (blockNumber : Z)
    (txs : list Transaction) : list CallWithMeta :=
  flat_map
    (fun t =>
       match toCrossChainMessage chain (hash t) with
       | inr msg =>
           match getMessageStatus chain msg with
           | inr READY_TO_PROVE =>
               match populateTransaction_proveMessage chain (hash t) with
               | inr data =>
                   [mkCallWithMeta
                      (mkCall (optimismPortalTarget chain) data)
                      blockNumber (hash t) msg None]
               | inl _ => []
               end
           | _ => []
           end
       | inl _ => []
       end)
    txs.

(** The same for the block at a height. *)
Definition readyAt (chain : Chain) (height : Z) : list CallWithMeta :=
  match getBlockWithTransactions chain height with
  | inr (Some b) => readyCallsOf chain (number b) (transactions b)
  | _ => []
  end.

(** The calls [handleMulticallResult] counts as succeeded. *)
Definition succeededOf (calleds faileds : list CallWithMeta)
    : list CallWithMeta :=
  filter
    (fun c => negb (existsb (String.eqb (txHash c)) (map txHash faileds)))
    calleds.

(** The warning logged for a failed call. *)
Definition warnOf (fail : CallWithMeta) : Event :=
  EvWarn (txHash fail)
    (match err fail with
     | Some e => JS.message e
     | None => EmptyString
     end).

Definition sameGauge (g g' : Gauge) : bool :=
  match g, g' with
  | GaugeKnownL2, GaugeKnownL2 => true
  | GaugeProvenL2, GaugeProvenL2 => true
  | GaugeFinalizedL2, GaugeFinalizedL2 => true
  | _, _ => false
  end.

(** The value a gauge shows after a trace, if it was ever set. *)
Definition lastGauge (g : Gauge) (t : list Event) : option Z :=
  fold_left
    (fun shown ev =>
       match ev with
       | EvGaugeSet g' v => if sameGauge g g' then Some v else shown
       | _ => shown
       end)
    t None.

Definition gaugeField (g : Gauge) (s : MessageRelayerState) : Z :=
  match g with
  | GaugeKnownL2 => highestKnownL2 s
  | GaugeProvenL2 => highestProvenL2 s
  | GaugeFinalizedL2 => highestFinalizedL2 s
  end.

(** Every gauge that was set shows the watermark it stands for. *)
Definition mirrors (m : Machine) : Prop :=
  forall g v, lastGauge g (trace m) = Some v -> v = gaugeField g (state m).

Definition keepsMirror (m m' : Machine) : Prop := mirrors m -> mirrors m'.

(** While the calibration value is [NaN], it stays so and no gas is
    estimated. *)
Definition uncalibrated (m m' : Machine) : Prop :=
  singleCallGas m = PrimFloat.nan ->
  singleCallGas m' = PrimFloat.nan /\
  gasEstimates (trace m') = gasEstimates (trace m).

(** ** Further scenarios *)

Module Fixture.

(** An estimation fails exactly when the batch holds the call with payload
    [bad]. *)
Definition rejects (bad : string) (calls : list Call) : JS.result Z :=
  if existsb (fun c => String.eqb (callData c) bad) calls
  then inl (JS.mkError "Error" ("execution reverted: " ++ bad))
  else inr (50000 * Z.of_nat (List.length calls)).

Definition oneBad : Chain :=
  Scenario.chainWith 12 Scenario.oneTxBlocks (fun _ => READY_TO_PROVE)
    (inr 100000) (rejects "0xb").

(** A callback that returns. *)
Definition quiet : Callback := fun _ _ => inr tt.

(** The second of [Scenario.threeCalls], as a failed estimation returns
    it. *)
Definition failedB : CallWithMeta :=
  setErr (Scenario.callAt 8 "0xb") (JS.mkError "Error" "execution reverted").

(** A chain whose finalizer refuses every post. *)
Definition postDown : Chain :=
  mkChain (inr None) (inr 12) (fun h => inr (Scenario.oneTxBlocks h))
    (fun tx => inr tx) (fun _ => inr READY_TO_PROVE) (fun _ => inr 100000)
    (fun tx => inr tx) "portal" (fun _ calls => rejects "0xb" calls)
    (fun _ _ _ => inr "0xtx"%string) (fun _ => inr tt)
    (fun _ => inl (JS.mkError "Error" "finalizer is down")).

Definition stateFile : string := "/var/relayer/state.json".

Definition dirnameOf (path : string) : string := "/var/relayer".

(** An empty disk. *)
Definition blank : Disk.FileSystem :=
  Disk.mkFileSystem (fun _ => false) (fun _ => None) (fun _ => false).

(** The state with known 12, proven 9 and finalized 7, and its text. *)
Definition saved : MessageRelayerState := mkState 12 9 7.

Definition savedText : string := "known 12, proven 9, finalized 7".

(** A codec that knows this one document. *)
Definition parseSaved (text : string) : Disk.Failure + Disk.Json :=
  if String.eqb text savedText
  then inr (Disk.stateToJson saved)
  else inl (Disk.mkFailure None "Unexpected token").

Definition stringifySaved (value : Disk.Json) : string := savedText.

(** A prover whose state file holds [saved]. *)
Definition restarted : Chain :=
  mkChain (inr (Some saved)) (inr 12) (fun _ => inr None) (fun tx => inr tx)
    (fun _ => inr RELAYED) (fun _ => inr 0) (fun tx => inr tx) "portal"
    (fun _ _ => inr 0) (fun _ _ _ => inr "0xtx"%string) (fun _ => inr tt)
    (fun _ => inr tt).

End Fixture.

(** * Properties *)

Unset Implicit Arguments.

(** Unfolds the monadic plumbing of a straight-line method. *)
Ltac run :=
  cbv [bind ret get modify emit throw await lift
       updateHighestKnownL2 updateHighestProvenL2 updateHighestFinalizedL2];
  cbn [state initalIteration singleCallGas trace
       withState withEvent withInitalIteration withSingleCallGas
       highestKnownL2 highestProvenL2 highestFinalizedL2].

Section HeightTracker.

Variable cfg : Config.

Let D := reorgSafetyDepth cfg.

(** The machine [handleL2Reorg] ends in when it rewinds. *)
Lemma handleL2Reorg_rewind_eq (m : Machine) (L : Z) :
  L - D < highestProvenL2 (state m) ->
  handleL2Reorg cfg L m =
  Returned tt
    (mkMachine
       (mkState L (L - D)
          (highestFinalizedL2 (state m)
           - (highestProvenL2 (state m) - (L - D))))
       (initalIteration m) (singleCallGas m)
       (((trace m ++ [EvGaugeSet GaugeKnownL2 L])
           ++ [EvGaugeSet GaugeProvenL2 (L - D)])
          ++ [EvGaugeSet GaugeFinalizedL2
                (highestFinalizedL2 (state m)
                 - (highestProvenL2 (state m) - (L - D)))])).
Proof.
  intros H. unfold handleL2Reorg. run. fold D.
  destruct (Z.leb_spec (highestProvenL2 (state m)) (L - D)) as [Hle | _].
  - lia.
  - reflexivity.
Qed.

(** The machine [handleL2Reorg] ends in when the proven height is already
    low enough. *)
Lemma handleL2Reorg_keep_eq (m : Machine) (L : Z) :
  highestProvenL2 (state m) <= L - D ->
  handleL2Reorg cfg L m =
  Returned tt
    (mkMachine
       (mkState L (highestProvenL2 (state m)) (highestFinalizedL2 (state m)))
       (initalIteration m) (singleCallGas m)
       (trace m ++ [EvGaugeSet GaugeKnownL2 L])).
Proof.
  intros H. unfold handleL2Reorg. run. fold D.
  destruct (Z.leb_spec (highestProvenL2 (state m)) (L - D)) as [_ | Hlt].
  - reflexivity.
  - lia.
Qed.

(** C1. When the proven height [P] exceeds [L - D], [handleL2Reorg L]
    returns with the proven height [L - D], the finalized height lowered by
    exactly [P - (L - D)], and the known height [L]. *)
Theorem handleL2Reorg_rewinds (m : Machine) (L : Z) :
  highestProvenL2 (state m) > L - reorgSafetyDepth cfg ->
  exists m',
    handleL2Reorg cfg L m = Returned tt m' /\
    highestProvenL2 (state m') = L - reorgSafetyDepth cfg /\
    highestFinalizedL2 (state m') =
      highestFinalizedL2 (state m)
      - (highestProvenL2 (state m) - (L - reorgSafetyDepth cfg)) /\
    highestKnownL2 (state m') = L.
Proof.
  intros H. eexists. split.
  - apply handleL2Reorg_rewind_eq. unfold D. lia.
  - cbn. auto.
Qed.

(** C9. When the proven height is at most [L - D], [handleL2Reorg L]
    returns with the proven and finalized heights unchanged and the known
    height [L]. *)
Theorem handleL2Reorg_noop (m : Machine) (L : Z) :
  highestProvenL2 (state m) <= L - reorgSafetyDepth cfg ->
  exists m',
    handleL2Reorg cfg L m = Returned tt m' /\
    highestProvenL2 (state m') = highestProvenL2 (state m) /\
    highestFinalizedL2 (state m') = highestFinalizedL2 (state m) /\
    highestKnownL2 (state m') = L.
Proof.
  intros H. eexists. split.
  - apply handleL2Reorg_keep_eq. exact H.
  - cbn. auto.
Qed.

End HeightTracker.

(** The scenario of the specification: proven 100, finalized 80, a reorg down
    to 90 with safety depth 5 gives proven 85 and finalized 65. *)
Lemma handleL2Reorg_rewinds_witness :
  100 > 90 - 5 /\
  exists m',
    handleL2Reorg (Scenario.cfg None) 90 (Scenario.machine 100 100 80 0) =
      Returned tt m' /\
    highestProvenL2 (state m') = 85 /\
    highestFinalizedL2 (state m') = 65 /\
    highestKnownL2 (state m') = 90.
Proof.
  split; [lia |].
  apply (handleL2Reorg_rewinds (Scenario.cfg None)
           (Scenario.machine 100 100 80 0) 90).
  simpl. lia.
Defined.

Lemma handleL2Reorg_noop_witness :
  40 <= 90 - 5 /\
  exists m',
    handleL2Reorg (Scenario.cfg None) 90 (Scenario.machine 100 40 30 0) =
      Returned tt m' /\
    highestProvenL2 (state m') = 40 /\
    highestFinalizedL2 (state m') = 30 /\
    highestKnownL2 (state m') = 90.
Proof.
  split; [lia |].
  apply (handleL2Reorg_noop (Scenario.cfg None)
           (Scenario.machine 100 40 30 0) 90).
  simpl. lia.
Defined.

Section Watermarks.

Variable cfg : Config.
Variable chain : Chain.

(** The state [init] leaves, given what the state file held. *)
Lemma init_eq (m : Machine) (persisted : option MessageRelayerState) :
  readFromFile chain = inr persisted ->
  init cfg chain m =
  Returned tt
    (mkMachine
       (let s := loadedState persisted in
        match fromL2TransactionIndex cfg with
        | Some idx =>
            if highestProvenL2 s <? idx
            then mkState (highestKnownL2 s) idx idx
            else s
        | None => s
        end)
       (initalIteration m) (singleCallGas m) (trace m ++ [EvReadState])).
Proof.
  intros Hread. unfold init, readStateFromFile. run. rewrite Hread.
  unfold loadedState, ltIndex.
  destruct persisted as [s |]; cbn;
    destruct (fromL2TransactionIndex cfg) as [idx |]; cbn;
    try destruct s as [k p f]; cbn;
    try destruct (_ <? idx); reflexivity.
Qed.

End Watermarks.

(** A reorg can also drive the finalized height below zero: proven 100,
    finalized 10, reorg to 90 with depth 5 rewinds both by 15. *)
Example handleL2Reorg_negative_finalized :
  exists m',
    handleL2Reorg (Scenario.cfg None) 90 (Scenario.machine 100 100 10 0) =
      Returned tt m' /\
    state m' = mkState 90 85 (-5).
Proof.
  eexists. split.
  - apply handleL2Reorg_rewind_eq. simpl. lia.
  - reflexivity.
Qed.


Section AdvanceProven.

Lemma higherCall_height (a b : CallWithMeta) :
  blockHeight (higherCall a b) = Z.max (blockHeight a) (blockHeight b).
Proof.
  unfold higherCall.
  destruct (Z.ltb_spec (blockHeight a) (blockHeight b)); lia.
Qed.

Lemma higherCall_choice (a b : CallWithMeta) :
  higherCall a b = a \/ higherCall a b = b.
Proof. unfold higherCall. destruct (_ <? _); auto. Qed.

(** [reduce] with [higherCall] picks an element of greatest block height. *)
Lemma fold_higherCall_spec (rest : list CallWithMeta) :
  forall x,
    In (fold_left higherCall rest x) (x :: rest) /\
    blockHeight x <= blockHeight (fold_left higherCall rest x) /\
    Forall (fun c => blockHeight c <= blockHeight (fold_left higherCall rest x))
           rest.
Proof.
  induction rest as [| y rest IH]; intros x; cbn [fold_left].
  - repeat split; [left; reflexivity | lia | constructor].
  - destruct (IH (higherCall x y)) as [Hin [Hle Hall]].
    pose proof (higherCall_height x y) as Hh.
    repeat split.
    + destruct Hin as [Heq | Hin].
      * destruct (higherCall_choice x y) as [Hc | Hc].
        -- left. congruence.
        -- right. left. congruence.
      * right. right. exact Hin.
    + lia.
    + constructor; [lia | exact Hall].
Qed.

Lemma reduce_higherCall_max (x : CallWithMeta) (rest : list CallWithMeta) :
  isMaxHeight (x :: rest) (blockHeight (fold_left higherCall rest x)).
Proof.
  destruct (fold_higherCall_spec rest x) as [Hin [Hle Hall]].
  split.
  - apply in_map. exact Hin.
  - constructor; assumption.
Qed.

(** [updateHighestCheckedL2] on a non-empty list, as one conditional. *)
Lemma updateHighestCheckedL2_cons (x : CallWithMeta)
    (rest : list CallWithMeta) (m : Machine) :
  updateHighestCheckedL2 (x :: rest) m =
  let hmax := blockHeight (fold_left higherCall rest x) in
  let candidate := if 0 <? hmax then hmax - 1 else hmax in
  if candidate <=? highestProvenL2 (state m)
  then Returned false m
  else Returned true
         (mkMachine
            (mkState (highestKnownL2 (state m)) candidate
               (highestFinalizedL2 (state m)))
            (initalIteration m) (singleCallGas m)
            (trace m ++ [EvGaugeSet GaugeProvenL2 candidate])).
Proof.
  unfold updateHighestCheckedL2, JS.reduce. run. cbv zeta.
  destruct (_ <=? highestProvenL2 (state m)); reflexivity.
Qed.

(** C5, amended.  On a non-empty list [updateHighestCheckedL2] takes the
    greatest block height [hmax]; its candidate is [hmax - 1] when
    [hmax > 0] and [hmax] itself otherwise; it moves the proven height to the
    candidate and answers [true] exactly when the candidate is strictly
    greater, and otherwise answers [false] and changes nothing, so the proven
    height never decreases.  When the proven height is non-negative the
    decision is the same as with the candidate [hmax - 1]. *)
Theorem updateHighestCheckedL2_advances
    (calls : list CallWithMeta) (m : Machine) :
  calls <> [] ->
  exists hmax, isMaxHeight calls hmax /\
    let candidate := if 0 <? hmax then hmax - 1 else hmax in
    (highestProvenL2 (state m) < candidate ->
       exists m', updateHighestCheckedL2 calls m = Returned true m' /\
                  highestProvenL2 (state m') = candidate /\
                  highestKnownL2 (state m') = highestKnownL2 (state m) /\
                  highestFinalizedL2 (state m') =
                    highestFinalizedL2 (state m)) /\
    (candidate <= highestProvenL2 (state m) ->
       updateHighestCheckedL2 calls m = Returned false m) /\
    (forall b m', updateHighestCheckedL2 calls m = Returned b m' ->
       highestProvenL2 (state m) <= highestProvenL2 (state m')) /\
    (0 <= highestProvenL2 (state m) ->
       (highestProvenL2 (state m) < candidate <->
        highestProvenL2 (state m) < hmax - 1)).
Proof.
  intros Hne. destruct calls as [| x rest]; [congruence |].
  exists (blockHeight (fold_left higherCall rest x)).
  split; [apply reduce_higherCall_max |].
  cbv zeta. rewrite updateHighestCheckedL2_cons. cbv zeta.
  set (hmax := blockHeight (fold_left higherCall rest x)).
  set (candidate := if 0 <? hmax then hmax - 1 else hmax).
  assert (Hc : candidate = hmax - 1 \/ (hmax <= 0 /\ candidate = hmax)).
  { unfold candidate. destruct (Z.ltb_spec 0 hmax); [left | right]; lia. }
  destruct (Z.leb_spec candidate (highestProvenL2 (state m))) as [Hle | Hlt].
  - repeat split; intros; try lia; try reflexivity.
    match goal with H : Returned _ _ = Returned _ _ |- _ =>
      inversion H; subst; lia end.
  - repeat split; intros; try lia.
    + eexists. split; [reflexivity |]. cbn. auto.
    + match goal with H : Returned _ _ = Returned _ _ |- _ =>
        inversion H; subst; cbn; lia end.
Qed.

End AdvanceProven.

Lemma updateHighestCheckedL2_advances_witness :
  [Scenario.callAt 7 "0xa"; Scenario.callAt 9 "0xb"] <> [] /\
  exists m',
    updateHighestCheckedL2
      [Scenario.callAt 7 "0xa"; Scenario.callAt 9 "0xb"]
      (Scenario.machine 20 3 3 0) = Returned true m' /\
    highestProvenL2 (state m') = 8.
Proof.
  split; [discriminate |].
  destruct (updateHighestCheckedL2_advances
              [Scenario.callAt 7 "0xa"; Scenario.callAt 9 "0xb"]
              (Scenario.machine 20 3 3 0))
    as [hmax [[Hin Hall] [Hup _]]]; [discriminate |].
  assert (Hmax : hmax = 9).
  { inversion Hall as [| c l H7 Htl]; subst.
    inversion Htl as [| c' l' H9 _]; subst.
    cbn in Hin, H7, H9. destruct Hin as [H | [H | []]]; lia. }
  subst hmax.
  destruct Hup as [m' [Hrun [Hp _]]]; [simpl; lia |].
  exists m'. split; [exact Hrun | exact Hp].
Defined.

(** C5 fails as worded: with proven height [-1] and one call from block 0
    the source keeps the candidate at 0 (its guard [0 < highest] skips the
    subtraction), moves the proven height to 0 and answers [true], where the
    worded candidate [-1] would leave it. *)
Lemma advanceProvenSpec_fails_at_block_zero :
  updateHighestCheckedL2 [Scenario.callAt 0 "0xa"]
    (Scenario.machine 4 (-1) (-1) 0)
  = Returned true
      (mkMachine (mkState 4 0 (-1)) true 0%float
         [EvGaugeSet GaugeProvenL2 0]) /\
  ~ advanceProvenSpec [Scenario.callAt 0 "0xa"]
      (Scenario.machine 4 (-1) (-1) 0)
      (updateHighestCheckedL2 [Scenario.callAt 0 "0xa"]
         (Scenario.machine 4 (-1) (-1) 0)).
Proof.
  split; [reflexivity |].
  intros [hmax [[Hin _] [_ Hstay]]].
  cbn in Hin. destruct Hin as [H | []]. subst hmax.
  destruct Hstay as [m' [Hrun _]]; [simpl; lia |].
  discriminate Hrun.
Qed.

(** The proven height [-1] of the previous lemma is what a reorg from height
    10 down to 4 leaves, with safety depth 5. *)
Example handleL2Reorg_negative_proven :
  exists m',
    handleL2Reorg (Scenario.cfg None) 4 (Scenario.machine 10 8 8 0) =
      Returned tt m' /\
    state m' = mkState 4 (-1) (-1).
Proof.
  eexists. split.
  - apply handleL2Reorg_rewind_eq. simpl. lia.
  - reflexivity.
Qed.

Section Reconciliation.

Variable chain : Chain.

Lemma filter_all_failed (calleds : list CallWithMeta) (ids : list string) :
  (forall c, In c calleds -> In (txHash c) ids) ->
  filter (fun c => negb (existsb (String.eqb (txHash c)) ids)) calleds = [].
Proof.
  induction calleds as [| c rest IH]; intros Hall; [reflexivity |].
  cbn [filter].
  assert (Hex : existsb (String.eqb (txHash c)) ids = true).
  { apply existsb_exists. exists (txHash c). split.
    - apply Hall. left. reflexivity.
    - apply String.eqb_refl. }
  rewrite Hex. cbn. apply IH. intros c' Hc'. apply Hall. right. exact Hc'.
Qed.

(** C2 (what the source does).  [updateHighestCheckedL2] on the empty list
    raises the [TypeError] of [reduce], and so does [handleMulticallResult]
    when every attempted call is in the failed list. *)
Theorem updateHighestCheckedL2_empty_throws
    (calleds : list CallWithMeta) (m : Machine) :
  updateHighestCheckedL2 [] m =
    Thrown (JS.TypeError "Reduce of empty array with no initial value") m /\
  handleMulticallResult chain calleds calleds m =
    Thrown (JS.TypeError "Reduce of empty array with no initial value") m.
Proof.
  split; [reflexivity |].
  unfold handleMulticallResult.
  rewrite filter_all_failed.
  - reflexivity.
  - intros c Hc. apply in_map. exact Hc.
Qed.

(** On a non-empty list whose candidate does not exceed the proven height,
    [updateHighestCheckedL2] changes nothing and answers [false]. *)
Lemma updateHighestCheckedL2_lower_noop (x : CallWithMeta)
    (rest : list CallWithMeta) (m : Machine) :
  Forall (fun c => blockHeight c - 1 <= highestProvenL2 (state m))
         (x :: rest) ->
  0 <= highestProvenL2 (state m) ->
  updateHighestCheckedL2 (x :: rest) m = Returned false m.
Proof.
  intros Hall Hp. rewrite updateHighestCheckedL2_cons. cbv zeta.
  destruct (fold_higherCall_spec rest x) as [Hin _].
  rewrite Forall_forall in Hall. specialize (Hall _ Hin).
  set (hmax := blockHeight (fold_left higherCall rest x)) in *.
  assert (Hc : (if 0 <? hmax then hmax - 1 else hmax)
               <= highestProvenL2 (state m)).
  { destruct (Z.ltb_spec 0 hmax); lia. }
  apply Z.leb_le in Hc. rewrite Hc. reflexivity.
Qed.

End Reconciliation.

(** ** The flush decision *)

(** Multiplication of binary64 numbers is commutative. *)
Lemma float_mul_comm (x y : float) : (x * y = y * x)%float.
Proof.
  apply Prim2SF_inj. rewrite !mul_spec.
  destruct (Prim2SF x) as [sx | sx | | sx mx ex];
    destruct (Prim2SF y) as [sy | sy | | sy my ey];
    cbn; try reflexivity;
    try (rewrite (xorb_comm sx sy); reflexivity).
  rewrite (xorb_comm sx sy), (Pos.mul_comm mx my), (Z.add_comm ex ey).
  reflexivity.
Qed.

(** C8. [isOvertargetGas size] answers [true] exactly when
    [size * singleCallGas * gasMultiplier], computed in binary64, is strictly
    greater than [targetGas]; with targetGas 1,000,000, singleCallGas 100,000
    and gasMultiplier 1.1 the answer is [false] for 9 calls and [true] for
    10. *)
Theorem isOvertargetGas_threshold :
  (forall (cfg : Config) (m : Machine) (size : float),
      isOvertargetGas cfg m size = true <->
      (targetGas cfg <? size * singleCallGas m * gasMultiplier cfg)%float
        = true)
  /\
  (forall known proven finalized : Z,
      let m := Scenario.machine known proven finalized 100000%float in
      isOvertargetGas (Scenario.cfg None) m (JS.ofNat 9) = false /\
      isOvertargetGas (Scenario.cfg None) m (JS.ofNat 10) = true).
Proof.
  split.
  - intros cfg m size. unfold isOvertargetGas, computeExpectedMulticallGas.
    rewrite (float_mul_comm (singleCallGas m) size). reflexivity.
  - intros known proven finalized. cbv zeta.
    repeat split; vm_compute; reflexivity.
Qed.

(** ** Halving *)

Lemma div2_S_bounds (n : nat) :
  (2 * Nat.div2 (S n) <= n + 1 /\ n <= 2 * Nat.div2 (S n))%nat.
Proof.
  rewrite Nat.div2_div.
  pose proof (Nat.div_mod_eq (S n) 2) as H.
  pose proof (Nat.mod_upper_bound (S n) 2) as H2.
  lia.
Qed.

(** The halves of [splitArray] concatenate to the array, and the first has
    [ceil (n / 2)] elements. *)
Lemma splitArray_spec {A : Type} (array : list A) :
  fst (splitArray array) ++ snd (splitArray array) = array /\
  List.length (fst (splitArray array))
    = Nat.div2 (S (List.length array)) /\
  (List.length (fst (splitArray array))
   + List.length (snd (splitArray array)) = List.length array)%nat.
Proof.
  unfold splitArray, JS.slice, JS.sliceFrom, JS.ceilHalf. cbn [fst snd skipn].
  rewrite Nat.sub_0_r.
  pose proof (div2_S_bounds (List.length array)) as Hb.
  repeat split.
  - apply firstn_skipn.
  - rewrite length_firstn. destruct array; cbn [List.length] in *; lia.
  - rewrite length_firstn, length_skipn. lia.
Qed.

(** Both halves of a batch of two or more calls are non-empty and shorter
    than the batch. *)
Lemma splitArray_shorter {A : Type} (array : list A) :
  (2 <= List.length array)%nat ->
  (1 <= List.length (fst (splitArray array)) < List.length array)%nat /\
  (1 <= List.length (snd (splitArray array)) < List.length array)%nat.
Proof.
  intros Hlen.
  destruct (splitArray_spec array) as [_ [Hfst Hsum]].
  pose proof (div2_S_bounds (List.length array)) as Hb.
  lia.
Qed.

(** The halves are the first [ceil (n / 2)] elements and the rest. *)
Lemma splitArray_halves {A : Type} (array : list A) :
  fst (splitArray array)
    = firstn (Nat.div2 (S (List.length array))) array /\
  snd (splitArray array)
    = skipn (Nat.div2 (S (List.length array))) array.
Proof.
  unfold splitArray, JS.slice, JS.sliceFrom, JS.ceilHalf. cbn [fst snd skipn].
  rewrite Nat.sub_0_r. split; reflexivity.
Qed.

Lemma singleEstimations_app (a b : list Event) :
  singleEstimations (a ++ b) = singleEstimations a ++ singleEstimations b.
Proof.
  induction a as [| ev a IH]; [reflexivity |].
  destruct ev; cbn [app singleEstimations]; try exact IH.
  destruct calls as [| c [| c' calls]]; cbn; rewrite ?IH; reflexivity.
Qed.

Lemma fetchedHeights_app (a b : list Event) :
  fetchedHeights (a ++ b) = fetchedHeights a ++ fetchedHeights b.
Proof.
  induction a as [| ev a IH]; [reflexivity |].
  destruct ev; cbn [app fetchedHeights]; rewrite ?IH; reflexivity.
Qed.

Section Batcher.

Variable cfg : Config.
Variable chain : Chain.

(** A failed estimation of a single call: the call comes back marked. *)
Lemma multicall_fail_single (fuel : nat) (c : CallWithMeta)
    (callback : option Callback) (m : Machine) (e : JS.Error) :
  estimateGas_tryAggregate chain true [call c] = inl e ->
  exists m1,
    multicall cfg chain (S fuel) [c] callback m = Returned [setErr c e] m1 /\
    trace m1 = trace m ++ [EvEstimateAggregate [call c]] /\
    state m1 = state m /\
    initalIteration m1 = initalIteration m /\
    (exceedsAllowance e = true -> singleCallGas m1 = 0%float).
Proof.
  intros He. cbn [multicall convertToCalls map]. unfold requireSuccess.
  run. rewrite He. destruct (exceedsAllowance e); run;
    eexists; repeat split; try reflexivity; discriminate.
Qed.

(** A failed estimation of a larger batch: both halves are submitted in
    turn and their failures concatenated. *)
Lemma multicall_fail_split (fuel : nat) (calls : list CallWithMeta)
    (callback : option Callback) (m : Machine) (e : JS.Error) :
  List.length calls <> 1%nat ->
  estimateGas_tryAggregate chain true (convertToCalls calls) = inl e ->
  exists m1,
    trace m1 = trace m ++ [EvEstimateAggregate (convertToCalls calls)] /\
    state m1 = state m /\
    initalIteration m1 = initalIteration m /\
    (singleCallGas m1 = singleCallGas m \/ singleCallGas m1 = 0%float) /\
    (exceedsAllowance e = true -> singleCallGas m1 = 0%float) /\
    multicall cfg chain (S fuel) calls callback m =
      (results <- multicall cfg chain fuel (fst (splitArray calls)) callback ;;
       rest <- multicall cfg chain fuel (snd (splitArray calls)) callback ;;
       ret (results ++ rest)) m1.
Proof.
  intros Hlen He.
  assert (Hstep :
    multicall cfg chain (S fuel) calls callback m =
    ((if exceedsAllowance e
      then modify (fun m => withSingleCallGas m 0%float)
      else ret tt) ;;
     results <- multicall cfg chain fuel (fst (splitArray calls)) callback ;;
     rest <- multicall cfg chain fuel (snd (splitArray calls)) callback ;;
     ret (results ++ rest))
      (withEvent m (EvEstimateAggregate (convertToCalls calls)))).
  { destruct calls as [| c1 [| c2 rest]]; cbn [List.length] in Hlen;
      try lia; cbn [multicall]; unfold requireSuccess;
      unfold bind at 1; unfold emit at 1; unfold modify at 1;
      rewrite He; reflexivity. }
  rewrite Hstep. clear Hstep.
  destruct (exceedsAllowance e).
  - exists (withSingleCallGas
              (withEvent m (EvEstimateAggregate (convertToCalls calls)))
              0%float).
    repeat split; auto.
  - exists (withEvent m (EvEstimateAggregate (convertToCalls calls))).
    repeat split; auto. discriminate.
Qed.

(** What follows a successful estimation. *)
Lemma multicall_success_step (fuel : nat) (calls : list CallWithMeta)
    (callback : option Callback) (m : Machine) (estimatedGas : Z) :
  estimateGas_tryAggregate chain true (convertToCalls calls)
    = inr estimatedGas ->
  multicall cfg chain (S fuel) calls callback m =
    (gas <- lift (JS.toNumber estimatedGas) ;;
     let overrideOptions :=
       JS.toInt32 (gas * JS.orElse (gasMultiplier cfg) 1)%float in
     tx <- await (EvTryAggregate (convertToCalls calls) overrideOptions)
             (tryAggregate chain true (convertToCalls calls)
                overrideOptions) ;;
     await (EvWait tx) (wait chain tx) ;;
     invokeCallback callback tx calls ;;
     ret [])
      (withEvent m (EvEstimateAggregate (convertToCalls calls))).
Proof.
  intros He. cbn [multicall]. unfold requireSuccess.
  unfold bind at 1. unfold emit at 1. unfold modify at 1.
  rewrite He. reflexivity.
Qed.

(** A successful estimation that returns: the batch was submitted, waited
    for, and handed to the callback, and no call is reported failed. *)
Lemma multicall_success_returned (fuel : nat) (calls : list CallWithMeta)
    (callback : option Callback) (m m' : Machine) (estimatedGas : Z)
    (result : list CallWithMeta) :
  estimateGas_tryAggregate chain true (convertToCalls calls)
    = inr estimatedGas ->
  multicall cfg chain (S fuel) calls callback m = Returned result m' ->
  result = [] /\
  state m' = state m /\
  exists f tx gasOverride,
    callback = Some f /\
    trace m' =
      trace m ++ [EvEstimateAggregate (convertToCalls calls);
                  EvTryAggregate (convertToCalls calls) gasOverride;
                  EvWait tx;
                  EvCallback tx calls].
Proof.
  intros He H.
  rewrite (multicall_success_step fuel calls callback m estimatedGas He) in H.
  cbv [bind lift await emit modify invokeCallback ret throw] in H.
  destruct (JS.toNumber estimatedGas) as [e | gas]; [discriminate |].
  destruct (tryAggregate chain true (convertToCalls calls) _)
    as [e | tx] eqn:Htx; [discriminate |].
  destruct (wait chain tx) as [e | []]; [discriminate |].
  destruct callback as [f |]; [| discriminate].
  destruct (f tx calls) as [e | []]; [discriminate |].
  inversion H. subst. split; [reflexivity |]. split; [reflexivity |].
  exists f, tx. eexists. split; [reflexivity |].
  cbn [trace withEvent]. rewrite <- !app_assoc. reflexivity.
Qed.

(** Halving, whatever the single-call estimations answer: a run that
    returns made one single-call estimation per call, in order, and reports
    exactly the calls whose own estimation failed. *)
Lemma multicall_halving (callback : option Callback) :
  (forall l : list Call, (2 <= List.length l)%nat ->
     exists e, estimateGas_tryAggregate chain true l = inl e) ->
  forall (fuel : nat) (calls : list CallWithMeta) (m m' : Machine)
         (result : list CallWithMeta),
    multicall cfg chain fuel calls callback m = Returned result m' ->
    result = failedSingles chain calls /\
    singleEstimations (trace m') =
      singleEstimations (trace m) ++ map call calls.
Proof.
  intros Hmulti fuel.
  induction fuel as [| fuel IH]; intros calls m m' result Hrun;
    [discriminate Hrun |].
  destruct (estimateGas_tryAggregate chain true (convertToCalls calls))
    as [e | g] eqn:He.
  - destruct (Nat.eq_dec (List.length calls) 1) as [Hone | Hmany].
    + destruct calls as [| c1 [| c2 rest]]; try discriminate Hone.
      destruct (multicall_fail_single fuel c1 callback m e He)
        as [m1 [Hrun1 [Htr _]]].
      rewrite Hrun1 in Hrun. inversion Hrun. subst. split.
      * unfold failedSingles. cbn [flat_map].
        cbn [convertToCalls map] in He. rewrite He. reflexivity.
      * rewrite Htr, singleEstimations_app. reflexivity.
    + destruct (multicall_fail_split fuel calls callback m e Hmany He)
        as [m1 [Htr [_ [_ [_ [_ Hstep]]]]]].
      rewrite Hstep in Hrun. unfold bind in Hrun.
      destruct (multicall cfg chain fuel (fst (splitArray calls)) callback m1)
        as [r1 m2 | |] eqn:Hrun1; try discriminate Hrun.
      destruct (multicall cfg chain fuel (snd (splitArray calls)) callback m2)
        as [r2 m3 | |] eqn:Hrun2; try discriminate Hrun.
      inversion Hrun. subst.
      destruct (IH _ _ _ _ Hrun1) as [Hr1 Ht1].
      destruct (IH _ _ _ _ Hrun2) as [Hr2 Ht2].
      destruct (splitArray_spec calls) as [Happ _].
      split.
      * rewrite Hr1, Hr2. unfold failedSingles.
        rewrite <- flat_map_app, Happ. reflexivity.
      * rewrite Ht2, Ht1, Htr, singleEstimations_app.
        assert (Hnone : singleEstimations
                          [EvEstimateAggregate (convertToCalls calls)] = []).
        { destruct calls as [| c1 [| c2 rest]]; try reflexivity.
          cbn in Hmany. congruence. }
        rewrite Hnone, app_nil_r, <- app_assoc, <- map_app, Happ.
        reflexivity.
  - destruct (multicall_success_returned fuel calls callback m m' g result
                He Hrun) as [Hres [_ [f [tx [go [_ Htr]]]]]].
    subst result.
    destruct calls as [| c1 [| c2 rest]].
    + split; [reflexivity |]. rewrite Htr, singleEstimations_app.
      reflexivity.
    + split.
      * unfold failedSingles. cbn [flat_map].
        cbn [convertToCalls map] in He. rewrite He. reflexivity.
      * rewrite Htr, singleEstimations_app. reflexivity.
    + destruct (Hmulti (convertToCalls (c1 :: c2 :: rest))) as [e He'].
      * cbn. lia.
      * congruence.
Qed.

(** Splitting convergence, for any budget that covers the batch. *)
Lemma multicall_all_fail (callback : option Callback) :
  (forall l : list Call, (2 <= List.length l)%nat ->
     exists e, estimateGas_tryAggregate chain true l = inl e) ->
  forall (fuel : nat) (calls : list CallWithMeta) (m : Machine),
    calls <> [] ->
    (List.length calls <= fuel)%nat ->
    (forall c, In c calls ->
       exists e, estimateGas_tryAggregate chain true [call c] = inl e) ->
    exists result m',
      multicall cfg chain fuel calls callback m = Returned result m' /\
      Forall2 (failedBy chain) calls result /\
      singleEstimations (trace m') =
        singleEstimations (trace m) ++ map call calls /\
      state m' = state m.
Proof.
  intros Hmulti fuel.
  induction fuel as [| fuel IH]; intros calls m Hne Hlen Hsingle.
  - destruct calls; [congruence | cbn in Hlen; lia].
  - destruct calls as [| c1 [| c2 rest]]; [congruence | |].
    + destruct (Hsingle c1 (or_introl eq_refl)) as [e He].
      destruct (multicall_fail_single fuel c1 callback m e He)
        as [m1 [Hrun [Htr [Hst _]]]].
      exists [setErr c1 e], m1. repeat split; auto.
      * constructor; [| constructor]. exists e. cbn. auto 10.
      * rewrite Htr, singleEstimations_app. reflexivity.
    + set (calls := c1 :: c2 :: rest) in *.
      assert (Hlen2 : (2 <= List.length calls)%nat) by (cbn; lia).
      destruct (Hmulti (convertToCalls calls)) as [e He].
      { unfold convertToCalls. rewrite length_map. exact Hlen2. }
      destruct (multicall_fail_split fuel calls callback m e
                  ltac:(lia) He)
        as [m1 [Htr [Hst [_ [_ [_ Hrun]]]]]].
      destruct (splitArray_spec calls) as [Happ _].
      destruct (splitArray_shorter calls Hlen2) as [Hfst Hsnd].
      set (firstHalf := fst (splitArray calls)) in *.
      set (secondHalf := snd (splitArray calls)) in *.
      destruct (IH firstHalf m1) as [r1 [m2 [Hrun1 [Hf1 [Htr1 Hst1]]]]].
      { destruct firstHalf; [cbn in Hfst; lia | discriminate]. }
      { lia. }
      { intros c Hc. apply Hsingle. rewrite <- Happ. apply in_or_app. auto. }
      destruct (IH secondHalf m2) as [r2 [m3 [Hrun2 [Hf2 [Htr2 Hst2]]]]].
      { destruct secondHalf; [cbn in Hsnd; lia | discriminate]. }
      { lia. }
      { intros c Hc. apply Hsingle. rewrite <- Happ. apply in_or_app. auto. }
      exists (r1 ++ r2), m3. repeat split.
      * rewrite Hrun. unfold bind. rewrite Hrun1, Hrun2. reflexivity.
      * rewrite <- Happ. apply Forall2_app; assumption.
      * rewrite Htr2, Htr1, Htr, singleEstimations_app.
        assert (Hnone : singleEstimations
                          [EvEstimateAggregate (convertToCalls calls)] = []).
        { subst calls. reflexivity. }
        rewrite Hnone, app_nil_r, <- app_assoc, <- map_app, Happ.
        reflexivity.
      * congruence.
Qed.

(** C3. When every estimation of a batch of two or more calls fails,
    [multicall] on [N >= 1] calls makes exactly [N] single-call estimations,
    one per call in order, and what it returns are the calls whose own
    single-call estimation failed, in order, each with the error of that
    estimation in its error slot and its other fields untouched; when each
    of these estimations fails it does return, and returns all [N] calls.
    [splitArray] gives a first half of [ceil (n / 2)] elements, and the
    recursion of [multicall] on a batch of two or more calls is, after the
    estimation of the batch, [multicall] on its first [ceil (n / 2)] calls,
    then [multicall] on the remaining calls, the two results concatenated in
    this order. *)
Theorem multicall_splits_to_singletons
    (calls : list CallWithMeta) (callback : option Callback) (m : Machine) :
  calls <> [] ->
  (forall l : list Call, (2 <= List.length l)%nat ->
     exists e, estimateGas_tryAggregate chain true l = inl e) ->
  (forall fuel result m',
      multicall cfg chain fuel calls callback m = Returned result m' ->
      result = failedSingles chain calls /\
      singleEstimations (trace m') =
        singleEstimations (trace m) ++ map call calls)
  /\
  ((forall c, In c calls ->
      exists e, estimateGas_tryAggregate chain true [call c] = inl e) ->
   exists result m',
     multicall cfg chain (depthFor calls) calls callback m
       = Returned result m' /\
     List.length result = List.length calls /\
     Forall2 (failedBy chain) calls result /\
     singleEstimations (trace m') =
       singleEstimations (trace m) ++ map call calls)
  /\
  (forall batch : list CallWithMeta,
      fst (splitArray batch) ++ snd (splitArray batch) = batch /\
      List.length (fst (splitArray batch))
        = Nat.div2 (S (List.length batch)))
  /\
  (forall (fuel : nat) (batch : list CallWithMeta) (m0 : Machine),
      (2 <= List.length batch)%nat ->
      let middle := Nat.div2 (S (List.length batch)) in
      exists m1,
        trace m1 = trace m0 ++ [EvEstimateAggregate (convertToCalls batch)] /\
        state m1 = state m0 /\
        multicall cfg chain (S fuel) batch callback m0 =
          (results <- multicall cfg chain fuel (firstn middle batch)
                        callback ;;
           rest <- multicall cfg chain fuel (skipn middle batch) callback ;;
           ret (results ++ rest)) m1).
Proof.
  intros Hne Hmulti. split; [| split; [| split]].
  - intros fuel result m' Hrun.
    exact (multicall_halving callback Hmulti fuel calls m m' result Hrun).
  - intros Hsingle.
    destruct (multicall_all_fail callback Hmulti (depthFor calls) calls m Hne)
      as [result [m' [Hrun [Hfail [Htr _]]]]].
    + unfold depthFor. lia.
    + exact Hsingle.
    + exists result, m'. repeat split; auto.
      symmetry. eapply Forall2_length. exact Hfail.
  - intros batch. split; apply splitArray_spec.
  - intros fuel batch m0 Hlen middle.
    destruct (Hmulti (convertToCalls batch)) as [e He].
    { unfold convertToCalls. rewrite length_map. exact Hlen. }
    destruct (multicall_fail_split fuel batch callback m0 e ltac:(lia) He)
      as [m1 [Htr [Hst [_ [_ [_ Hrun]]]]]].
    destruct (splitArray_halves batch) as [Hfst Hsnd].
    rewrite Hfst, Hsnd in Hrun.
    exists m1. split; [exact Htr |]. split; [exact Hst | exact Hrun].
Qed.

End Batcher.

Lemma multicall_splits_to_singletons_witness :
  Scenario.threeCalls <> [] /\
  exists result m',
    multicall (Scenario.cfg None) Scenario.allFail
      (depthFor Scenario.threeCalls) Scenario.threeCalls None
      (Scenario.machine 20 3 3 0) = Returned result m' /\
    List.length result = 3%nat /\
    Forall2 (failedBy Scenario.allFail) Scenario.threeCalls result /\
    singleEstimations (trace m') =
      [mkCall "portal" "0xa"; mkCall "portal" "0xb"; mkCall "portal" "0xc"].
Proof.
  split; [discriminate |].
  apply (proj1 (proj2
    (multicall_splits_to_singletons (Scenario.cfg None) Scenario.allFail
       Scenario.threeCalls None (Scenario.machine 20 3 3 0)
       ltac:(discriminate)
       (fun l _ => ex_intro _ _ eq_refl)))).
  intros c _. eexists. reflexivity.
Defined.

(** ** Reasoning about computations *)

Section Laws.

Context {R : Machine -> Machine -> Prop} {Rpre : PreOrder R}.

Lemma preserves_ret {A : Type} (a : A) : preserves R (ret a).
Proof. intros m. cbn. reflexivity. Qed.

Lemma preserves_throw {A : Type} (e : JS.Error) : preserves R (@throw A e).
Proof. intros m. cbn. reflexivity. Qed.

Lemma preserves_get : preserves R get.
Proof. intros m. cbn. reflexivity. Qed.

Lemma preserves_stuck {A : Type} : preserves R (fun _ => @OutOfFuel A).
Proof. intros m. exact I. Qed.

Lemma preserves_lift {A : Type} (r : JS.result A) : preserves R (lift r).
Proof. intros m. destruct r; cbn; reflexivity. Qed.

Lemma preserves_modify (f : Machine -> Machine) :
  (forall m, R m (f m)) -> preserves R (modify f).
Proof. intros H m. cbn. apply H. Qed.

Lemma preserves_emit (ev : Event) :
  (forall m, R m (withEvent m ev)) -> preserves R (emit ev).
Proof. intros H m. cbn. apply H. Qed.

Lemma preserves_bind {A B : Type} (c : M A) (k : A -> M B) :
  preserves R c -> (forall a, preserves R (k a)) -> preserves R (bind c k).
Proof.
  intros Hc Hk m. unfold bind. specialize (Hc m).
  destruct (c m) as [a m1 | e m1 |]; [| exact Hc | exact I].
  specialize (Hk a m1).
  destruct (k a m1) as [b m2 | e m2 |]; [| | exact I];
    etransitivity; eassumption.
Qed.

Lemma preserves_await {A : Type} (ev : Event) (r : JS.result A) :
  (forall m, R m (withEvent m ev)) -> preserves R (await ev r).
Proof.
  intros H. unfold await. apply preserves_bind.
  - apply preserves_emit. exact H.
  - intros _. destruct r; [apply preserves_throw | apply preserves_ret].
Qed.

End Laws.

Lemma terminates_ret {A : Type} (a : A) : terminates (ret a).
Proof. intros m. discriminate. Qed.

Lemma terminates_throw {A : Type} (e : JS.Error) : terminates (@throw A e).
Proof. intros m. discriminate. Qed.

Lemma terminates_get : terminates get.
Proof. intros m. discriminate. Qed.

Lemma terminates_lift {A : Type} (r : JS.result A) : terminates (lift r).
Proof. intros m. destruct r; discriminate. Qed.

Lemma terminates_modify (f : Machine -> Machine) : terminates (modify f).
Proof. intros m. discriminate. Qed.

Lemma terminates_emit (ev : Event) : terminates (emit ev).
Proof. intros m. discriminate. Qed.

Lemma terminates_bind {A B : Type} (c : M A) (k : A -> M B) :
  terminates c -> (forall a, terminates (k a)) -> terminates (bind c k).
Proof.
  intros Hc Hk m. unfold bind. specialize (Hc m).
  destruct (c m) as [a m1 | e m1 |]; [apply Hk | discriminate | congruence].
Qed.

Lemma terminates_await {A : Type} (ev : Event) (r : JS.result A) :
  terminates (await ev r).
Proof.
  unfold await. apply terminates_bind.
  - apply terminates_emit.
  - intros _. destruct r; [apply terminates_throw | apply terminates_ret].
Qed.

(** *** The relations are preorders *)

#[local] Instance gasStep_preorder (chain : Chain) : PreOrder (gasStep chain).
Proof.
  split.
  - intros m. exists []. rewrite app_nil_r. auto.
  - intros a b c [n1 [Ht1 H1]] [n2 [Ht2 H2]].
    exists (n1 ++ n2). split.
    + rewrite Ht2, Ht1, app_assoc. reflexivity.
    + destruct H2 as [H2 | [H2 | [tx [g [Hin Hok]]]]].
      * destruct H1 as [H1 | [H1 | [tx [g [Hin Hok]]]]].
        -- left. congruence.
        -- right. left. congruence.
        -- right. right. exists tx, g. split; [| exact Hok].
           apply in_or_app. auto.
      * right. left. exact H2.
      * right. right. exists tx, g. split; [| exact Hok].
        apply in_or_app. auto.
Qed.

#[local] Instance sameScan_preorder : PreOrder sameScan.
Proof.
  split.
  - intros m. repeat split.
  - intros a b c [H1 [H2 H3]] [H4 [H5 H6]]. repeat split; congruence.
Qed.

Lemma gasStep_event (chain : Chain) (m : Machine) (ev : Event) :
  gasStep chain m (withEvent m ev).
Proof. exists [ev]. auto. Qed.

Lemma gasStep_state (chain : Chain) (m : Machine) (s : MessageRelayerState) :
  gasStep chain m (withState m s).
Proof. exists []. cbn. rewrite app_nil_r. auto. Qed.

Lemma gasStep_flag (chain : Chain) (m : Machine) (b : bool) :
  gasStep chain m (withInitalIteration m b).
Proof. exists []. cbn. rewrite app_nil_r. auto. Qed.

Lemma gasStep_reset (chain : Chain) (m : Machine) :
  gasStep chain m (withSingleCallGas m 0%float).
Proof. exists []. cbn. rewrite app_nil_r. auto. Qed.

Ltac gas_side :=
  first [ apply gasStep_event | apply gasStep_state | apply gasStep_flag
        | apply gasStep_reset ].

Lemma sameScan_event (m : Machine) (ev : Event) :
  fetchedHeights [ev] = [] -> sameScan m (withEvent m ev).
Proof.
  intros H. repeat split. cbn [trace withEvent].
  rewrite fetchedHeights_app, H, app_nil_r. reflexivity.
Qed.

Lemma sameScan_gas (m : Machine) (g : float) :
  sameScan m (withSingleCallGas m g).
Proof. repeat split. Qed.

Lemma sameScan_state (m : Machine) (s : MessageRelayerState) :
  highestKnownL2 s = highestKnownL2 (state m) -> sameScan m (withState m s).
Proof. intros H. repeat split. exact H. Qed.

Ltac scan_side :=
  first [ apply sameScan_event; reflexivity
        | apply sameScan_gas
        | apply sameScan_state; reflexivity ].

(** Splits a computation along its binds and branches; [side] proves that
    one store update or one event keeps the relation, [extra] applies the
    lemmas of the operations called. *)
Ltac preserve_with extra side :=
  repeat first
    [ extra
    | apply preserves_ret
    | apply preserves_throw
    | apply preserves_get
    | apply preserves_stuck
    | apply preserves_lift
    | apply preserves_bind; [| intros ?]
    | apply preserves_await; intros ?; side
    | apply preserves_emit; intros ?; side
    | apply preserves_modify; intros ?; side
    | match goal with
      | |- preserves _ (if ?b then _ else _) => destruct b
      | |- preserves _ (match ?x with _ => _ end) => destruct x
      end ].

Section Operations.

Variable cfg : Config.
Variable chain : Chain.

(** *** The calibration value along every operation *)

Lemma updateHighestCheckedL2_gas (calldatas : list CallWithMeta) :
  preserves (gasStep chain) (updateHighestCheckedL2 calldatas).
Proof.
  unfold updateHighestCheckedL2, updateHighestProvenL2.
  preserve_with fail gas_side.
Qed.

Lemma warnFaileds_gas (faileds : list CallWithMeta) :
  preserves (gasStep chain) (warnFaileds faileds).
Proof.
  induction faileds as [| f rest IH]; cbn [warnFaileds].
  - apply preserves_ret.
  - preserve_with ltac:(exact IH) gas_side.
Qed.

Lemma handleMulticallResult_gas (calleds faileds : list CallWithMeta) :
  preserves (gasStep chain) (handleMulticallResult chain calleds faileds).
Proof.
  unfold handleMulticallResult.
  preserve_with
    ltac:(first [apply updateHighestCheckedL2_gas | apply warnFaileds_gas])
    gas_side.
Qed.

Lemma multicall_gas (fuel : nat) :
  forall (calls : list CallWithMeta) (callback : option Callback),
    preserves (gasStep chain) (multicall cfg chain fuel calls callback).
Proof.
  induction fuel as [| fuel IH]; intros calls callback; cbn [multicall].
  - apply preserves_stuck.
  - unfold invokeCallback.
    preserve_with ltac:(apply IH) gas_side.
Qed.

Lemma flush_gas (calldatas : list CallWithMeta) :
  preserves (gasStep chain) (flush cfg chain calldatas).
Proof.
  unfold flush.
  preserve_with
    ltac:(first [apply multicall_gas | apply handleMulticallResult_gas])
    gas_side.
Qed.

(** The scanner's calibration: a new value is stored only after its own
    estimate succeeded. *)
Lemma calibration_gas (tx : string) :
  preserves (gasStep chain)
    (estimatedGas <- await (EvEstimateProve tx)
                       (estimateGas_proveMessage chain tx) ;;
     gas <- lift (JS.toNumber estimatedGas) ;;
     modify (fun m => withSingleCallGas m gas)).
Proof.
  intros m. unfold await, bind, emit, modify, lift, ret, throw.
  destruct (estimateGas_proveMessage chain tx) as [e | g] eqn:Hest.
  - apply gasStep_event.
  - destruct (JS.toNumber g) as [e | gas].
    + apply gasStep_event.
    + exists [EvEstimateProve tx]. split; [reflexivity |].
      right. right. exists tx, g. split; [left; reflexivity | exact Hest].
Qed.

Lemma scanTransactions_gas (blockNumber : Z) (txs : list Transaction) :
  forall calldatas,
    preserves (gasStep chain)
      (scanTransactions cfg chain blockNumber txs calldatas).
Proof.
  induction txs as [| t rest IH]; intros calldatas; cbn [scanTransactions].
  - apply preserves_ret.
  - preserve_with
      ltac:(first [apply IH | apply calibration_gas | apply flush_gas])
      gas_side.
Qed.

Lemma handleSingleBlock_gas (height : Z) (calldatas : list CallWithMeta) :
  preserves (gasStep chain) (handleSingleBlock cfg chain height calldatas).
Proof.
  unfold handleSingleBlock.
  preserve_with ltac:(apply scanTransactions_gas) gas_side.
Qed.

Lemma scanLoop_gas (fuel : nat) :
  forall h calldatas,
    preserves (gasStep chain) (scanLoop cfg chain fuel h calldatas).
Proof.
  induction fuel as [| fuel IH]; intros h calldatas; cbn [scanLoop].
  - apply preserves_stuck.
  - unfold endScanHeight.
    preserve_with ltac:(first [apply IH | apply handleSingleBlock_gas])
      gas_side.
Qed.

Lemma handleMultipleBlock_gas (fuel : nat) :
  preserves (gasStep chain) (handleMultipleBlock cfg chain fuel).
Proof.
  unfold handleMultipleBlock, handleL2Reorg, startScanHeight,
    updateHighestKnownL2, updateHighestProvenL2, updateHighestFinalizedL2.
  preserve_with ltac:(first [apply scanLoop_gas | apply flush_gas]) gas_side.
Qed.

(** *** No block is fetched below [handleSingleBlock] *)

Lemma updateHighestCheckedL2_scan (calldatas : list CallWithMeta) :
  preserves sameScan (updateHighestCheckedL2 calldatas).
Proof.
  unfold updateHighestCheckedL2, updateHighestProvenL2.
  preserve_with fail scan_side.
Qed.

Lemma warnFaileds_scan (faileds : list CallWithMeta) :
  preserves sameScan (warnFaileds faileds).
Proof.
  induction faileds as [| f rest IH]; cbn [warnFaileds].
  - apply preserves_ret.
  - preserve_with ltac:(exact IH) scan_side.
Qed.

Lemma handleMulticallResult_scan (calleds faileds : list CallWithMeta) :
  preserves sameScan (handleMulticallResult chain calleds faileds).
Proof.
  unfold handleMulticallResult.
  preserve_with
    ltac:(first [apply updateHighestCheckedL2_scan | apply warnFaileds_scan])
    scan_side.
Qed.

Lemma multicall_scan (fuel : nat) :
  forall (calls : list CallWithMeta) (callback : option Callback),
    preserves sameScan (multicall cfg chain fuel calls callback).
Proof.
  induction fuel as [| fuel IH]; intros calls callback; cbn [multicall].
  - apply preserves_stuck.
  - unfold invokeCallback.
    preserve_with ltac:(apply IH) scan_side.
Qed.

Lemma flush_scan (calldatas : list CallWithMeta) :
  preserves sameScan (flush cfg chain calldatas).
Proof.
  unfold flush.
  preserve_with
    ltac:(first [apply multicall_scan | apply handleMulticallResult_scan])
    scan_side.
Qed.

Lemma scanTransactions_scan (blockNumber : Z) (txs : list Transaction) :
  forall calldatas,
    preserves sameScan (scanTransactions cfg chain blockNumber txs calldatas).
Proof.
  induction txs as [| t rest IH]; intros calldatas; cbn [scanTransactions].
  - apply preserves_ret.
  - preserve_with ltac:(first [apply IH | apply flush_scan]) scan_side.
Qed.

End Operations.

(** ** What the batcher does to the calibration value *)

#[local] Instance resetOnly_preorder : PreOrder resetOnly.
Proof.
  split.
  - intros m. left. reflexivity.
  - intros a b c [H1 | H1] [H2 | H2]; unfold resetOnly;
      first [left; congruence | right; congruence].
Qed.

Ltac reset_side :=
  first [ left; reflexivity | right; reflexivity ].

Ltac terminate_with extra :=
  repeat first
    [ extra
    | apply terminates_ret
    | apply terminates_throw
    | apply terminates_get
    | apply terminates_lift
    | apply terminates_await
    | apply terminates_emit
    | apply terminates_modify
    | apply terminates_bind; [| intros ?]
    | match goal with
      | |- terminates (if ?b then _ else _) => destruct b
      | |- terminates (match ?x with _ => _ end) => destruct x
      end ].

(** An outcome of a computation that ends and keeps a relation. *)
Lemma ensures {A : Type} (R : Machine -> Machine -> Prop) (c : M A)
    (m : Machine) :
  preserves R c -> terminates c ->
  match c m with
  | Returned _ m' => R m m'
  | Thrown _ m' => R m m'
  | OutOfFuel => False
  end.
Proof.
  intros Hp Ht. specialize (Hp m). specialize (Ht m).
  destruct (c m); auto.
Qed.

Section Calibration.

Variable cfg : Config.
Variable chain : Chain.

Lemma multicall_resets (fuel : nat) :
  forall (calls : list CallWithMeta) (callback : option Callback),
    preserves resetOnly (multicall cfg chain fuel calls callback).
Proof.
  induction fuel as [| fuel IH]; intros calls callback; cbn [multicall].
  - apply preserves_stuck.
  - unfold invokeCallback.
    preserve_with ltac:(apply IH) reset_side.
Qed.

(** A non-empty batch is settled within a depth equal to its length. *)
Lemma multicall_terminates (fuel : nat) :
  forall (calls : list CallWithMeta) (callback : option Callback),
    calls <> [] ->
    (List.length calls <= fuel)%nat ->
    terminates (multicall cfg chain fuel calls callback).
Proof.
  induction fuel as [| fuel IH]; intros calls callback Hne Hlen m.
  - destruct calls; [congruence | cbn in Hlen; lia].
  - destruct (estimateGas_tryAggregate chain true (convertToCalls calls))
      as [e | g] eqn:He.
    + destruct calls as [| c1 [| c2 rest]]; [congruence | |].
      * destruct (multicall_fail_single cfg chain fuel c1 callback m e He)
          as [m1 [Hrun _]].
        rewrite Hrun. discriminate.
      * set (calls := c1 :: c2 :: rest) in *.
        assert (Hlen2 : (2 <= List.length calls)%nat) by (cbn; lia).
        destruct (multicall_fail_split cfg chain fuel calls callback m e
                    ltac:(lia) He) as [m1 [_ [_ [_ [_ [_ Hrun]]]]]].
        rewrite Hrun.
        destruct (splitArray_shorter calls Hlen2) as [Hfst Hsnd].
        apply terminates_bind.
        -- apply IH; [| lia].
           destruct (fst (splitArray calls)); [cbn in Hfst; lia | discriminate].
        -- intros results. apply terminates_bind.
           ++ apply IH; [| lia].
              destruct (snd (splitArray calls));
                [cbn in Hsnd; lia | discriminate].
           ++ intros rest'. apply terminates_ret.
    + rewrite (multicall_success_step cfg chain fuel calls callback m g He).
      match goal with
      | |- ?c ?m0 <> OutOfFuel =>
          cut (terminates c); [intros Hend; apply Hend |]
      end.
      unfold invokeCallback. terminate_with fail.
Qed.

Lemma updateHighestCheckedL2_terminates (calldatas : list CallWithMeta) :
  terminates (updateHighestCheckedL2 calldatas).
Proof.
  unfold updateHighestCheckedL2, updateHighestProvenL2.
  terminate_with fail.
Qed.

Lemma warnFaileds_terminates (faileds : list CallWithMeta) :
  terminates (warnFaileds faileds).
Proof.
  induction faileds as [| f rest IH]; cbn [warnFaileds].
  - apply terminates_ret.
  - terminate_with ltac:(exact IH).
Qed.

Lemma handleMulticallResult_terminates (calleds faileds : list CallWithMeta) :
  terminates (handleMulticallResult chain calleds faileds).
Proof.
  unfold handleMulticallResult.
  terminate_with
    ltac:(first [ apply updateHighestCheckedL2_terminates
                | apply warnFaileds_terminates ]).
Qed.

Lemma flush_terminates (calldatas : list CallWithMeta) :
  calldatas <> [] -> terminates (flush cfg chain calldatas).
Proof.
  intros Hne. unfold flush. apply terminates_bind.
  - apply multicall_terminates; [exact Hne | unfold depthFor; lia].
  - intros faileds. apply handleMulticallResult_terminates.
Qed.

Lemma scanTransactions_terminates (blockNumber : Z)
    (txs : list Transaction) :
  forall calldatas,
    terminates (scanTransactions cfg chain blockNumber txs calldatas).
Proof.
  induction txs as [| t rest IH]; intros calldatas; cbn [scanTransactions].
  - apply terminates_ret.
  - terminate_with
      ltac:(first [ apply IH
                  | apply flush_terminates;
                    destruct calldatas; discriminate ]).
Qed.

Lemma handleSingleBlock_terminates (height : Z)
    (calldatas : list CallWithMeta) :
  terminates (handleSingleBlock cfg chain height calldatas).
Proof.
  unfold handleSingleBlock.
  terminate_with ltac:(apply scanTransactions_terminates).
Qed.

(** C6. When the estimation of a batch fails with a message that contains
    "gas required exceeds allowance", [multicall] ends with [singleCallGas]
    equal to 0 whatever it was before (and it does end on a non-empty
    batch); from 0 the batcher leaves it at 0; and the scanner leaves it at
    0 unless it made a single-call estimate that succeeded. *)
Theorem calibration_reset :
  (forall fuel calls callback m e m',
      estimateGas_tryAggregate chain true (convertToCalls calls) = inl e ->
      exceedsAllowance e = true ->
      finalMachine (multicall cfg chain (S fuel) calls callback m)
        = Some m' ->
      singleCallGas m' = 0%float)
  /\
  (forall calls callback m e,
      calls <> [] ->
      estimateGas_tryAggregate chain true (convertToCalls calls) = inl e ->
      exceedsAllowance e = true ->
      exists m',
        finalMachine (multicall cfg chain (depthFor calls) calls callback m)
          = Some m' /\
        singleCallGas m' = 0%float)
  /\
  (forall fuel calls callback m m',
      singleCallGas m = 0%float ->
      finalMachine (multicall cfg chain fuel calls callback m) = Some m' ->
      singleCallGas m' = 0%float)
  /\
  (forall height calldatas m m',
      singleCallGas m = 0%float ->
      finalMachine (handleSingleBlock cfg chain height calldatas m)
        = Some m' ->
      exists new,
        trace m' = trace m ++ new /\
        (singleCallGas m' = 0%float \/ calibrated chain new))
  /\
  (forall fuel m m',
      singleCallGas m = 0%float ->
      finalMachine (handleMultipleBlock cfg chain fuel m) = Some m' ->
      exists new,
        trace m' = trace m ++ new /\
        (singleCallGas m' = 0%float \/ calibrated chain new)).
Proof.
  assert (Hzero : forall fuel calls callback m m',
    singleCallGas m = 0%float ->
    finalMachine (multicall cfg chain fuel calls callback m) = Some m' ->
    singleCallGas m' = 0%float).
  { intros fuel calls callback m m' H0 Hfin.
    pose proof (multicall_resets fuel calls callback m) as Hp.
    destruct (multicall cfg chain fuel calls callback m);
      cbn in Hfin; inversion Hfin; subst;
      destruct Hp as [Hp | Hp]; congruence. }
  assert (Hreset : forall fuel calls callback m e m',
    estimateGas_tryAggregate chain true (convertToCalls calls) = inl e ->
    exceedsAllowance e = true ->
    finalMachine (multicall cfg chain (S fuel) calls callback m) = Some m' ->
    singleCallGas m' = 0%float).
  { intros fuel calls callback m e m' He Hex Hfin.
    destruct (Nat.eq_dec (List.length calls) 1) as [Hone | Hmany].
    - destruct calls as [| c1 [| c2 rest]]; try discriminate Hone.
      destruct (multicall_fail_single cfg chain fuel c1 callback m e He)
        as [m1 [Hrun [_ [_ [_ Hr]]]]].
      rewrite Hrun in Hfin. cbn in Hfin. inversion Hfin; subst. auto.
    - destruct (multicall_fail_split cfg chain fuel calls callback m e
                  Hmany He) as [m1 [_ [_ [_ [_ [Hr Hrun]]]]]].
      rewrite Hrun in Hfin. specialize (Hr Hex).
      assert (Hp : preserves resetOnly
        (results <- multicall cfg chain fuel
                      (fst (splitArray calls)) callback ;;
         rest <- multicall cfg chain fuel
                   (snd (splitArray calls)) callback ;;
         ret (results ++ rest))).
      { preserve_with ltac:(apply multicall_resets) reset_side. }
      specialize (Hp m1).
      match type of Hp with
      | match ?o with _ => _ end =>
          destruct o as [r m2 | e' m2 |]
      end; cbn in Hfin; inversion Hfin; subst;
        destruct Hp as [Hp | Hp]; congruence. }
  assert (Hgas : forall A (c : M A) m m',
    preserves (gasStep chain) c ->
    singleCallGas m = 0%float ->
    finalMachine (c m) = Some m' ->
    exists new,
      trace m' = trace m ++ new /\
      (singleCallGas m' = 0%float \/ calibrated chain new)).
  { intros A c m m' Hp H0 Hfin. specialize (Hp m).
    destruct (c m); cbn in Hfin; inversion Hfin; subst;
      destruct Hp as [new [Htr [Hp | [Hp | Hp]]]];
      exists new; split; auto; left; congruence. }
  split; [exact Hreset |].
  split; [| split; [exact Hzero | split]].
  - intros calls callback m e Hne He Hex.
    pose proof (multicall_terminates (depthFor calls) calls callback Hne
                  ltac:(unfold depthFor; lia) m) as Hend.
    unfold depthFor in *.
    destruct (multicall cfg chain (S (List.length calls)) calls callback m)
      as [r m' | e' m' |] eqn:Hrun; [| | congruence];
      exists m'; (split; [reflexivity |]);
      apply (Hreset (List.length calls) calls callback m e m' He Hex);
      rewrite Hrun; reflexivity.
  - intros height calldatas m m' H0 Hfin.
    eapply Hgas; [apply handleSingleBlock_gas | exact H0 | exact Hfin].
  - intros fuel m m' H0 Hfin.
    eapply Hgas; [apply handleMultipleBlock_gas | exact H0 | exact Hfin].
Qed.

End Calibration.

Lemma calibration_reset_witness :
  exists m',
    finalMachine
      (multicall (Scenario.cfg None) Scenario.singlesPass
         (depthFor Scenario.threeCalls) Scenario.threeCalls None
         (Scenario.machine 20 3 3 2000000)) = Some m' /\
    singleCallGas m' = 0%float.
Proof.
  apply (proj1 (proj2
           (calibration_reset (Scenario.cfg None) Scenario.singlesPass))
           Scenario.threeCalls None (Scenario.machine 20 3 3 2000000)
           (JS.mkError "Error"
              "err: gas required exceeds allowance (30000000)")).
  - discriminate.
  - reflexivity.
  - reflexivity.
Defined.

(** ** The callback after a successful estimation *)

Section CallbackAfterSubmit.

Variable cfg : Config.
Variable chain : Chain.

(** C10. After a successful estimation [multicall] returns only the empty
    failed-list, and only once the callback has been invoked with the
    transaction hash and the whole batch as the last thing it did; with the
    [null] callback the prover passes, a flush whose estimation succeeds
    ends in an exception and never returns: when the submission and the
    inclusion wait go through, it is the [TypeError] of calling [null]. *)
Theorem multicall_null_callback_throws
    (calls : list CallWithMeta) (m : Machine) (estimatedGas : Z) :
  estimateGas_tryAggregate chain true (convertToCalls calls)
    = inr estimatedGas ->
  (forall fuel callback result m',
      multicall cfg chain (S fuel) calls callback m = Returned result m' ->
      result = [] /\
      exists f tx before,
        callback = Some f /\
        trace m' = before ++ [EvWait tx; EvCallback tx calls])
  /\
  (exists e m',
      multicall cfg chain (depthFor calls) calls None m = Thrown e m' /\
      flush cfg chain calls m = Thrown e m')
  /\
  (forall gas tx,
      JS.toNumber estimatedGas = inr gas ->
      tryAggregate chain true (convertToCalls calls)
        (JS.toInt32 (gas * JS.orElse (gasMultiplier cfg) 1)%float)
        = inr tx ->
      wait chain tx = inr tt ->
      exists m',
        flush cfg chain calls m =
          Thrown (JS.TypeError "callback is not a function") m').
Proof.
  intros He. split; [| split].
  - intros fuel callback result m' H.
    rewrite (multicall_success_step cfg chain fuel calls callback m
               estimatedGas He) in H.
    cbv [bind lift await emit modify invokeCallback ret throw] in H.
    destruct (JS.toNumber estimatedGas) as [e | gas]; [discriminate |].
    destruct (tryAggregate chain true (convertToCalls calls) _)
      as [e | tx]; [discriminate |].
    destruct (wait chain tx) as [e | []]; [discriminate |].
    destruct callback as [f |]; [| discriminate].
    destruct (f tx calls) as [e | []]; [discriminate |].
    inversion H. subst. split; [reflexivity |].
    exists f, tx. cbn [trace withEvent].
    match goal with
    | |- exists before, _ /\ (?b ++ [EvWait _]) ++ _ = _ => exists b
    end.
    split; [reflexivity | rewrite <- app_assoc; reflexivity].
  - unfold flush, depthFor.
    unfold bind at 1.
    rewrite (multicall_success_step cfg chain (List.length calls) calls None
               m estimatedGas He).
    cbv [bind lift await emit modify invokeCallback ret throw].
    destruct (JS.toNumber estimatedGas) as [e | gas];
      [eexists; eexists; split; reflexivity |].
    destruct (tryAggregate chain true (convertToCalls calls) _)
      as [e | tx]; [eexists; eexists; split; reflexivity |].
    destruct (wait chain tx) as [e | []];
      eexists; eexists; split; reflexivity.
  - intros gas tx Hgas Htx Hwait.
    unfold flush, depthFor. unfold bind at 1.
    rewrite (multicall_success_step cfg chain (List.length calls) calls None
               m estimatedGas He).
    cbv [bind lift await emit modify invokeCallback ret throw].
    rewrite Hgas, Htx, Hwait. eexists. reflexivity.
Qed.

End CallbackAfterSubmit.

Lemma multicall_null_callback_throws_witness :
  exists e m',
    multicall (Scenario.cfg None) Scenario.singlesPass
      (depthFor [Scenario.callAt 7 "0xa"]) [Scenario.callAt 7 "0xa"] None
      (Scenario.machine 20 3 3 0) = Thrown e m' /\
    flush (Scenario.cfg None) Scenario.singlesPass
      [Scenario.callAt 7 "0xa"] (Scenario.machine 20 3 3 0) = Thrown e m'.
Proof.
  apply (proj1 (proj2
    (multicall_null_callback_throws (Scenario.cfg None) Scenario.singlesPass
       [Scenario.callAt 7 "0xa"] (Scenario.machine 20 3 3 0) 120000
       eq_refl))).
Defined.

(** ** The scan window *)

Section ScanWindow.

Variable cfg : Config.
Variable chain : Chain.

(** [handleSingleBlock h] fetches block [h] and no other, whether it returns
    or raises, and leaves the known height and the first-iteration flag. *)
Lemma handleSingleBlock_fetch (h : Z) (calldatas : list CallWithMeta)
    (m : Machine) :
  match handleSingleBlock cfg chain h calldatas m with
  | Returned _ m' | Thrown _ m' =>
      fetchedHeights (trace m') = fetchedHeights (trace m) ++ [h] /\
      highestKnownL2 (state m') = highestKnownL2 (state m) /\
      initalIteration m' = initalIteration m
  | OutOfFuel => False
  end.
Proof.
  assert (Hm1 :
    fetchedHeights (trace (withEvent m (EvGetBlock h)))
      = fetchedHeights (trace m) ++ [h] /\
    highestKnownL2 (state (withEvent m (EvGetBlock h)))
      = highestKnownL2 (state m) /\
    initalIteration (withEvent m (EvGetBlock h)) = initalIteration m).
  { cbn [trace state initalIteration withEvent].
    rewrite fetchedHeights_app. auto. }
  set (m1 := withEvent m (EvGetBlock h)) in *.
  assert (Hscan : forall b,
    match scanTransactions cfg chain (number b) (transactions b)
            calldatas m1 with
    | Returned _ m' | Thrown _ m' =>
        fetchedHeights (trace m') = fetchedHeights (trace m) ++ [h] /\
        highestKnownL2 (state m') = highestKnownL2 (state m) /\
        initalIteration m' = initalIteration m
    | OutOfFuel => False
    end).
  { intros b.
    pose proof (ensures sameScan _ m1
                  (scanTransactions_scan cfg chain (number b)
                     (transactions b) calldatas)
                  (scanTransactions_terminates cfg chain (number b)
                     (transactions b) calldatas)) as Hs.
    destruct Hm1 as [H1 [H2 H3]].
    destruct (scanTransactions cfg chain (number b) (transactions b)
                calldatas m1);
      [ destruct Hs as [H4 [H5 H6]]; repeat split; congruence
      | destruct Hs as [H4 [H5 H6]]; repeat split; congruence
      | exact Hs ]. }
  unfold handleSingleBlock.
  cbv [bind await emit modify ret throw]. fold m1.
  destruct (getBlockWithTransactions chain h) as [e | [b |]];
    [exact Hm1 | | exact Hm1].
  specialize (Hscan b).
  destruct (transactions b) as [| t rest] eqn:Htx; [exact Hm1 |].
  exact Hscan.
Qed.

(** The loop of [handleMultipleBlock] from height [h]: it fetches
    [h, h + 1, ...] up to the end of the window when it returns, and an
    initial part of them when [handleSingleBlock] raises. *)
Lemma scanLoop_visits (fuel : nat) :
  forall (h : Z) (calldatas : list CallWithMeta) (m : Machine),
    let stop := highestKnownL2 (state m) - l2blockConfirmations cfg in
    let count := Z.to_nat (stop - h + 1) in
    (count < fuel)%nat ->
    match scanLoop cfg chain fuel h calldatas m with
    | Returned _ m' =>
        fetchedHeights (trace m') =
          fetchedHeights (trace m) ++ heightsFrom h count /\
        highestKnownL2 (state m') = highestKnownL2 (state m) /\
        initalIteration m' = initalIteration m
    | Thrown _ m' =>
        (exists k, (k <= count)%nat /\
           fetchedHeights (trace m') =
             fetchedHeights (trace m) ++ heightsFrom h k) /\
        highestKnownL2 (state m') = highestKnownL2 (state m) /\
        initalIteration m' = initalIteration m
    | OutOfFuel => False
    end.
Proof.
  induction fuel as [| fuel IH]; intros h calldatas m stop count Hfuel;
    [lia |].
  cbn [scanLoop]. unfold endScanHeight.
  cbv [bind get ret]. fold stop.
  destruct (Z.leb_spec h stop) as [Hle | Hgt].
  - assert (Hcount : count = S (Z.to_nat (stop - (h + 1) + 1))).
    { unfold count. lia. }
    pose proof (handleSingleBlock_fetch h calldatas m) as Hblock.
    destruct (handleSingleBlock cfg chain h calldatas m)
      as [calldatas' m1 | e m1 |]; [| | contradiction].
    + destruct Hblock as [Hf [Hk Hi]].
      specialize (IH (h + 1) calldatas' m1). cbv zeta in IH.
      rewrite Hk in IH. fold stop in IH.
      assert (Hfuel' : (Z.to_nat (stop - (h + 1) + 1) < fuel)%nat) by lia.
      specialize (IH Hfuel').
      destruct (scanLoop cfg chain fuel (h + 1) calldatas' m1)
        as [r m2 | e m2 |]; [| | contradiction].
      * destruct IH as [Hf2 [Hk2 Hi2]]. repeat split; try congruence.
        rewrite Hf2, Hf, Hcount, <- app_assoc. reflexivity.
      * destruct IH as [[k [Hk' Hf2]] [Hk2 Hi2]].
        repeat split; try congruence.
        exists (S k). split; [lia |].
        rewrite Hf2, Hf, <- app_assoc. reflexivity.
    + destruct Hblock as [Hf [Hk Hi]]. repeat split; try congruence.
      exists 1%nat. split; [lia |]. rewrite Hf. reflexivity.
  - assert (Hcount : count = 0%nat) by (unfold count; lia).
    rewrite Hcount. cbn [heightsFrom]. rewrite app_nil_r. auto.
Qed.

Lemma bind_returned {A B : Type} (c : M A) (k : A -> M B) (m m1 : Machine)
    (a : A) :
  c m = Returned a m1 -> bind c k m = k a m1.
Proof. intros H. unfold bind. rewrite H. reflexivity. Qed.

Lemma startScanHeight_first (m : Machine) :
  initalIteration m = true ->
  startScanHeight m =
    Returned (highestFinalizedL2 (state m)) (withInitalIteration m false).
Proof. intros H. unfold startScanHeight. run. rewrite H. reflexivity. Qed.

Lemma startScanHeight_next (m : Machine) :
  initalIteration m = false ->
  startScanHeight m = Returned (highestProvenL2 (state m) + 1) m.
Proof. intros H. unfold startScanHeight. run. rewrite H. reflexivity. Qed.

(** The head of [handleMultipleBlock], up to the update of the known height:
    it leaves the state that [observeHead] describes and fetches nothing. *)
Lemma head_observed {B : Type} (latest : Z) (m : Machine) (k : M B) :
  exists m2,
    state m2 = observeHead cfg latest (state m) /\
    fetchedHeights (trace m2) = fetchedHeights (trace m) /\
    initalIteration m2 = initalIteration m /\
    ((if latest <? highestKnownL2 (state m)
      then handleL2Reorg cfg latest
      else ret tt) ;;
     updateHighestKnownL2 latest ;;
     k) m = k m2.
Proof.
  unfold observeHead.
  destruct (latest <? highestKnownL2 (state m)); cbn [andb].
  - destruct (Z.leb_spec (highestProvenL2 (state m))
                (latest - reorgSafetyDepth cfg)) as [Hle | Hgt]; cbn [negb].
    + eexists. split; [| split; [| split]].
      4: { erewrite bind_returned by (apply handleL2Reorg_keep_eq; exact Hle).
           erewrite bind_returned by reflexivity. reflexivity. }
      * reflexivity.
      * cbn. rewrite !fetchedHeights_app. cbn.
        rewrite !app_nil_r. reflexivity.
      * reflexivity.
    + eexists. split; [| split; [| split]].
      4: { erewrite bind_returned
             by (apply handleL2Reorg_rewind_eq; exact Hgt).
           erewrite bind_returned by reflexivity. reflexivity. }
      * reflexivity.
      * cbn. rewrite !fetchedHeights_app. cbn.
        rewrite !app_nil_r. reflexivity.
      * reflexivity.
  - eexists. split; [| split; [| split]].
    4: { erewrite bind_returned by reflexivity.
         erewrite bind_returned by reflexivity. reflexivity. }
    + reflexivity.
    + cbn. rewrite !fetchedHeights_app. cbn.
      rewrite !app_nil_r. reflexivity.
    + reflexivity.
Qed.

(** The flush at the end of a scan fetches no block. *)
Lemma final_flush_scan (calldatas : list CallWithMeta) (m : Machine) :
  match (if (0 <? List.length calldatas)%nat
         then flush cfg chain calldatas
         else ret tt) m with
  | Returned _ m' | Thrown _ m' => sameScan m m'
  | OutOfFuel => False
  end.
Proof.
  destruct calldatas as [| c rest]; cbn [List.length Nat.ltb Nat.leb].
  - cbn. reflexivity.
  - apply (ensures sameScan).
    + apply flush_scan.
    + apply flush_terminates. discriminate.
Qed.

End ScanWindow.

(** A first scan (known height 5, head 12, two confirmations, finalized
    height 3) in which the first message found is flushed at once (the
    calibration makes one call exceed the target): the submission goes
    through, the [null] callback raises inside the handling of block 3, and
    only block 3 was fetched. *)
Example scan_cut_short :
  match handleMultipleBlock (Scenario.cfg None) Scenario.singlesPass 20
          (Scenario.machine 5 3 3 0) with
  | Thrown e m' =>
      e = JS.TypeError "callback is not a function" /\
      fetchedHeights (trace m') = [3]
  | _ => False
  end.
Proof. vm_compute. split; reflexivity. Qed.

(** And when every estimation fails the flush returns all calls as failed,
    and reconciliation raises on the empty list of succeeded calls. *)
Example flush_all_failed_throws :
  match flush (Scenario.cfg None) Scenario.allFail Scenario.threeCalls
          (Scenario.machine 20 3 3 0) with
  | Thrown e m' =>
      e = JS.TypeError "Reduce of empty array with no initial value" /\
      state m' = mkState 20 3 3
  | _ => False
  end.
Proof. vm_compute. split; reflexivity. Qed.

(** ** What a flush can do *)

#[local] Instance sameState_preorder : PreOrder sameState.
Proof.
  split.
  - intros m. reflexivity.
  - intros a b c H1 H2. unfold sameState in *. congruence.
Qed.

Ltac state_side := reflexivity.

Section Flush.

Variable cfg : Config.
Variable chain : Chain.

Lemma multicall_state (fuel : nat) :
  forall (calls : list CallWithMeta) (callback : option Callback),
    preserves sameState (multicall cfg chain fuel calls callback).
Proof.
  induction fuel as [| fuel IH]; intros calls callback; cbn [multicall].
  - apply preserves_stuck.
  - unfold invokeCallback.
    preserve_with ltac:(apply IH) state_side.
Qed.

(** With the [null] callback, what [multicall] returns names every call of
    the batch: nothing is left to count as succeeded. *)
Lemma multicall_null_returns (fuel : nat) :
  forall (calls result : list CallWithMeta) (m m' : Machine),
    multicall cfg chain fuel calls None m = Returned result m' ->
    map txHash result = map txHash calls.
Proof.
  induction fuel as [| fuel IH]; intros calls result m m' Hrun;
    [discriminate Hrun |].
  destruct (estimateGas_tryAggregate chain true (convertToCalls calls))
    as [e | g] eqn:He.
  - destruct (Nat.eq_dec (List.length calls) 1) as [Hone | Hmany].
    + destruct calls as [| c1 [| c2 rest]]; try discriminate Hone.
      destruct (multicall_fail_single cfg chain fuel c1 None m e He)
        as [m1 [Hrun1 _]].
      rewrite Hrun1 in Hrun. inversion Hrun. reflexivity.
    + destruct (multicall_fail_split cfg chain fuel calls None m e Hmany He)
        as [m1 [_ [_ [_ [_ [_ Hstep]]]]]].
      rewrite Hstep in Hrun. unfold bind in Hrun.
      destruct (multicall cfg chain fuel (fst (splitArray calls)) None m1)
        as [r1 m2 | |] eqn:Hrun1; try discriminate Hrun.
      destruct (multicall cfg chain fuel (snd (splitArray calls)) None m2)
        as [r2 m3 | |] eqn:Hrun2; try discriminate Hrun.
      inversion Hrun. subst.
      rewrite map_app, (IH _ _ _ _ Hrun1), (IH _ _ _ _ Hrun2), <- map_app.
      destruct (splitArray_spec calls) as [Happ _]. rewrite Happ.
      reflexivity.
  - destruct (multicall_success_returned cfg chain fuel calls None m m' g
                result He Hrun) as [_ [_ [f [tx [go [Hcb _]]]]]].
    discriminate Hcb.
Qed.

(** Reconciliation of a batch that failed as a whole raises before it
    changes anything. *)
Lemma handleMulticallResult_all_failed (calleds faileds : list CallWithMeta)
    (m : Machine) :
  map txHash faileds = map txHash calleds ->
  handleMulticallResult chain calleds faileds m =
    Thrown (JS.TypeError "Reduce of empty array with no initial value") m.
Proof.
  intros Hids. unfold handleMulticallResult.
  rewrite filter_all_failed.
  - reflexivity.
  - intros c Hc. rewrite Hids. apply in_map. exact Hc.
Qed.

Lemma flush_state (calldatas : list CallWithMeta) :
  preserves sameState (flush cfg chain calldatas).
Proof.
  intros m. unfold flush, bind.
  pose proof (multicall_state (depthFor calldatas) calldatas None m) as Hs.
  destruct (multicall cfg chain (depthFor calldatas) calldatas None m)
    as [faileds m1 | e m1 |] eqn:Hrun; [| exact Hs | exact I].
  rewrite (handleMulticallResult_all_failed calldatas faileds m1
             (multicall_null_returns _ _ _ _ _ Hrun)).
  exact Hs.
Qed.

(** X1. A flush never returns: it ends in an exception with the watermarks
    as they were, whatever the estimations answer. *)
Theorem flush_always_throws (calldatas : list CallWithMeta) (m : Machine) :
  calldatas <> [] ->
  exists e m',
    flush cfg chain calldatas m = Thrown e m' /\ state m' = state m.
Proof.
  intros Hne.
  pose proof (flush_terminates cfg chain calldatas Hne m) as Hend.
  pose proof (flush_state calldatas m) as Hs.
  unfold flush, bind in *.
  destruct (multicall cfg chain (depthFor calldatas) calldatas None m)
    as [faileds m1 | e m1 |] eqn:Hrun.
  - rewrite (handleMulticallResult_all_failed calldatas faileds m1
               (multicall_null_returns _ _ _ _ _ Hrun)) in *.
    eexists. eexists. split; [reflexivity | exact Hs].
  - eexists. eexists. split; [reflexivity | exact Hs].
  - congruence.
Qed.

(** X2. On the empty batch a failed estimation halves into two empty
    batches, without end: no depth of nested calls lets [multicall]
    return. *)
Theorem multicall_empty_never_returns (callback : option Callback)
    (e : JS.Error) :
  estimateGas_tryAggregate chain true [] = inl e ->
  forall (fuel : nat) (m : Machine),
    multicall cfg chain fuel [] callback m = OutOfFuel.
Proof.
  intros He fuel.
  induction fuel as [| fuel IH]; intros m; [reflexivity |].
  destruct (multicall_fail_split cfg chain fuel [] callback m e
              ltac:(discriminate) He) as [m1 [_ [_ [_ [_ [_ Hstep]]]]]].
  rewrite Hstep. unfold bind. cbn [splitArray fst].
  change (JS.slice 0 (JS.ceilHalf (List.length (@nil CallWithMeta))) [])
    with (@nil CallWithMeta).
  rewrite IH. reflexivity.
Qed.

Lemma scanTransactions_state (blockNumber : Z) (txs : list Transaction) :
  forall calldatas,
    preserves sameState
      (scanTransactions cfg chain blockNumber txs calldatas).
Proof.
  induction txs as [| t rest IH]; intros calldatas; cbn [scanTransactions].
  - apply preserves_ret.
  - preserve_with ltac:(first [apply IH | apply flush_state]) state_side.
Qed.

Lemma handleSingleBlock_state (height : Z) (calldatas : list CallWithMeta) :
  preserves sameState (handleSingleBlock cfg chain height calldatas).
Proof.
  unfold handleSingleBlock.
  preserve_with ltac:(apply scanTransactions_state) state_side.
Qed.

Lemma scanLoop_state (fuel : nat) :
  forall h calldatas,
    preserves sameState (scanLoop cfg chain fuel h calldatas).
Proof.
  induction fuel as [| fuel IH]; intros h calldatas; cbn [scanLoop].
  - apply preserves_stuck.
  - unfold endScanHeight.
    preserve_with ltac:(first [apply IH | apply handleSingleBlock_state])
      state_side.
Qed.

End Flush.

Section Progress.

Variable cfg : Config.
Variable chain : Chain.

(** What a scan leaves of the watermarks: those [observeHead] gives for the
    head it read, or the ones it started from when the head could not be
    read or had not moved. *)
Lemma handleMultipleBlock_state (fuel : nat) (m m' : Machine) :
  finalMachine (handleMultipleBlock cfg chain fuel m) = Some m' ->
  state m' = state m \/
  exists latest,
    getBlockNumber chain = inr latest /\
    latest <> highestKnownL2 (state m) /\
    state m' = observeHead cfg latest (state m).
Proof.
  unfold handleMultipleBlock.
  destruct (getBlockNumber chain) as [e | latest] eqn:Hlatest.
  - cbv [bind await emit modify throw]. cbn. intros H. inversion H.
    left. reflexivity.
  - erewrite bind_returned by reflexivity.
    erewrite bind_returned by reflexivity.
    cbn [state withEvent].
    destruct (Z.eqb_spec latest (highestKnownL2 (state m))) as [Heq | Hne].
    + cbn. intros H. inversion H. left. reflexivity.
    + intros Hfin. right. exists latest.
      split; [reflexivity |]. split; [exact Hne |].
      revert Hfin.
      match goal with
      | |- finalMachine ((_ ;; _ ;; ?k) ?m0) = _ -> _ =>
          destruct (head_observed cfg latest m0 k) as [m2 [Hs [_ [_ Hrun]]]];
          assert (Hk : preserves sameState k)
      end.
      { unfold startScanHeight.
        preserve_with
          ltac:(first [apply scanLoop_state | apply flush_state])
          state_side. }
      cbn [state withEvent] in Hs, Hrun.
      rewrite Hrun. specialize (Hk m2).
      intros Hfin.
      match type of Hk with
      | match ?o with _ => _ end => destruct o
      end; cbn in Hfin; inversion Hfin; subst;
        unfold sameState in Hk; rewrite Hk, Hs; reflexivity.
Qed.

Lemma observeHead_known (latest : Z) (s : MessageRelayerState) :
  highestKnownL2 (observeHead cfg latest s) = latest.
Proof. unfold observeHead. destruct (_ && _); reflexivity. Qed.

Lemma observeHead_lowers (latest : Z) (s : MessageRelayerState) :
  highestProvenL2 (observeHead cfg latest s) <= highestProvenL2 s /\
  highestFinalizedL2 (observeHead cfg latest s) <= highestFinalizedL2 s.
Proof.
  unfold observeHead.
  destruct (latest <? highestKnownL2 s); cbn [andb]; [| cbn; lia].
  destruct (Z.leb_spec (highestProvenL2 s) (latest - reorgSafetyDepth cfg));
    cbn; lia.
Qed.

Lemma observeHead_ordered (latest : Z) (s : MessageRelayerState) :
  0 <= reorgSafetyDepth cfg ->
  highestFinalizedL2 s <= highestProvenL2 s ->
  highestProvenL2 s <= highestKnownL2 s ->
  highestFinalizedL2 (observeHead cfg latest s)
    <= highestProvenL2 (observeHead cfg latest s) /\
  highestProvenL2 (observeHead cfg latest s)
    <= highestKnownL2 (observeHead cfg latest s).
Proof.
  intros HD Hfp Hpk. unfold observeHead.
  destruct (Z.ltb_spec latest (highestKnownL2 s)); cbn [andb].
  - destruct (Z.leb_spec (highestProvenL2 s) (latest - reorgSafetyDepth cfg));
      cbn; lia.
  - cbn. lia.
Qed.

(** X3. No scan moves the proven or the finalized height forward: whether
    [handleMultipleBlock] returns or raises, both are at most what they
    were. *)
Theorem scan_never_advances (fuel : nat) (m m' : Machine) :
  finalMachine (handleMultipleBlock cfg chain fuel m) = Some m' ->
  highestProvenL2 (state m') <= highestProvenL2 (state m) /\
  highestFinalizedL2 (state m') <= highestFinalizedL2 (state m).
Proof.
  intros Hfin.
  destruct (handleMultipleBlock_state fuel m m' Hfin)
    as [Hs | [latest [_ [_ Hs]]]]; rewrite Hs.
  - lia.
  - apply observeHead_lowers.
Qed.

(** X4. Whatever else a scan does, it leaves the known height equal to the
    head it read. *)
Theorem scan_records_head (fuel : nat) (m m' : Machine) (latest : Z) :
  getBlockNumber chain = inr latest ->
  finalMachine (handleMultipleBlock cfg chain fuel m) = Some m' ->
  highestKnownL2 (state m') = latest.
Proof.
  intros Hlatest Hfin.
  destruct (handleMultipleBlock_state fuel m m' Hfin)
    as [Hs | [latest' [Hl [_ Hs]]]].
  - rewrite Hs. revert Hfin. unfold handleMultipleBlock.
    erewrite bind_returned
      by (unfold await, bind, emit, modify, ret; rewrite Hlatest;
          reflexivity).
    erewrite bind_returned by reflexivity.
    cbn [state withEvent].
    destruct (Z.eqb_spec latest (highestKnownL2 (state m))) as [Heq | Hne];
      [intros _; symmetry; exact Heq |].
    match goal with
    | |- finalMachine ((_ ;; _ ;; ?k) ?m0) = _ -> _ =>
        destruct (head_observed cfg latest m0 k) as [m2 [Hs2 [_ [_ Hrun]]]];
        assert (Hk : preserves sameState k)
    end.
    { unfold startScanHeight.
      preserve_with
        ltac:(first [apply scanLoop_state | apply flush_state])
        state_side. }
    cbn [state withEvent] in Hs2, Hrun.
    rewrite Hrun. specialize (Hk m2). intros Hfin.
    match type of Hk with
    | match ?o with _ => _ end => destruct o
    end; cbn in Hfin; inversion Hfin; subst;
      unfold sameState in Hk; rewrite <- Hs, Hk, Hs2;
      apply observeHead_known.
  - rewrite Hs, observeHead_known. congruence.
Qed.

(** C4, amended.  [init] keeps [0 <= finalized <= proven] of the loaded
    record and keeps [proven <= known] when the configured start index is
    absent or at most the loaded known height; [handleL2Reorg] with a
    non-negative safety depth keeps [finalized <= proven], yields
    [proven <= known], and keeps the finalized height non-negative when the
    rewind does not exceed it; and with a non-negative safety depth every
    scan, returning or raising, keeps [finalized <= proven <= known]. *)
Theorem watermarks_at_rest :
  (forall m persisted,
      readFromFile chain = inr persisted ->
      atRest (loadedState persisted) ->
      match fromL2TransactionIndex cfg with
      | Some idx => idx <= highestKnownL2 (loadedState persisted)
      | None => True
      end ->
      exists m', init cfg chain m = Returned tt m' /\ atRest (state m'))
  /\
  (forall m L,
      0 <= reorgSafetyDepth cfg ->
      highestFinalizedL2 (state m) <= highestProvenL2 (state m) ->
      exists m',
        handleL2Reorg cfg L m = Returned tt m' /\
        highestFinalizedL2 (state m') <= highestProvenL2 (state m') /\
        highestProvenL2 (state m') <= highestKnownL2 (state m') /\
        (Z.max 0 (highestProvenL2 (state m) - (L - reorgSafetyDepth cfg))
           <= highestFinalizedL2 (state m) ->
         0 <= highestFinalizedL2 (state m')))
  /\
  (forall fuel m m',
      0 <= reorgSafetyDepth cfg ->
      highestFinalizedL2 (state m) <= highestProvenL2 (state m) ->
      highestProvenL2 (state m) <= highestKnownL2 (state m) ->
      finalMachine (handleMultipleBlock cfg chain fuel m) = Some m' ->
      highestFinalizedL2 (state m') <= highestProvenL2 (state m') /\
      highestProvenL2 (state m') <= highestKnownL2 (state m')).
Proof.
  split; [| split].
  - intros m persisted Hread [H0 [Hfp Hpk]] Hidx.
    eexists. split; [apply init_eq; exact Hread |].
    cbn [state]. cbv zeta.
    destruct (fromL2TransactionIndex cfg) as [idx |].
    + destruct (Z.ltb_spec (highestProvenL2 (loadedState persisted)) idx).
      * unfold atRest; cbn. lia.
      * unfold atRest. lia.
    + unfold atRest. lia.
  - intros m L HD Hfp.
    destruct (Z.le_gt_cases (highestProvenL2 (state m))
                (L - reorgSafetyDepth cfg)) as [Hle | Hgt].
    + eexists. split; [apply handleL2Reorg_keep_eq; exact Hle |].
      cbn. lia.
    + eexists. split; [apply handleL2Reorg_rewind_eq; exact Hgt |].
      cbn. lia.
  - intros fuel m m' HD Hfp Hpk Hfin.
    destruct (handleMultipleBlock_state fuel m m' Hfin)
      as [Hs | [latest [_ [_ Hs]]]]; rewrite Hs.
    + lia.
    + apply observeHead_ordered; assumption.
Qed.

End Progress.

Lemma flush_always_throws_witness :
  exists e m',
    flush (Scenario.cfg None) Scenario.singlesPass Scenario.threeCalls
      (Scenario.machine 20 3 3 0) = Thrown e m' /\
    state m' = mkState 20 3 3.
Proof.
  apply (flush_always_throws (Scenario.cfg None) Scenario.singlesPass
           Scenario.threeCalls (Scenario.machine 20 3 3 0)).
  discriminate.
Defined.

Lemma multicall_empty_never_returns_witness :
  multicall (Scenario.cfg None) Scenario.allFail 50 [] None
    (Scenario.machine 20 3 3 0) = OutOfFuel.
Proof.
  apply (multicall_empty_never_returns (Scenario.cfg None) Scenario.allFail
           None (JS.mkError "Error" "execution reverted") eq_refl).
Defined.

(** A scan over messages that are all ready to prove: the first flush
    raises and the proven height stays at 3. *)
Lemma scan_never_advances_witness :
  exists m',
    finalMachine
      (handleMultipleBlock (Scenario.cfg None) Scenario.singlesPass 20
         (Scenario.machine 5 3 3 0)) = Some m' /\
    highestProvenL2 (state m') <= 3 /\
    highestFinalizedL2 (state m') <= 3.
Proof.
  destruct (finalMachine
              (handleMultipleBlock (Scenario.cfg None) Scenario.singlesPass
                 20 (Scenario.machine 5 3 3 0))) as [m' |] eqn:E.
  - exists m'. split; [reflexivity |].
    exact (scan_never_advances (Scenario.cfg None) Scenario.singlesPass
             20 (Scenario.machine 5 3 3 0) m' E).
  - exfalso. revert E. vm_compute. discriminate.
Defined.

(** C4 fails for [init]: without a state file and with start index 5 the
    proven and finalized heights become 5 while the known height stays 0. *)
Lemma init_violates_atRest :
  exists m',
    init (Scenario.cfg (Some 5)) Scenario.noStateFile newProver
      = Returned tt m' /\
    state m' = mkState 0 5 5 /\
    ~ atRest (state m').
Proof.
  exists (mkMachine (mkState 0 5 5) true PrimFloat.nan [EvReadState]).
  split; [reflexivity |]. split; [reflexivity |].
  unfold atRest; cbn. lia.
Qed.

Lemma watermarks_at_rest_witness :
  (exists m',
      init (Scenario.cfg None) Scenario.noStateFile newProver
        = Returned tt m' /\ atRest (state m')) /\
  (exists m',
      handleL2Reorg (Scenario.cfg None) 90 (Scenario.machine 100 100 80 0)
        = Returned tt m' /\
      highestFinalizedL2 (state m') <= highestProvenL2 (state m') /\
      highestProvenL2 (state m') <= highestKnownL2 (state m') /\
      (Z.max 0 (100 - (90 - 5)) <= 80 -> 0 <= highestFinalizedL2 (state m'))).
Proof.
  split.
  - apply (proj1 (watermarks_at_rest (Scenario.cfg None) Scenario.noStateFile)
             newProver None).
    + reflexivity.
    + unfold atRest. simpl. lia.
    + exact I.
  - apply (proj1 (proj2 (watermarks_at_rest (Scenario.cfg None)
                             Scenario.noStateFile))
             (Scenario.machine 100 100 80 0) 90).
    + simpl. lia.
    + simpl. lia.
Defined.

Lemma scan_records_head_witness :
  exists m',
    finalMachine
      (handleMultipleBlock (Scenario.cfg None) Scenario.singlesPass 20
         (Scenario.machine 5 3 3 0)) = Some m' /\
    highestKnownL2 (state m') = 12.
Proof.
  destruct (finalMachine
              (handleMultipleBlock (Scenario.cfg None) Scenario.singlesPass
                 20 (Scenario.machine 5 3 3 0))) as [m' |] eqn:E.
  - exists m'. split; [reflexivity |].
    exact (scan_records_head (Scenario.cfg None) Scenario.singlesPass
             20 (Scenario.machine 5 3 3 0) m' 12 eq_refl E).
  - exfalso. revert E. vm_compute. discriminate.
Defined.

(** * More on the batcher *)

Lemma handedToCallback_app (a b : list Event) :
  handedToCallback (a ++ b) = handedToCallback a ++ handedToCallback b.
Proof.
  induction a as [| ev a IH]; [reflexivity |].
  destruct ev; cbn [app handedToCallback]; rewrite ?IH, ?app_assoc;
    reflexivity.
Qed.

Lemma estimationCount_app (a b : list Event) :
  estimationCount (a ++ b) = (estimationCount a + estimationCount b)%nat.
Proof.
  induction a as [| ev a IH]; [reflexivity |].
  destruct ev; cbn [app estimationCount]; rewrite ?IH; reflexivity.
Qed.

Lemma submissionCount_app (a b : list Event) :
  submissionCount (a ++ b) = (submissionCount a + submissionCount b)%nat.
Proof.
  induction a as [| ev a IH]; [reflexivity |].
  destruct ev; cbn [app submissionCount]; rewrite ?IH; reflexivity.
Qed.

Section BatcherLibrary.

Variable cfg : Config.
Variable chain : Chain.

(** X5. Whatever the estimations answer and whatever callback is passed, a
    [multicall] that returns has accounted for every call of the batch
    exactly once: each call was either handed to the callback, inside the
    batch of an aggregate transaction that was included, or comes back in
    the failed list, marked with the error of its own single-call
    estimation. *)
Theorem multicall_accounts_for_every_call (fuel : nat) :
  forall (calls result : list CallWithMeta) (callback : option Callback)
         (m m' : Machine),
    multicall cfg chain fuel calls callback m = Returned result m' ->
    exists failed handed,
      Forall2 (failedBy chain) failed result /\
      handedToCallback (trace m') = handedToCallback (trace m) ++ handed /\
      Permutation calls (failed ++ handed).
Proof.
  induction fuel as [| fuel IH]; intros calls result callback m m' Hrun;
    [discriminate Hrun |].
  destruct (estimateGas_tryAggregate chain true (convertToCalls calls))
    as [e | g] eqn:He.
  - destruct (Nat.eq_dec (List.length calls) 1) as [Hone | Hmany].
    + destruct calls as [| c1 [| c2 rest]]; try discriminate Hone.
      destruct (multicall_fail_single cfg chain fuel c1 callback m e He)
        as [m1 [Hrun1 [Htr _]]].
      rewrite Hrun1 in Hrun. inversion Hrun. subst.
      exists [c1], []. repeat split.
      * constructor; [| constructor]. exists e. cbn. auto 10.
      * rewrite Htr, handedToCallback_app. reflexivity.
      * reflexivity.
    + destruct (multicall_fail_split cfg chain fuel calls callback m e
                  Hmany He) as [m1 [Htr [_ [_ [_ [_ Hstep]]]]]].
      rewrite Hstep in Hrun. unfold bind in Hrun.
      destruct (multicall cfg chain fuel (fst (splitArray calls)) callback m1)
        as [r1 m2 | |] eqn:Hrun1; try discriminate Hrun.
      destruct (multicall cfg chain fuel (snd (splitArray calls)) callback m2)
        as [r2 m3 | |] eqn:Hrun2; try discriminate Hrun.
      inversion Hrun. subst.
      destruct (IH _ _ _ _ _ Hrun1) as [f1 [h1 [Hf1 [Ht1 Hp1]]]].
      destruct (IH _ _ _ _ _ Hrun2) as [f2 [h2 [Hf2 [Ht2 Hp2]]]].
      destruct (splitArray_spec calls) as [Happ _].
      exists (f1 ++ f2), (h1 ++ h2). repeat split.
      * apply Forall2_app; assumption.
      * rewrite Ht2, Ht1, Htr, handedToCallback_app. cbn.
        rewrite app_nil_r, app_assoc. reflexivity.
      * rewrite <- Happ.
        transitivity ((f1 ++ h1) ++ (f2 ++ h2)).
        -- apply Permutation_app; assumption.
        -- rewrite <- !app_assoc. apply Permutation_app_head.
           apply Permutation_app_swap_app.
  - destruct (multicall_success_returned cfg chain fuel calls callback m m'
                g result He Hrun) as [Hres [_ [f [tx [go [_ Htr]]]]]].
    subst result. exists [], calls. repeat split.
    + constructor.
    + rewrite Htr, handedToCallback_app. cbn. rewrite app_nil_r.
      reflexivity.
    + reflexivity.
Qed.

(** The effort of a run that ends, for any outcome. *)
Lemma multicall_effort (fuel : nat) :
  forall (calls : list CallWithMeta) (callback : option Callback)
         (m m' : Machine),
    calls <> [] ->
    finalMachine (multicall cfg chain fuel calls callback m) = Some m' ->
    (estimationCount (trace m') + 1
       <= estimationCount (trace m) + 2 * List.length calls)%nat /\
    (estimationCount (trace m) < estimationCount (trace m'))%nat /\
    (submissionCount (trace m')
       <= submissionCount (trace m) + List.length calls)%nat.
Proof.
  induction fuel as [| fuel IH]; intros calls callback m m' Hne Hfin;
    [discriminate Hfin |].
  destruct (estimateGas_tryAggregate chain true (convertToCalls calls))
    as [e | g] eqn:He.
  - destruct (Nat.eq_dec (List.length calls) 1) as [Hone | Hmany].
    + destruct calls as [| c1 [| c2 rest]]; try discriminate Hone.
      destruct (multicall_fail_single cfg chain fuel c1 callback m e He)
        as [m1 [Hrun1 [Htr _]]].
      rewrite Hrun1 in Hfin. cbn in Hfin. inversion Hfin. subst.
      rewrite Htr, estimationCount_app, submissionCount_app. cbn. lia.
    + assert (Hlen2 : (2 <= List.length calls)%nat).
      { destruct calls as [| c1 [| c2 rest]]; cbn in *; try congruence; lia. }
      destruct (multicall_fail_split cfg chain fuel calls callback m e
                  Hmany He) as [m1 [Htr [_ [_ [_ [_ Hstep]]]]]].
      rewrite Hstep in Hfin. unfold bind in Hfin.
      destruct (splitArray_shorter calls Hlen2) as [Hfst Hsnd].
      destruct (splitArray_spec calls) as [_ [_ Hsum]].
      assert (Hne1 : fst (splitArray calls) <> []).
      { destruct (fst (splitArray calls)); [cbn in Hfst; lia | discriminate]. }
      assert (Hne2 : snd (splitArray calls) <> []).
      { destruct (snd (splitArray calls)); [cbn in Hsnd; lia | discriminate]. }
      assert (H1 : estimationCount (trace m1)
                   = (estimationCount (trace m) + 1)%nat /\
                   submissionCount (trace m1) = submissionCount (trace m)).
      { rewrite Htr, estimationCount_app, submissionCount_app. cbn. lia. }
      destruct (multicall cfg chain fuel (fst (splitArray calls)) callback m1)
        as [r1 m2 | e1 m2 |] eqn:Hrun1; try discriminate Hfin.
      * pose proof (IH (fst (splitArray calls)) callback m1 m2 Hne1) as IH1.
        rewrite Hrun1 in IH1. specialize (IH1 eq_refl).
        destruct (multicall cfg chain fuel (snd (splitArray calls)) callback
                    m2) as [r2 m3 | e2 m3 |] eqn:Hrun2;
          try discriminate Hfin;
          pose proof (IH (snd (splitArray calls)) callback m2 m3 Hne2) as IH2;
          rewrite Hrun2 in IH2; specialize (IH2 eq_refl);
          cbn in Hfin; inversion Hfin; subst; lia.
      * pose proof (IH (fst (splitArray calls)) callback m1 m2 Hne1) as IH1.
        rewrite Hrun1 in IH1. specialize (IH1 eq_refl).
        cbn in Hfin. inversion Hfin. subst. lia.
  - rewrite (multicall_success_step cfg chain fuel calls callback m g He)
      in Hfin.
    assert (Hlen : (1 <= List.length calls)%nat).
    { destruct calls; [congruence | cbn; lia]. }
    cbv [bind lift await emit modify invokeCallback ret throw] in Hfin.
    destruct (JS.toNumber g) as [e | gas].
    { cbn in Hfin. inversion Hfin. subst. cbn [trace withEvent].
      rewrite estimationCount_app, submissionCount_app. cbn. lia. }
    destruct (tryAggregate chain true (convertToCalls calls) _) as [e | tx].
    { cbn in Hfin. inversion Hfin. subst. cbn [trace withEvent].
      rewrite !estimationCount_app, !submissionCount_app. cbn. lia. }
    destruct (wait chain tx) as [e | []].
    { cbn in Hfin. inversion Hfin. subst. cbn [trace withEvent].
      rewrite !estimationCount_app, !submissionCount_app. cbn. lia. }
    destruct callback as [f |].
    + destruct (f tx calls) as [e | []];
        cbn in Hfin; inversion Hfin; subst; cbn [trace withEvent];
        rewrite !estimationCount_app, !submissionCount_app; cbn; lia.
    + cbn in Hfin. inversion Hfin. subst. cbn [trace withEvent].
      rewrite !estimationCount_app, !submissionCount_app. cbn. lia.
Qed.

(** X6. On a batch of [N >= 1] calls [multicall], however it ends, makes at
    least one and at most [2 N - 1] gas estimations and submits at most [N]
    aggregate transactions. *)
Theorem multicall_bounded_effort
    (calls : list CallWithMeta) (callback : option Callback)
    (m m' : Machine) (fuel : nat) :
  calls <> [] ->
  finalMachine (multicall cfg chain fuel calls callback m) = Some m' ->
  (estimationCount (trace m) + 1 <= estimationCount (trace m')
     <= estimationCount (trace m) + (2 * List.length calls - 1))%nat /\
  (submissionCount (trace m')
     <= submissionCount (trace m) + List.length calls)%nat.
Proof.
  intros Hne Hfin.
  destruct (multicall_effort fuel calls callback m m' Hne Hfin)
    as [H1 [H2 H3]].
  assert (1 <= List.length calls)%nat
    by (destruct calls; [congruence | cbn; lia]).
  lia.
Qed.

End BatcherLibrary.

Section BatcherDepth.

Variable cfg : Config.
Variable chain : Chain.

(** One level of [multicall] after a failed estimation. *)
Lemma multicall_fail_step (fuel : nat) (calls : list CallWithMeta)
    (callback : option Callback) (m : Machine) (e : JS.Error) :
  estimateGas_tryAggregate chain true (convertToCalls calls) = inl e ->
  multicall cfg chain (S fuel) calls callback m =
    ((if exceedsAllowance e
      then modify (fun m => withSingleCallGas m 0%float)
      else ret tt) ;;
     match calls with
     | [c] => ret [setErr c e]
     | _ =>
         results <- multicall cfg chain fuel (fst (splitArray calls))
                      callback ;;
         rest <- multicall cfg chain fuel (snd (splitArray calls))
                   callback ;;
         ret (results ++ rest)
     end)
      (withEvent m (EvEstimateAggregate (convertToCalls calls))).
Proof.
  intros He. cbn [multicall]. unfold requireSuccess.
  unfold bind at 1. unfold emit at 1. unfold modify at 1.
  rewrite He. destruct calls as [| c1 [| c2 rest]]; reflexivity.
Qed.

(** Two computations that agree wherever the first ends still agree after
    a bind. *)
Lemma bind_stable {A B : Type} (c c' : M A) (k k' : A -> M B) :
  (forall m, c m <> OutOfFuel -> c' m = c m) ->
  (forall a m, k a m <> OutOfFuel -> k' a m = k a m) ->
  forall m, bind c k m <> OutOfFuel -> bind c' k' m = bind c k m.
Proof.
  intros Hc Hk m Hend. unfold bind in *.
  destruct (c m) as [a m1 | e m1 |] eqn:E; [| | congruence].
  - rewrite (Hc m) by (rewrite E; discriminate). rewrite E.
    apply Hk. exact Hend.
  - rewrite (Hc m) by (rewrite E; discriminate). rewrite E. reflexivity.
Qed.

(** A budget that lets a run end gives what every larger budget gives. *)
Lemma multicall_fuel_stable (fuel : nat) :
  forall (calls : list CallWithMeta) (callback : option Callback)
         (m : Machine),
    multicall cfg chain fuel calls callback m <> OutOfFuel ->
    forall fuel', (fuel <= fuel')%nat ->
      multicall cfg chain fuel' calls callback m
      = multicall cfg chain fuel calls callback m.
Proof.
  induction fuel as [| fuel IH]; intros calls callback m Hend fuel' Hle;
    [cbn in Hend; congruence |].
  destruct fuel' as [| fuel']; [lia |].
  assert (Hle' : (fuel <= fuel')%nat) by lia.
  destruct (estimateGas_tryAggregate chain true (convertToCalls calls))
    as [e | g] eqn:He.
  - rewrite (multicall_fail_step fuel calls callback m e He) in *.
    rewrite (multicall_fail_step fuel' calls callback m e He).
    revert Hend. apply bind_stable; [reflexivity |].
    intros _ m1.
    destruct calls as [| c1 [| c2 rest]]; try reflexivity;
      (apply bind_stable;
       [ intros m2 H2; apply IH; [exact H2 | exact Hle']
       | intros r1; apply bind_stable;
         [ intros m2 H2; apply IH; [exact H2 | exact Hle']
         | reflexivity ] ]).
  - rewrite (multicall_success_step cfg chain fuel calls callback m g He).
    rewrite (multicall_success_step cfg chain fuel' calls callback m g He).
    reflexivity.
Qed.

(** A batch of at most [2 ^ fuel] calls is settled within [fuel + 1] nested
    calls. *)
Lemma multicall_terminates_log (fuel : nat) :
  forall (calls : list CallWithMeta) (callback : option Callback),
    calls <> [] ->
    (List.length calls <= 2 ^ fuel)%nat ->
    terminates (multicall cfg chain (S fuel) calls callback).
Proof.
  induction fuel as [| fuel IH]; intros calls callback Hne Hlen m.
  - apply (multicall_terminates cfg chain 1 calls callback Hne).
    cbn in Hlen. exact Hlen.
  - destruct (Nat.le_gt_cases (List.length calls) 1) as [Hone | Hmany].
    + apply (multicall_terminates cfg chain (S (S fuel)) calls callback Hne).
      lia.
    + destruct (estimateGas_tryAggregate chain true (convertToCalls calls))
        as [e | g] eqn:He.
      * destruct (multicall_fail_split cfg chain (S fuel) calls callback m e
                    ltac:(lia) He) as [m1 [_ [_ [_ [_ [_ Hrun]]]]]].
        rewrite Hrun.
        destruct (splitArray_shorter calls ltac:(lia)) as [Hfst Hsnd].
        destruct (splitArray_spec calls) as [_ [Hceil Hsum]].
        pose proof (div2_S_bounds (List.length calls)) as Hb.
        assert (Hpow : (2 ^ S fuel = 2 * 2 ^ fuel)%nat) by (cbn; lia).
        apply terminates_bind.
        -- apply IH; [| lia].
           destruct (fst (splitArray calls)); [cbn in Hfst; lia | discriminate].
        -- intros results. apply terminates_bind.
           ++ apply IH; [| lia].
              destruct (snd (splitArray calls));
                [cbn in Hsnd; lia | discriminate].
           ++ intros rest'. apply terminates_ret.
      * rewrite (multicall_success_step cfg chain (S fuel) calls callback m
                   g He).
        match goal with
        | |- ?c ?m0 <> OutOfFuel =>
            cut (terminates c); [intros Hend; apply Hend |]
        end.
        unfold invokeCallback. terminate_with fail.
Qed.

(** X7. [multicall] on a batch of [N >= 1] calls nests at most
    [ceil (log2 N) + 1] deep: a budget of [fuel + 1] nested calls with
    [N <= 2 ^ fuel] is never used up, and any larger budget gives the same
    outcome. *)
Theorem multicall_depth_logarithmic
    (calls : list CallWithMeta) (callback : option Callback) (m : Machine)
    (fuel : nat) :
  calls <> [] ->
  (List.length calls <= 2 ^ fuel)%nat ->
  multicall cfg chain (S fuel) calls callback m <> OutOfFuel /\
  forall fuel', (S fuel <= fuel')%nat ->
    multicall cfg chain fuel' calls callback m
    = multicall cfg chain (S fuel) calls callback m.
Proof.
  intros Hne Hlen.
  pose proof (multicall_terminates_log fuel calls callback Hne Hlen m)
    as Hend.
  split; [exact Hend |].
  intros fuel' Hle. apply multicall_fuel_stable; assumption.
Qed.

End BatcherDepth.

(** * More on the scanner *)


Section ScannerAccumulates.

Variable cfg : Config.
Variable chain : Chain.

(** A flush has no way to return. *)
Lemma flush_not_returned (calldatas : list CallWithMeta) (m m' : Machine)
    (u : unit) :
  flush cfg chain calldatas m <> Returned u m'.
Proof.
  unfold flush, bind.
  destruct (multicall cfg chain (depthFor calldatas) calldatas None m)
    as [faileds m1 | e m1 |] eqn:Hrun; try discriminate.
  rewrite (handleMulticallResult_all_failed chain calldatas faileds m1
             (multicall_null_returns cfg chain _ _ _ _ _ Hrun)).
  discriminate.
Qed.

Lemma scanTransactions_returned (blockNumber : Z) (txs : list Transaction) :
  forall (calldatas calldatas' : list CallWithMeta) (m m' : Machine),
    scanTransactions cfg chain blockNumber txs calldatas m
      = Returned calldatas' m' ->
    calldatas' = calldatas ++ readyCallsOf chain blockNumber txs.
Proof.
  induction txs as [| t rest IH]; intros calldatas calldatas' m m' H.
  - cbn in H. inversion H. cbn. rewrite app_nil_r. reflexivity.
  - cbn [scanTransactions] in H.
    cbv [bind await emit modify ret throw get lift] in H.
    unfold readyCallsOf. cbn [flat_map].
    fold (readyCallsOf chain blockNumber rest).
    destruct (toCrossChainMessage chain (hash t)) as [e | msg];
      [discriminate H |].
    destruct (getMessageStatus chain msg) as [e | status];
      [discriminate H |].
    destruct status; cbn [negb isReadyToProve] in H;
      try (apply IH in H; exact H).
    cbv beta in H.
    destruct (PrimFloat.eqb _ _).
    + destruct (estimateGas_proveMessage chain (hash t)) as [e | gas];
        [discriminate H |].
      destruct (JS.toNumber gas) as [e | g]; [discriminate H |].
      destruct (populateTransaction_proveMessage chain (hash t))
        as [e | data]; [discriminate H |].
      destruct (isOvertargetGas cfg _ _); cbn [negb] in H.
      * destruct (flush cfg chain _ _) as [[] m1 | e m1 |] eqn:Hfl;
          try discriminate H.
        exfalso. exact (flush_not_returned _ _ _ _ Hfl).
      * apply IH in H. rewrite H, <- app_assoc. reflexivity.
    + destruct (populateTransaction_proveMessage chain (hash t))
        as [e | data]; [discriminate H |].
      destruct (isOvertargetGas cfg _ _); cbn [negb] in H.
      * destruct (flush cfg chain _ _) as [[] m1 | e m1 |] eqn:Hfl;
          try discriminate H.
        exfalso. exact (flush_not_returned _ _ _ _ Hfl).
      * apply IH in H. rewrite H, <- app_assoc. reflexivity.
Qed.

(** What a block has added when [handleSingleBlock] returns. *)
Lemma handleSingleBlock_returned
    (height : Z) (calldatas calldatas' : list CallWithMeta) (m m' : Machine) :
  handleSingleBlock cfg chain height calldatas m = Returned calldatas' m' ->
  calldatas' = calldatas ++ readyAt chain height.
Proof.
  unfold handleSingleBlock, readyAt.
  cbv [bind await emit modify ret throw]. intros H.
  destruct (getBlockWithTransactions chain height) as [e | [b |]];
    [discriminate H | |].
  - destruct (transactions b) as [| t rest] eqn:Htx.
    + inversion H. cbn. rewrite app_nil_r. reflexivity.
    + apply scanTransactions_returned in H. exact H.
  - inversion H. rewrite app_nil_r. reflexivity.
Qed.


(** What the loop of a scan has gathered when it returns. *)
Lemma scanLoop_returned (fuel : nat) :
  forall (h : Z) (calldatas calldatas' : list CallWithMeta) (m m' : Machine),
    scanLoop cfg chain fuel h calldatas m = Returned calldatas' m' ->
    calldatas' =
      calldatas ++
      flat_map (readyAt chain)
        (heightsFrom h
           (Z.to_nat (highestKnownL2 (state m) - l2blockConfirmations cfg
                      - h + 1))).
Proof.
  induction fuel as [| fuel IH]; intros h calldatas calldatas' m m' H;
    [discriminate H |].
  cbn [scanLoop] in H. unfold endScanHeight in H.
  cbv [bind get ret] in H.
  set (stop := highestKnownL2 (state m) - l2blockConfirmations cfg) in *.
  destruct (Z.leb_spec h stop) as [Hle | Hgt].
  - assert (Hcount : Z.to_nat (stop - h + 1)
                     = S (Z.to_nat (stop - (h + 1) + 1))) by lia.
    rewrite Hcount. cbn [heightsFrom flat_map].
    pose proof (handleSingleBlock_fetch cfg chain h calldatas m) as Hblock.
    destruct (handleSingleBlock cfg chain h calldatas m)
      as [cds1 m1 | e m1 |] eqn:Hrun; try discriminate H.
    destruct Hblock as [_ [Hk _]].
    apply handleSingleBlock_returned in Hrun.
    apply IH in H. rewrite Hk in H. fold stop in H.
    rewrite H, Hrun, <- app_assoc. reflexivity.
  - assert (Hcount : Z.to_nat (stop - h + 1) = 0%nat) by lia.
    rewrite Hcount. inversion H. cbn. rewrite app_nil_r. reflexivity.
Qed.


End ScannerAccumulates.

(** ** The scan window, exactly *)

Section ScanWindowExact.

Variable cfg : Config.
Variable chain : Chain.

(** A loop that raises does so inside [handleSingleBlock], at the last
    height it fetched: every height before it was fetched and handled, and
    the accumulator holds what those blocks gave. *)
Lemma scanLoop_thrown (fuel : nat) :
  forall (h : Z) (calldatas : list CallWithMeta) (m m' : Machine)
         (e : JS.Error),
    scanLoop cfg chain fuel h calldatas m = Thrown e m' ->
    exists (k : nat) (m_k : Machine),
      h + Z.of_nat k
        <= highestKnownL2 (state m) - l2blockConfirmations cfg /\
      fetchedHeights (trace m') =
        fetchedHeights (trace m) ++ heightsFrom h (S k) /\
      fetchedHeights (trace m_k) =
        fetchedHeights (trace m) ++ heightsFrom h k /\
      state m_k = state m /\
      initalIteration m' = initalIteration m /\
      handleSingleBlock cfg chain (h + Z.of_nat k)
        (calldatas ++ flat_map (readyAt chain) (heightsFrom h k)) m_k
        = Thrown e m'.
Proof.
  induction fuel as [| fuel IH]; intros h calldatas m m' e H;
    [discriminate H |].
  cbn [scanLoop] in H. unfold endScanHeight in H. cbv [bind get ret] in H.
  destruct (Z.leb_spec h
              (highestKnownL2 (state m) - l2blockConfirmations cfg))
    as [Hle | Hgt]; [| discriminate H].
  pose proof (handleSingleBlock_fetch cfg chain h calldatas m) as Hfetch.
  pose proof (handleSingleBlock_state cfg chain h calldatas m) as Hstate.
  destruct (handleSingleBlock cfg chain h calldatas m)
    as [cds1 m1 | e1 m1 |] eqn:Hrun; [| | discriminate H].
  - destruct Hfetch as [Hf [_ Hi]]. unfold sameState in Hstate.
    apply handleSingleBlock_returned in Hrun.
    destruct (IH _ _ _ _ _ H) as [k [m_k [Hb [Hf' [Hfk [Hs [Hi' Hblock]]]]]]].
    exists (S k), m_k. rewrite Hstate in Hb.
    split; [lia |].
    split; [rewrite Hf', Hf, <- app_assoc; reflexivity |].
    split; [rewrite Hfk, Hf, <- app_assoc; reflexivity |].
    split; [congruence |]. split; [congruence |].
    replace (h + Z.of_nat (S k)) with (h + 1 + Z.of_nat k) by lia.
    cbn [heightsFrom flat_map]. rewrite app_assoc, <- Hrun. exact Hblock.
  - destruct Hfetch as [Hf [_ Hi]]. inversion H. subst e1 m1.
    exists O, m. cbn [heightsFrom flat_map Z.of_nat].
    rewrite !app_nil_r, Z.add_0_r.
    split; [lia |]. split; [exact Hf |]. split; [reflexivity |].
    split; [reflexivity |]. split; [exact Hi | exact Hrun].
Qed.

(** C7. [startScanHeight] answers [highestFinalizedL2] while the
    first-iteration flag is up (as it is on a new prover, through [init])
    and lowers it, and [highestProvenL2 + 1] once it is down, which it then
    stays; [endScanHeight] answers
    [highestKnownL2 - l2blockConfirmations]; and the loop of a scan fetches
    exactly the heights from the start height to the end height in
    increasing order whenever it runs to its end, whether
    [handleMultipleBlock] then returns or the flush that follows the loop
    raises.  The one way to fetch fewer is an exception raised by
    [handleSingleBlock] itself: the heights fetched are then exactly those
    from the start height to the height whose block was being handled, and
    the exception of the scan is the one that block raised. *)
Theorem scan_window :
  (forall m,
      init cfg chain newProver = Returned tt m ->
      exists m',
        startScanHeight m =
          Returned (highestFinalizedL2 (state m)) m' /\
        initalIteration m' = false)
  /\
  (forall m,
      initalIteration m = true ->
      startScanHeight m =
        Returned (highestFinalizedL2 (state m))
          (withInitalIteration m false))
  /\
  (forall m,
      initalIteration m = false ->
      startScanHeight m = Returned (highestProvenL2 (state m) + 1) m)
  /\
  (forall m,
      endScanHeight cfg m =
        Returned (highestKnownL2 (state m) - l2blockConfirmations cfg) m)
  /\
  (forall fuel m latest,
      getBlockNumber chain = inr latest ->
      latest <> highestKnownL2 (state m) ->
      let s := observeHead cfg latest (state m) in
      let start :=
        if initalIteration m
        then highestFinalizedL2 s
        else highestProvenL2 s + 1 in
      let stop := latest - l2blockConfirmations cfg in
      let count := Z.to_nat (stop - start + 1) in
      (count < fuel)%nat ->
      match handleMultipleBlock cfg chain fuel m with
      | Returned _ m' =>
          fetchedHeights (trace m') =
            fetchedHeights (trace m) ++ heightsFrom start count /\
          initalIteration m' = false
      | Thrown e m' =>
          ((exists cds m4,
               cds = flat_map (readyAt chain) (heightsFrom start count) /\
               cds <> [] /\
               flush cfg chain cds m4 = Thrown e m' /\
               fetchedHeights (trace m') =
                 fetchedHeights (trace m) ++ heightsFrom start count)
           \/
           (exists k m_k,
               start + Z.of_nat k <= stop /\
               fetchedHeights (trace m') =
                 fetchedHeights (trace m) ++ heightsFrom start (S k) /\
               fetchedHeights (trace m_k) =
                 fetchedHeights (trace m) ++ heightsFrom start k /\
               state m_k = s /\
               handleSingleBlock cfg chain (start + Z.of_nat k)
                 (flat_map (readyAt chain) (heightsFrom start k)) m_k
                 = Thrown e m')) /\
          initalIteration m' = false
      | OutOfFuel => False
      end).
Proof.
  split.
  { intros m Hinit.
    destruct (readFromFile chain) as [e | persisted] eqn:Hread.
    - unfold init, readStateFromFile in Hinit.
      cbv [bind await emit modify throw] in Hinit.
      rewrite Hread in Hinit. discriminate Hinit.
    - rewrite (init_eq cfg chain newProver persisted Hread) in Hinit.
      inversion Hinit. subst m. eexists. split.
      + apply startScanHeight_first. reflexivity.
      + reflexivity. }
  split; [exact startScanHeight_first |].
  split; [exact startScanHeight_next |].
  split; [reflexivity |].
  intros fuel m latest Hlatest Hne s start stop count Hfuel.
  unfold handleMultipleBlock.
  erewrite bind_returned
    by (unfold await, bind, emit, modify, ret; rewrite Hlatest; reflexivity).
  erewrite bind_returned by reflexivity.
  cbn [state withEvent].
  destruct (Z.eqb_spec latest (highestKnownL2 (state m))) as [Heq | _];
    [contradiction |].
  match goal with
  | |- match (_ ;; _ ;; ?k) ?m0 with _ => _ end =>
      destruct (head_observed cfg latest m0 k) as [m2 [Hs [Hf [Hi Hrun]]]]
  end.
  cbn [state trace initalIteration withEvent] in Hs, Hf, Hi, Hrun.
  rewrite Hrun. clear Hrun.
  rewrite fetchedHeights_app in Hf. cbn in Hf. rewrite app_nil_r in Hf.
  fold s in Hs.
  assert (Hstart : exists m3,
    startScanHeight m2 = Returned start m3 /\
    state m3 = s /\
    fetchedHeights (trace m3) = fetchedHeights (trace m) /\
    initalIteration m3 = false).
  { unfold start. destruct (initalIteration m) eqn:Hflag.
    - exists (withInitalIteration m2 false).
      rewrite startScanHeight_first by congruence.
      rewrite Hs. cbn [state trace initalIteration withInitalIteration].
      auto.
    - exists m2. rewrite startScanHeight_next by congruence.
      rewrite Hs. split; [reflexivity |].
      split; [reflexivity |]. split; congruence. }
  destruct Hstart as [m3 [Hrun3 [Hs3 [Hf3 Hi3]]]].
  erewrite bind_returned by exact Hrun3.
  pose proof (scanLoop_visits cfg chain fuel start [] m3) as Hloop.
  cbv zeta in Hloop. rewrite Hs3 in Hloop.
  assert (Hk : highestKnownL2 s = latest).
  { unfold s, observeHead. destruct (_ && _); reflexivity. }
  rewrite Hk in Hloop. fold stop in Hloop. fold count in Hloop.
  specialize (Hloop Hfuel).
  unfold bind at 1.
  destruct (scanLoop cfg chain fuel start [] m3) as [cds m4 | e m4 |]
    eqn:Hscan; [| | contradiction].
  - destruct Hloop as [Hf4 [_ Hi4]].
    apply scanLoop_returned in Hscan. cbn [app] in Hscan.
    rewrite Hs3, Hk in Hscan. fold stop in Hscan. fold count in Hscan.
    pose proof (final_flush_scan cfg chain cds m4) as Hfl.
    destruct cds as [| c cds'] eqn:Hcds.
    + cbn in Hfl |- *. destruct Hfl as [Hf5 [_ Hi5]].
      split; congruence.
    + cbn [List.length Nat.ltb Nat.leb] in Hfl |- *.
      destruct (flush cfg chain (c :: cds') m4) as [r m5 | e m5 |] eqn:Hflush;
        [| | contradiction]; destruct Hfl as [Hf5 [_ Hi5]].
      * split; congruence.
      * split; [| congruence]. left.
        exists (c :: cds'), m4.
        split; [exact Hscan |]. split; [discriminate |].
        split; [exact Hflush | congruence].
  - destruct Hloop as [_ [_ Hi4]].
    destruct (scanLoop_thrown fuel start [] m3 m4 e Hscan)
      as [k [m_k [Hb [Hf4 [Hfk [Hsk [_ Hblock]]]]]]].
    rewrite Hs3, Hk in Hb. fold stop in Hb. cbn [app] in Hblock.
    split; [| congruence]. right.
    exists k, m_k.
    split; [exact Hb |]. split; [congruence |]. split; [congruence |].
    split; [congruence | exact Hblock].
Qed.

End ScanWindowExact.

(** A first scan with nothing to prove: known height 5, head 12, two
    confirmations, finalized height 3; blocks 3 to 10 are fetched. *)
Lemma scan_window_witness :
  exists m',
    handleMultipleBlock (Scenario.cfg None) Scenario.nothingToProve 20
      (Scenario.machine 5 3 3 0) = Returned tt m' /\
    fetchedHeights (trace m') = [3; 4; 5; 6; 7; 8; 9; 10] /\
    initalIteration m' = false.
Proof.
  pose proof (proj2 (proj2 (proj2 (proj2
    (scan_window (Scenario.cfg None) Scenario.nothingToProve))))
    20%nat (Scenario.machine 5 3 3 0) 12 eq_refl) as H.
  cbv zeta in H.
  destruct (handleMultipleBlock (Scenario.cfg None) Scenario.nothingToProve
              20 (Scenario.machine 5 3 3 0)) as [[] m' | e m' |] eqn:E.
  - exists m'. split; [reflexivity |]. apply H.
    + simpl. lia.
    + vm_compute. lia.
  - exfalso. revert E. vm_compute. discriminate.
  - exfalso. revert E. vm_compute. discriminate.
Defined.

(** A first scan over messages that are all ready to prove and all fail
    estimation: the loop runs to its end, blocks 3 to 10 are fetched, and
    the flush that follows raises. *)
Example scan_completes_then_flush_throws :
  match handleMultipleBlock (Scenario.cfg None) Scenario.allFail 20
          (Scenario.machine 5 3 3 0) with
  | Thrown e m' =>
      e = JS.TypeError "Reduce of empty array with no initial value" /\
      fetchedHeights (trace m') = [3; 4; 5; 6; 7; 8; 9; 10]
  | _ => False
  end.
Proof. vm_compute. split; reflexivity. Qed.

(** One call of three is rejected by every batch that holds it: the other
    two reach the callback, the rejected one comes back failed. *)
Lemma multicall_accounts_for_every_call_witness :
  exists result m' failed handed,
    multicall (Scenario.cfg None) Fixture.oneBad 3 Scenario.threeCalls
      (Some Fixture.quiet) (Scenario.machine 20 3 3 0) = Returned result m' /\
    Forall2 (failedBy Fixture.oneBad) failed result /\
    handedToCallback (trace m') =
      handedToCallback (trace (Scenario.machine 20 3 3 0)) ++ handed /\
    Permutation Scenario.threeCalls (failed ++ handed).
Proof.
  destruct (multicall (Scenario.cfg None) Fixture.oneBad 3 Scenario.threeCalls
              (Some Fixture.quiet) (Scenario.machine 20 3 3 0))
    as [result m' | e m' |] eqn:E.
  - destruct (multicall_accounts_for_every_call (Scenario.cfg None)
                Fixture.oneBad 3 Scenario.threeCalls result
                (Some Fixture.quiet) (Scenario.machine 20 3 3 0) m' E)
      as [failed [handed H]].
    exists result, m', failed, handed. split; [reflexivity | exact H].
  - exfalso. revert E. vm_compute. discriminate.
  - exfalso. revert E. vm_compute. discriminate.
Defined.

(** Three calls that all fail: five estimations, no submission. *)
Lemma multicall_bounded_effort_witness :
  exists m',
    finalMachine
      (multicall (Scenario.cfg None) Scenario.allFail 3 Scenario.threeCalls
         None (Scenario.machine 20 3 3 0)) = Some m' /\
    (0 + 1 <= estimationCount (trace m') <= 0 + (2 * 3 - 1))%nat /\
    (submissionCount (trace m') <= 0 + 3)%nat.
Proof.
  destruct (finalMachine
              (multicall (Scenario.cfg None) Scenario.allFail 3
                 Scenario.threeCalls None (Scenario.machine 20 3 3 0)))
    as [m' |] eqn:E.
  - exists m'. split; [reflexivity |].
    apply (multicall_bounded_effort (Scenario.cfg None) Scenario.allFail
             Scenario.threeCalls None (Scenario.machine 20 3 3 0) m' 3).
    + discriminate.
    + exact E.
  - exfalso. revert E. vm_compute. discriminate.
Defined.

Lemma multicall_depth_logarithmic_witness :
  multicall (Scenario.cfg None) Scenario.singlesPass 3 Scenario.threeCalls
    None (Scenario.machine 20 3 3 0) <> OutOfFuel /\
  forall fuel', (3 <= fuel')%nat ->
    multicall (Scenario.cfg None) Scenario.singlesPass fuel'
      Scenario.threeCalls None (Scenario.machine 20 3 3 0)
    = multicall (Scenario.cfg None) Scenario.singlesPass 3
        Scenario.threeCalls None (Scenario.machine 20 3 3 0).
Proof.
  apply (multicall_depth_logarithmic (Scenario.cfg None) Scenario.singlesPass
           Scenario.threeCalls None (Scenario.machine 20 3 3 0) 2).
  - discriminate.
  - vm_compute. lia.
Defined.



(** * The calibration value before its first assignment *)

Lemma gasEstimates_app (a b : list Event) :
  gasEstimates (a ++ b) = (gasEstimates a + gasEstimates b)%nat.
Proof.
  induction a as [| ev a IH]; [reflexivity |].
  destruct ev; cbn [app gasEstimates]; rewrite ?IH; reflexivity.
Qed.

Lemma nan_mul (x : float) : (PrimFloat.nan * x)%float = PrimFloat.nan.
Proof.
  apply Prim2SF_inj. rewrite mul_spec. reflexivity.
Qed.

Lemma ltb_nan (x : float) : (x <? PrimFloat.nan)%float = false.
Proof.
  rewrite ltb_spec. destruct (Prim2SF x) as [s | s | | s mant e]; reflexivity.
Qed.

Lemma nan_not_zero : (PrimFloat.nan =? 0)%float = false.
Proof. reflexivity. Qed.

Section Unassigned.

Variable cfg : Config.
Variable chain : Chain.

Lemma isOvertargetGas_unassigned (m : Machine) (size : float) :
  singleCallGas m = PrimFloat.nan ->
  isOvertargetGas cfg m size = false.
Proof.
  intros Hnan. unfold isOvertargetGas, computeExpectedMulticallGas.
  rewrite Hnan, !nan_mul. apply ltb_nan.
Qed.

Lemma uncalibrated_event (m m' : Machine) (ev : Event) :
  gasEstimates [ev] = O ->
  uncalibrated (withEvent m ev) m' ->
  uncalibrated m m'.
Proof.
  intros Hev H Hnan. destruct (H Hnan) as [Hg Ht]. split; [exact Hg |].
  rewrite Ht. cbn [trace withEvent]. rewrite gasEstimates_app, Hev. lia.
Qed.

Lemma uncalibrated_refl (m : Machine) : uncalibrated m m.
Proof. intros Hnan. auto. Qed.

Lemma scanTransactions_unassigned (blockNumber : Z) (txs : list Transaction) :
  forall (calldatas : list CallWithMeta) (m m' : Machine),
    finalMachine (scanTransactions cfg chain blockNumber txs calldatas m)
      = Some m' ->
    uncalibrated m m'.
Proof.
  induction txs as [| t rest IH]; intros calldatas m m' H.
  - cbn in H. inversion H. apply uncalibrated_refl.
  - cbn [scanTransactions] in H.
    cbv [bind await emit modify ret throw get lift] in H.
    apply (uncalibrated_event m m' (EvToMessage (hash t)) eq_refl).
    destruct (toCrossChainMessage chain (hash t)) as [e | msg].
    { cbn in H. inversion H. apply uncalibrated_refl. }
    apply (uncalibrated_event _ m' (EvGetStatus msg) eq_refl).
    destruct (getMessageStatus chain msg) as [e | status].
    { cbn in H. inversion H. apply uncalibrated_refl. }
    destruct status; cbn [negb isReadyToProve] in H;
      try (apply IH in H; exact H).
    cbv beta in H. cbn [singleCallGas withEvent] in H.
    intros Hnan. cbn [singleCallGas withEvent] in Hnan.
    rewrite Hnan, nan_not_zero in H.
    match type of H with
    | context [withEvent ?m0 (EvPopulateProve ?tx)] =>
        assert (Hstep : uncalibrated (withEvent m0 (EvPopulateProve tx)) m')
    end.
    { destruct (populateTransaction_proveMessage chain (hash t))
        as [e | data].
      { cbn in H. inversion H. apply uncalibrated_refl. }
      rewrite isOvertargetGas_unassigned in H by exact Hnan.
      cbn [negb] in H. apply IH in H. exact H. }
    apply (uncalibrated_event _ m' (EvPopulateProve (hash t)) eq_refl) in Hstep.
    apply Hstep. exact Hnan.
Qed.

Lemma handleSingleBlock_unassigned
    (height : Z) (calldatas : list CallWithMeta) (m m' : Machine) :
  finalMachine (handleSingleBlock cfg chain height calldatas m) = Some m' ->
  uncalibrated m m'.
Proof.
  unfold handleSingleBlock. cbv [bind await emit modify ret throw]. intros H.
  apply (uncalibrated_event m m' (EvGetBlock height) eq_refl).
  destruct (getBlockWithTransactions chain height) as [e | [b |]].
  - cbn in H. inversion H. apply uncalibrated_refl.
  - destruct (transactions b) as [| t rest] eqn:Htx.
    + cbn in H. inversion H. apply uncalibrated_refl.
    + apply scanTransactions_unassigned in H. exact H.
  - cbn in H. inversion H. apply uncalibrated_refl.
Qed.

Lemma scanLoop_unassigned (fuel : nat) :
  forall (h : Z) (calldatas : list CallWithMeta) (m m' : Machine),
    finalMachine (scanLoop cfg chain fuel h calldatas m) = Some m' ->
    uncalibrated m m'.
Proof.
  induction fuel as [| fuel IH]; intros h calldatas m m' H;
    [discriminate H |].
  cbn [scanLoop] in H. unfold endScanHeight in H. cbv [bind get ret] in H.
  destruct (h <=? _).
  - destruct (handleSingleBlock cfg chain h calldatas m)
      as [cds1 m1 | e m1 |] eqn:Hrun; try discriminate H.
    + pose proof (handleSingleBlock_unassigned h calldatas m m1) as H1.
      rewrite Hrun in H1. specialize (H1 eq_refl).
      apply IH in H. intros Hnan.
      destruct (H1 Hnan) as [Hg1 Ht1]. destruct (H Hg1) as [Hg Ht].
      split; [exact Hg | congruence].
    + pose proof (handleSingleBlock_unassigned h calldatas m m1) as H1.
      rewrite Hrun in H1. cbn in H. inversion H. subst. apply H1. reflexivity.
  - cbn in H. inversion H. apply uncalibrated_refl.
Qed.

(** X10. [Multicaller.singleCallGas] is assigned by no constructor.  While
    it is unassigned, [isOvertargetGas] answers false for every batch size,
    and the loop of a scan, however it ends, leaves it unassigned and makes
    no gas estimation, neither of a single proof nor of a batch: nothing is
    flushed before the end of the window, whatever the number of calls
    gathered. *)
Theorem unassigned_gas_never_flushes
    (fuel : nat) (h : Z) (calldatas : list CallWithMeta) (m m' : Machine) :
  singleCallGas m = PrimFloat.nan ->
  (forall size, isOvertargetGas cfg m size = false) /\
  (finalMachine (scanLoop cfg chain fuel h calldatas m) = Some m' ->
   singleCallGas m' = PrimFloat.nan /\
   gasEstimates (trace m') = gasEstimates (trace m)).
Proof.
  intros Hnan. split.
  - intros size. apply isOvertargetGas_unassigned. exact Hnan.
  - intros H. exact (scanLoop_unassigned fuel h calldatas m m' H Hnan).
Qed.

End Unassigned.

(** A new prover scanning blocks 3 to 10, each with a message ready to
    prove: eight calls are gathered without one estimation. *)
Lemma unassigned_gas_never_flushes_witness :
  exists m',
    finalMachine
      (scanLoop (Scenario.cfg None) Scenario.allFail 20 3 []
         (mkMachine (mkState 12 3 3) true PrimFloat.nan [])) = Some m' /\
    (forall size,
        isOvertargetGas (Scenario.cfg None)
          (mkMachine (mkState 12 3 3) true PrimFloat.nan []) size = false) /\
    singleCallGas m' = PrimFloat.nan /\
    gasEstimates (trace m') = O.
Proof.
  destruct (finalMachine
              (scanLoop (Scenario.cfg None) Scenario.allFail 20 3 []
                 (mkMachine (mkState 12 3 3) true PrimFloat.nan [])))
    as [m' |] eqn:E.
  - exists m'. split; [reflexivity |].
    destruct (unassigned_gas_never_flushes (Scenario.cfg None)
                Scenario.allFail 20 3 []
                (mkMachine (mkState 12 3 3) true PrimFloat.nan []) m' eq_refl)
      as [Hsize Hloop].
    split; [exact Hsize | exact (Hloop E)].
  - exfalso. revert E. vm_compute. discriminate.
Defined.

(** * Reconciliation when some call succeeded *)

Lemma isMaxHeight_unique (calls : list CallWithMeta) (h h' : Z) :
  isMaxHeight calls h -> isMaxHeight calls h' -> h = h'.
Proof.
  intros [Hin Hall] [Hin' Hall'].
  rewrite Forall_forall in Hall, Hall'.
  apply in_map_iff in Hin. destruct Hin as [c [Hc Hinc]].
  apply in_map_iff in Hin'. destruct Hin' as [c' [Hc' Hinc']].
  pose proof (Hall _ Hinc'). pose proof (Hall' _ Hinc). lia.
Qed.

Section Reconciled.

Variable chain : Chain.

(** Every failed call that carries its error is logged, in order. *)
Lemma warnFaileds_logs (faileds : list CallWithMeta) :
  Forall (fun fail => err fail <> None) faileds ->
  forall m,
    exists m',
      warnFaileds faileds m = Returned tt m' /\
      state m' = state m /\
      trace m' = trace m ++ map warnOf faileds.
Proof.
  induction 1 as [| fail rest Herr _ IH]; intros m.
  - exists m. cbn. rewrite app_nil_r. auto.
  - cbn [warnFaileds]. unfold bind, emit, modify.
    destruct (err fail) as [e |] eqn:He; [| congruence].
    destruct (IH (withEvent m (EvWarn (txHash fail) (JS.message e))))
      as [m' [Hrun [Hs Ht]]].
    exists m'. split; [exact Hrun |]. split; [exact Hs |].
    rewrite Ht. cbn [trace withEvent map]. unfold warnOf at 2. rewrite He.
    rewrite <- app_assoc. reflexivity.
Qed.

(** Where [handleMulticallResult] stands when it calls [postMessage]. *)
Lemma handleMulticallResult_until_post
    (calleds faileds : list CallWithMeta) (m : Machine) (hmax : Z) :
  isMaxHeight (succeededOf calleds faileds) hmax ->
  let succeeds := succeededOf calleds faileds in
  let candidate := if 0 <? hmax then hmax - 1 else hmax in
  exists m1,
    handleMulticallResult chain calleds faileds m =
      (await (EvPostMessage succeeds) (postMessage chain succeeds) ;;
       warnFaileds faileds) m1 /\
    initalIteration m1 = initalIteration m /\
    singleCallGas m1 = singleCallGas m /\
    highestKnownL2 (state m1) = highestKnownL2 (state m) /\
    highestFinalizedL2 (state m1) = highestFinalizedL2 (state m) /\
    highestProvenL2 (state m1)
      = Z.max (highestProvenL2 (state m)) candidate /\
    trace m1 =
      trace m ++
      (if candidate <=? highestProvenL2 (state m)
       then []
       else [EvGaugeSet GaugeProvenL2 candidate;
             EvCounterInc (Z.of_nat (List.length succeeds))]).
Proof.
  intros Hmax succeeds candidate.
  unfold handleMulticallResult. fold (succeededOf calleds faileds).
  fold succeeds. unfold bind at 1.
  destruct succeeds as [| x rest] eqn:Hs.
  { destruct Hmax as [Hin _]. fold succeeds in Hin. rewrite Hs in Hin.
    destruct Hin. }
  rewrite updateHighestCheckedL2_cons. cbv zeta.
  fold succeeds in Hmax. rewrite Hs in Hmax.
  rewrite (isMaxHeight_unique _ _ _ (reduce_higherCall_max x rest) Hmax).
  fold candidate.
  destruct (Z.leb_spec candidate (highestProvenL2 (state m))) as [Hle | Hlt].
  - exists m. split; [reflexivity |]. rewrite app_nil_r.
    repeat split. lia.
  - eexists. split; [reflexivity |].
    cbn [state initalIteration singleCallGas trace withEvent
         highestKnownL2 highestProvenL2 highestFinalizedL2].
    rewrite <- app_assoc. repeat split. lia.
Qed.

(** X11. When at least one attempted call is not in the failed list, the
    finalizer accepts the post, and every failed call carries its error,
    [handleMulticallResult] returns: the proven height is the greater of its
    old value and the candidate (the greatest height among the succeeded
    calls, less one when positive), the other two watermarks are untouched,
    and the effects are, in this order, the gauge and the counter (by the
    number of succeeded calls) when the height moved, one post of exactly
    the succeeded calls, and one warning for each failed call. *)
Theorem handleMulticallResult_reconciles
    (calleds faileds : list CallWithMeta) (m : Machine) (hmax : Z) :
  isMaxHeight (succeededOf calleds faileds) hmax ->
  postMessage chain (succeededOf calleds faileds) = inr tt ->
  Forall (fun fail => err fail <> None) faileds ->
  let succeeds := succeededOf calleds faileds in
  let candidate := if 0 <? hmax then hmax - 1 else hmax in
  exists m',
    handleMulticallResult chain calleds faileds m = Returned tt m' /\
    state m' =
      mkState (highestKnownL2 (state m))
        (Z.max (highestProvenL2 (state m)) candidate)
        (highestFinalizedL2 (state m)) /\
    trace m' =
      trace m ++
      (if candidate <=? highestProvenL2 (state m)
       then []
       else [EvGaugeSet GaugeProvenL2 candidate;
             EvCounterInc (Z.of_nat (List.length succeeds))]) ++
      [EvPostMessage succeeds] ++
      map warnOf faileds.
Proof.
  intros Hmax Hpost Herr. cbv zeta.
  destruct (handleMulticallResult_until_post calleds faileds m hmax Hmax)
    as [m1 [Hrun [_ [_ [Hk [Hf [Hp Ht]]]]]]].
  rewrite Hrun. unfold await, bind, emit, modify, ret. rewrite Hpost.
  destruct (warnFaileds_logs faileds Herr
              (withEvent m1 (EvPostMessage (succeededOf calleds faileds))))
    as [m' [Hwarn [Hs' Ht']]].
  exists m'. split; [exact Hwarn |]. split.
  - rewrite Hs'. cbn [state withEvent]. destruct (state m1) as [k p f].
    cbn in Hk, Hf, Hp. subst. reflexivity.
  - rewrite Ht'. cbn [trace withEvent]. rewrite Ht, <- !app_assoc.
    reflexivity.
Qed.

(** X12. The proven height moves before the succeeded calls are posted:
    when [postMessage] raises, [handleMulticallResult] raises the same
    error with the proven height already at its new value, and no failed
    call has been logged. *)
Theorem handleMulticallResult_post_failure
    (calleds faileds : list CallWithMeta) (m : Machine) (hmax : Z)
    (e : JS.Error) :
  isMaxHeight (succeededOf calleds faileds) hmax ->
  postMessage chain (succeededOf calleds faileds) = inl e ->
  let succeeds := succeededOf calleds faileds in
  let candidate := if 0 <? hmax then hmax - 1 else hmax in
  exists m',
    handleMulticallResult chain calleds faileds m = Thrown e m' /\
    highestProvenL2 (state m')
      = Z.max (highestProvenL2 (state m)) candidate /\
    trace m' =
      trace m ++
      (if candidate <=? highestProvenL2 (state m)
       then []
       else [EvGaugeSet GaugeProvenL2 candidate;
             EvCounterInc (Z.of_nat (List.length succeeds))]) ++
      [EvPostMessage succeeds].
Proof.
  intros Hmax Hpost. cbv zeta.
  destruct (handleMulticallResult_until_post calleds faileds m hmax Hmax)
    as [m1 [Hrun [_ [_ [_ [_ [Hp Ht]]]]]]].
  rewrite Hrun. unfold await, bind, emit, modify, ret, throw. rewrite Hpost.
  eexists. split; [reflexivity |]. cbn [state trace withEvent].
  split; [exact Hp |]. rewrite Ht, <- app_assoc. reflexivity.
Qed.

End Reconciled.

(** Three attempted calls from blocks 7, 8 and 9, the second one failed:
    the proven height moves from 3 to 8, the two others are posted, the
    failure is logged. *)
Lemma handleMulticallResult_reconciles_witness :
  exists m',
    handleMulticallResult Scenario.allFail Scenario.threeCalls
      [Fixture.failedB] (Scenario.machine 20 3 3 0) = Returned tt m' /\
    state m' = mkState 20 8 3 /\
    trace m' =
      [EvGaugeSet GaugeProvenL2 8; EvCounterInc 2;
       EvPostMessage [Scenario.callAt 7 "0xa"; Scenario.callAt 9 "0xc"];
       EvWarn "0xb" "execution reverted"].
Proof.
  destruct (handleMulticallResult_reconciles Scenario.allFail
              Scenario.threeCalls [Fixture.failedB]
              (Scenario.machine 20 3 3 0) 9) as [m' [Hrun [Hs Ht]]].
  - split; [vm_compute; auto | repeat constructor; vm_compute; discriminate].
  - reflexivity.
  - repeat constructor. discriminate.
  - exists m'. split; [exact Hrun |]. split; [exact Hs | exact Ht].
Defined.

(** The same reconciliation with a finalizer that is down: the error comes
    out with the proven height at 8. *)
Lemma handleMulticallResult_post_failure_witness :
  exists m',
    handleMulticallResult Fixture.postDown Scenario.threeCalls
      [Fixture.failedB] (Scenario.machine 20 3 3 0)
      = Thrown (JS.mkError "Error" "finalizer is down") m' /\
    highestProvenL2 (state m') = 8 /\
    trace m' =
      [EvGaugeSet GaugeProvenL2 8; EvCounterInc 2;
       EvPostMessage [Scenario.callAt 7 "0xa"; Scenario.callAt 9 "0xc"]].
Proof.
  destruct (handleMulticallResult_post_failure Fixture.postDown
              Scenario.threeCalls [Fixture.failedB]
              (Scenario.machine 20 3 3 0) 9
              (JS.mkError "Error" "finalizer is down"))
    as [m' [Hrun [Hs Ht]]].
  - split; [vm_compute; auto | repeat constructor; vm_compute; discriminate].
  - reflexivity.
  - exists m'. split; [exact Hrun |]. split; [exact Hs | exact Ht].
Defined.

(** * The state file across a restart *)

Section StateFile.

Variable dirname : string -> string.
Variable parse : string -> Disk.Failure + Disk.Json.
Variable stringify : Disk.Json -> string.

(** What a write that went through has left on disk. *)
Lemma writeToFile_written (fs fs' : Disk.FileSystem) (path : string)
    (value : Disk.Json) :
  Disk.writeToFile dirname stringify fs path value = inr fs' ->
  Disk.denied fs' path = false /\
  Disk.files fs' path = Some (stringify value) /\
  Disk.dirs fs' (dirname path) = true /\
  (forall p, p <> path -> Disk.files fs' p = Disk.files fs p) /\
  (forall d, Disk.dirs fs d = true -> Disk.dirs fs' d = true).
Proof.
  unfold Disk.writeToFile, Disk.access, Disk.mkdir, Disk.writeFile.
  destruct (Disk.dirs fs (dirname path)) eqn:Hdir.
  - rewrite Hdir. destruct (Disk.denied fs path) eqn:Hden; [discriminate |].
    intros H. inversion H. subst. cbn.
    rewrite String.eqb_refl. repeat split; auto.
    intros p Hp. apply String.eqb_neq in Hp. rewrite Hp. reflexivity.
  - destruct (Disk.denied fs (dirname path)); [discriminate |].
    cbn. rewrite String.eqb_refl.
    destruct (Disk.denied fs path) eqn:Hden; [discriminate |].
    intros H. inversion H. subst. cbn.
    rewrite !String.eqb_refl. repeat split; auto.
    + intros p Hp. apply String.eqb_neq in Hp. rewrite Hp. reflexivity.
    + intros d Hd. rewrite Hd. destruct (String.eqb d (dirname path));
        reflexivity.
Qed.

Lemma jsonToState_stateToJson (s : MessageRelayerState) :
  Disk.jsonToState (Disk.stateToJson s) = Some (Some s).
Proof. destruct s as [k p f]. reflexivity. Qed.

(** X13. [writeToFile] goes through whenever the path is writable and its
    directory exists or can be created; it creates the directory when it is
    missing, keeps every other file and every directory, and what
    [readFromFile] then reads at the same path is the document written,
    provided [JSON.parse] undoes [JSON.stringify] on it. *)
Theorem writeToFile_readFromFile
    (fs : Disk.FileSystem) (path : string) (value : Disk.Json) :
  Disk.denied fs path = false ->
  Disk.dirs fs (dirname path) = true
    \/ Disk.denied fs (dirname path) = false ->
  parse (stringify value) = inr value ->
  exists fs',
    Disk.writeToFile dirname stringify fs path value = inr fs' /\
    Disk.readFromFile parse fs' path = inr value /\
    Disk.dirs fs' (dirname path) = true /\
    (forall p, p <> path -> Disk.files fs' p = Disk.files fs p) /\
    (forall d, Disk.dirs fs d = true -> Disk.dirs fs' d = true).
Proof.
  intros Hden Hdir Hcodec.
  assert (Hok : exists fs',
             Disk.writeToFile dirname stringify fs path value = inr fs').
  { unfold Disk.writeToFile, Disk.access, Disk.mkdir, Disk.writeFile.
    destruct (Disk.dirs fs (dirname path)) eqn:Hd.
    - rewrite Hden, Hd. eexists. reflexivity.
    - destruct Hdir as [Hdir | Hdir]; [discriminate |].
      rewrite Hdir. cbn. rewrite Hden, String.eqb_refl.
      eexists. reflexivity. }
  destruct Hok as [fs' Hwrite]. exists fs'. split; [exact Hwrite |].
  destruct (writeToFile_written fs fs' path value Hwrite)
    as [Hden' [Hfile [Hdir' [Hothers Hdirs]]]].
  repeat split; auto.
  unfold Disk.readFromFile, Disk.readFile.
  rewrite Hden', Hfile, Hcodec. reflexivity.
Qed.

Variable cfg : Config.
Variable chain : Chain.

(** X14. A state written by [writeState] is the state a new prover starts
    from: when its [readFromFile] reads the disk that the write left, [init]
    returns with the three heights as they were written, the proven and the
    finalized height raised to [fromL2TransactionIndex] when the written
    proven height is below it. *)
Theorem state_survives_restart
    (fs fs' : Disk.FileSystem) (path : string) (m m0 : Machine) :
  parse (stringify (Disk.stateToJson (state m)))
    = inr (Disk.stateToJson (state m)) ->
  Disk.writeState dirname stringify path m fs = inr fs' ->
  Disk.persisted parse fs' path = Some (readFromFile chain) ->
  exists m',
    init cfg chain m0 = Returned tt m' /\
    state m' =
      match fromL2TransactionIndex cfg with
      | Some idx =>
          if highestProvenL2 (state m) <? idx
          then mkState (highestKnownL2 (state m)) idx idx
          else state m
      | None => state m
      end.
Proof.
  intros Hcodec Hwrite Hdisk. unfold Disk.writeState in Hwrite.
  destruct (writeToFile_written fs fs' path _ Hwrite)
    as [Hden [Hfile _]].
  unfold Disk.persisted, Disk.readFromFile, Disk.readFile in Hdisk.
  rewrite Hden, Hfile, Hcodec, jsonToState_stateToJson in Hdisk.
  inversion Hdisk as [Hread]. symmetry in Hread.
  eexists. split; [apply (init_eq cfg chain m0 (Some (state m)) Hread) |].
  reflexivity.
Qed.

(** X15. What [init] does without a usable state file, for a prover whose
    [readFromFile] reads the disk [fs]: a missing file, and a file holding a
    falsy document, give the all-zero state (raised to
    [fromL2TransactionIndex]); any other failure, of the read or of
    [JSON.parse], makes [init] raise an [Error] with the path and the
    original message, before the state is assigned. *)
Theorem init_without_state_file
    (fs : Disk.FileSystem) (path : string) (m0 : Machine) :
  Disk.persisted parse fs path = Some (readFromFile chain) ->
  let fresh :=
    match fromL2TransactionIndex cfg with
    | Some idx => if 0 <? idx then mkState 0 idx idx else mkState 0 0 0
    | None => mkState 0 0 0
    end in
  (Disk.files fs path = None -> Disk.denied fs path = false ->
   exists m', init cfg chain m0 = Returned tt m' /\ state m' = fresh) /\
  (forall data value,
      Disk.readFile fs path = inr data -> parse data = inr value ->
      Disk.truthy value = false ->
      exists m', init cfg chain m0 = Returned tt m' /\ state m' = fresh) /\
  (forall cause,
      Disk.readFile fs path = inl cause
        \/ (exists data,
               Disk.readFile fs path = inr data /\ parse data = inl cause) ->
      Disk.code cause <> Some "ENOENT"%string ->
      init cfg chain m0 =
        Thrown
          (JS.mkError "Error"
             ("failed to read file: " ++ path ++ ", err: "
                ++ Disk.message cause))
          (withEvent m0 EvReadState)).
Proof.
  intros Hdisk fresh. unfold Disk.persisted, Disk.readFromFile in Hdisk.
  split; [| split].
  - intros Hnone Hden. unfold Disk.readFile in Hdisk.
    rewrite Hden, Hnone in Hdisk. cbn in Hdisk.
    inversion Hdisk as [Hread]. symmetry in Hread.
    eexists. split; [apply (init_eq cfg chain m0 None Hread) |].
    reflexivity.
  - intros data value Hdata Hparse Hfalsy.
    rewrite Hdata, Hparse in Hdisk. unfold Disk.jsonToState in Hdisk.
    rewrite Hfalsy in Hdisk.
    inversion Hdisk as [Hread]. symmetry in Hread.
    eexists. split; [apply (init_eq cfg chain m0 None Hread) |].
    reflexivity.
  - intros cause Hcause Hcode.
    assert (Hrec : Disk.recover path cause =
                   inl (JS.mkError "Error"
                          ("failed to read file: " ++ path ++ ", err: "
                             ++ Disk.message cause))).
    { unfold Disk.recover. destruct (Disk.code cause) as [c |];
        [| reflexivity].
      destruct (String.eqb_spec c "ENOENT"); [congruence | reflexivity]. }
    assert (Hread : readFromFile chain =
                    inl (JS.mkError "Error"
                           ("failed to read file: " ++ path ++ ", err: "
                              ++ Disk.message cause))).
    { destruct Hcause as [Hfail | [data [Hdata Hparse]]].
      - rewrite Hfail, Hrec in Hdisk. inversion Hdisk. reflexivity.
      - rewrite Hdata, Hparse, Hrec in Hdisk. inversion Hdisk. reflexivity. }
    unfold init, readStateFromFile, await, bind, emit, modify, throw.
    rewrite Hread. reflexivity.
Qed.

End StateFile.

Lemma writeToFile_readFromFile_witness :
  exists fs',
    Disk.writeToFile Fixture.dirnameOf Fixture.stringifySaved Fixture.blank
      Fixture.stateFile (Disk.stateToJson Fixture.saved) = inr fs' /\
    Disk.readFromFile Fixture.parseSaved fs' Fixture.stateFile
      = inr (Disk.stateToJson Fixture.saved) /\
    Disk.dirs fs' (Fixture.dirnameOf Fixture.stateFile) = true /\
    (forall p, p <> Fixture.stateFile ->
               Disk.files fs' p = Disk.files Fixture.blank p) /\
    (forall d, Disk.dirs Fixture.blank d = true -> Disk.dirs fs' d = true).
Proof.
  apply (writeToFile_readFromFile Fixture.dirnameOf Fixture.parseSaved
           Fixture.stringifySaved Fixture.blank Fixture.stateFile
           (Disk.stateToJson Fixture.saved)).
  - reflexivity.
  - right. reflexivity.
  - reflexivity.
Defined.

(** The heights 12, 9 and 7 written on an empty disk, then read by a new
    prover. *)
Lemma state_survives_restart_witness :
  exists m',
    init (Scenario.cfg None) Fixture.restarted newProver = Returned tt m' /\
    state m' = mkState 12 9 7.
Proof.
  apply (state_survives_restart Fixture.dirnameOf Fixture.parseSaved
           Fixture.stringifySaved (Scenario.cfg None) Fixture.restarted
           Fixture.blank
           (match Disk.writeState Fixture.dirnameOf Fixture.stringifySaved
                    Fixture.stateFile (Scenario.machine 12 9 7 0)
                    Fixture.blank with
            | inr fs' => fs'
            | inl _ => Fixture.blank
            end)
           Fixture.stateFile (Scenario.machine 12 9 7 0) newProver).
  - reflexivity.
  - reflexivity.
  - reflexivity.
Defined.

(** No state file and start index 5: the heights are 0, 5 and 5. *)
Lemma init_without_state_file_witness :
  exists m',
    init (Scenario.cfg (Some 5)) Scenario.noStateFile newProver
      = Returned tt m' /\
    state m' = mkState 0 5 5.
Proof.
  apply (proj1 (init_without_state_file Fixture.parseSaved
                  (Scenario.cfg (Some 5)) Scenario.noStateFile
                  Fixture.blank Fixture.stateFile newProver eq_refl)).
  - reflexivity.
  - reflexivity.
Defined.

(** * The gauges and the watermarks *)

#[local] Instance keepsMirror_preorder : PreOrder keepsMirror.
Proof.
  split.
  - intros m H. exact H.
  - intros a b c H1 H2 H. exact (H2 (H1 H)).
Qed.

Lemma lastGauge_snoc (g : Gauge) (t : list Event) (ev : Event) :
  lastGauge g (t ++ [ev]) =
  match ev with
  | EvGaugeSet g' v => if sameGauge g g' then Some v else lastGauge g t
  | _ => lastGauge g t
  end.
Proof. unfold lastGauge. rewrite fold_left_app. reflexivity. Qed.

(** An event that sets no gauge, or a write to a field that is not a
    watermark, keeps the mirror. *)
Ltac mirror_side :=
  let Hm := fresh "Hm" in
  let g := fresh "g" in
  let v := fresh "v" in
  intros Hm g v;
  cbn [trace state withEvent withInitalIteration withSingleCallGas];
  rewrite ?lastGauge_snoc;
  apply Hm.

Section Mirror.

Variable cfg : Config.
Variable chain : Chain.

Lemma updateHighestKnownL2_mirror (latest : Z) :
  preserves keepsMirror (updateHighestKnownL2 latest).
Proof.
  intros m. unfold updateHighestKnownL2. run. intros Hm g v.
  cbn [trace state withState withEvent]. rewrite lastGauge_snoc.
  destruct g; cbn; intros H;
    [inversion H; reflexivity | apply Hm in H; exact H ..].
Qed.

Lemma updateHighestProvenL2_mirror (latest : Z) :
  preserves keepsMirror (updateHighestProvenL2 latest).
Proof.
  intros m. unfold updateHighestProvenL2. run. intros Hm g v.
  cbn [trace state withState withEvent]. rewrite lastGauge_snoc.
  destruct g; cbn; intros H;
    [apply Hm in H; exact H | inversion H; reflexivity
     | apply Hm in H; exact H].
Qed.

Lemma updateHighestFinalizedL2_mirror (latest : Z) :
  preserves keepsMirror (updateHighestFinalizedL2 latest).
Proof.
  intros m. unfold updateHighestFinalizedL2. run. intros Hm g v.
  cbn [trace state withState withEvent]. rewrite lastGauge_snoc.
  destruct g; cbn; intros H;
    [apply Hm in H; exact H .. | inversion H; reflexivity].
Qed.

Ltac mirror_updates :=
  first [ apply updateHighestKnownL2_mirror
        | apply updateHighestProvenL2_mirror
        | apply updateHighestFinalizedL2_mirror ].

Lemma handleL2Reorg_mirror (latest : Z) :
  preserves keepsMirror (handleL2Reorg cfg latest).
Proof.
  unfold handleL2Reorg. preserve_with mirror_updates mirror_side.
Qed.

Lemma updateHighestCheckedL2_mirror (calldatas : list CallWithMeta) :
  preserves keepsMirror (updateHighestCheckedL2 calldatas).
Proof.
  unfold updateHighestCheckedL2. preserve_with mirror_updates mirror_side.
Qed.

Lemma warnFaileds_mirror (faileds : list CallWithMeta) :
  preserves keepsMirror (warnFaileds faileds).
Proof.
  induction faileds as [| f rest IH]; cbn [warnFaileds].
  - apply preserves_ret.
  - preserve_with ltac:(exact IH) mirror_side.
Qed.

Lemma handleMulticallResult_mirror (calleds faileds : list CallWithMeta) :
  preserves keepsMirror (handleMulticallResult chain calleds faileds).
Proof.
  unfold handleMulticallResult.
  preserve_with
    ltac:(first [apply updateHighestCheckedL2_mirror
                | apply warnFaileds_mirror])
    mirror_side.
Qed.

Lemma multicall_mirror (fuel : nat) :
  forall (calls : list CallWithMeta) (callback : option Callback),
    preserves keepsMirror (multicall cfg chain fuel calls callback).
Proof.
  induction fuel as [| fuel IH]; intros calls callback; cbn [multicall].
  - apply preserves_stuck.
  - unfold invokeCallback.
    preserve_with ltac:(apply IH) mirror_side.
Qed.

Lemma flush_mirror (calldatas : list CallWithMeta) :
  preserves keepsMirror (flush cfg chain calldatas).
Proof.
  unfold flush.
  preserve_with
    ltac:(first [apply multicall_mirror | apply handleMulticallResult_mirror])
    mirror_side.
Qed.

Lemma scanTransactions_mirror (blockNumber : Z) (txs : list Transaction) :
  forall calldatas,
    preserves keepsMirror
      (scanTransactions cfg chain blockNumber txs calldatas).
Proof.
  induction txs as [| t rest IH]; intros calldatas; cbn [scanTransactions].
  - apply preserves_ret.
  - preserve_with ltac:(first [apply IH | apply flush_mirror]) mirror_side.
Qed.

Lemma handleSingleBlock_mirror (height : Z) (calldatas : list CallWithMeta) :
  preserves keepsMirror (handleSingleBlock cfg chain height calldatas).
Proof.
  unfold handleSingleBlock.
  preserve_with ltac:(apply scanTransactions_mirror) mirror_side.
Qed.

Lemma scanLoop_mirror (fuel : nat) :
  forall h calldatas,
    preserves keepsMirror (scanLoop cfg chain fuel h calldatas).
Proof.
  induction fuel as [| fuel IH]; intros h calldatas; cbn [scanLoop].
  - apply preserves_stuck.
  - unfold endScanHeight.
    preserve_with ltac:(first [apply IH | apply handleSingleBlock_mirror])
      mirror_side.
Qed.

Lemma handleMultipleBlock_mirror (fuel : nat) :
  preserves keepsMirror (handleMultipleBlock cfg chain fuel).
Proof.
  unfold handleMultipleBlock, startScanHeight.
  preserve_with
    ltac:(first [ apply handleL2Reorg_mirror
                | apply updateHighestKnownL2_mirror
                | apply scanLoop_mirror
                | apply flush_mirror ])
    mirror_side.
Qed.

(** X16. The metrics follow the state: if every gauge that was ever set
    shows the watermark it stands for, it still does after
    [handleL2Reorg], after [handleMulticallResult] and after a whole scan,
    whether they return or raise.  [init] is the one writer of the
    watermarks that sets no gauge. *)
Theorem gauges_mirror_watermarks (m m' : Machine) :
  mirrors m ->
  (forall latest,
      finalMachine (handleL2Reorg cfg latest m) = Some m' -> mirrors m') /\
  (forall calleds faileds,
      finalMachine (handleMulticallResult chain calleds faileds m) = Some m' ->
      mirrors m') /\
  (forall fuel,
      finalMachine (handleMultipleBlock cfg chain fuel m) = Some m' ->
      mirrors m').
Proof.
  intros Hm. split; [| split].
  - intros latest Hfin. pose proof (handleL2Reorg_mirror latest m) as H.
    destruct (handleL2Reorg cfg latest m); inversion Hfin; subst;
      exact (H Hm).
  - intros calleds faileds Hfin.
    pose proof (handleMulticallResult_mirror calleds faileds m) as H.
    destruct (handleMulticallResult chain calleds faileds m);
      inversion Hfin; subst; exact (H Hm).
  - intros fuel Hfin. pose proof (handleMultipleBlock_mirror fuel m) as H.
    destruct (handleMultipleBlock cfg chain fuel m); inversion Hfin; subst;
      exact (H Hm).
Qed.

(** X17. Recovering twice from the same head is recovering once:
    [handleL2Reorg] returns both times, and the second call leaves the
    three heights as the first one set them. *)
Theorem handleL2Reorg_idempotent (m : Machine) (latest : Z) :
  exists m1 m2,
    handleL2Reorg cfg latest m = Returned tt m1 /\
    handleL2Reorg cfg latest m1 = Returned tt m2 /\
    state m2 = state m1.
Proof.
  destruct (Z.le_gt_cases (highestProvenL2 (state m))
              (latest - reorgSafetyDepth cfg)) as [Hle | Hgt].
  - eexists. eexists. split; [apply handleL2Reorg_keep_eq; exact Hle |].
    split; [apply handleL2Reorg_keep_eq; cbn; exact Hle |].
    reflexivity.
  - eexists. eexists. split; [apply handleL2Reorg_rewind_eq; exact Hgt |].
    split; [apply handleL2Reorg_keep_eq; cbn; lia |].
    reflexivity.
Qed.

End Mirror.

(** From a prover whose gauges were never set, a scan that rewinds after a
    reorg leaves all three gauges equal to the heights. *)
Lemma gauges_mirror_watermarks_witness :
  exists m',
    finalMachine
      (handleMultipleBlock (Scenario.cfg None) Scenario.singlesPass 20
         (Scenario.machine 30 20 15 0)) = Some m' /\
    mirrors m'.
Proof.
  destruct (finalMachine
              (handleMultipleBlock (Scenario.cfg None) Scenario.singlesPass
                 20 (Scenario.machine 30 20 15 0))) as [m' |] eqn:E.
  - exists m'. split; [reflexivity |].
    refine (proj2 (proj2 (gauges_mirror_watermarks (Scenario.cfg None)
                            Scenario.singlesPass
                            (Scenario.machine 30 20 15 0) m' _)) 20%nat E).
    intros g v H. destruct g; discriminate H.
  - exfalso. revert E. vm_compute. discriminate.
Defined.

(** * The size of the batches handed on *)

Section WithinTarget.

Variable cfg : Config.
Variable chain : Chain.

Lemma isOvertargetGas_same_gas (m m' : Machine) (size : float) :
  singleCallGas m' = singleCallGas m ->
  isOvertargetGas cfg m' size = isOvertargetGas cfg m size.
Proof.
  intros H. unfold isOvertargetGas, computeExpectedMulticallGas.
  rewrite H. reflexivity.
Qed.

Lemma scanTransactions_within_target
    (blockNumber : Z) (txs : list Transaction) :
  forall (calldatas calldatas' : list CallWithMeta) (m m' : Machine),
    scanTransactions cfg chain blockNumber txs calldatas m
      = Returned calldatas' m' ->
    (readyCallsOf chain blockNumber txs = [] /\
     singleCallGas m' = singleCallGas m) \/
    isOvertargetGas cfg m' (JS.ofNat (List.length calldatas')) = false.
Proof.
  induction txs as [| t rest IH]; intros calldatas calldatas' m m' H.
  - cbn in H. inversion H. left. auto.
  - pose proof (scanTransactions_returned cfg chain blockNumber (t :: rest)
                  calldatas calldatas' m m' H) as Hall.
    cbn [scanTransactions] in H.
    cbv [bind await emit modify ret throw get lift] in H.
    unfold readyCallsOf in Hall |- *. cbn [flat_map] in Hall |- *.
    fold (readyCallsOf chain blockNumber rest) in Hall |- *.
    destruct (toCrossChainMessage chain (hash t)) as [e | msg];
      [discriminate H |].
    destruct (getMessageStatus chain msg) as [e | status];
      [discriminate H |].
    destruct status; cbn [negb isReadyToProve] in H;
      try (apply IH in H; cbn [app]; exact H).
    cbv beta in H. right.
    assert (Hstep : forall m2 data,
      populateTransaction_proveMessage chain (hash t) = inr data ->
      (if negb
            (isOvertargetGas cfg m2
               (JS.ofNat
                  (List.length
                     (calldatas ++
                      [mkCallWithMeta
                         (mkCall (optimismPortalTarget chain) data)
                         blockNumber (hash t) msg None]))))
       then
         scanTransactions cfg chain blockNumber rest
           (calldatas ++
            [mkCallWithMeta (mkCall (optimismPortalTarget chain) data)
               blockNumber (hash t) msg None])
       else
         fun m0 =>
           match
             flush cfg chain
               (calldatas ++
                [mkCallWithMeta (mkCall (optimismPortalTarget chain) data)
                   blockNumber (hash t) msg None]) m0
           with
           | Returned _ m3 => scanTransactions cfg chain blockNumber rest [] m3
           | Thrown e m3 => Thrown e m3
           | OutOfFuel => OutOfFuel
           end) m2 = Returned calldatas' m' ->
      isOvertargetGas cfg m' (JS.ofNat (List.length calldatas')) = false).
    { intros m2 data Hdata Hrun. rewrite Hdata in Hall.
      destruct (isOvertargetGas cfg m2 _) eqn:Hover; cbn [negb] in Hrun.
      - destruct (flush cfg chain _ m2) as [[] m3 | e m3 |] eqn:Hfl;
          try discriminate Hrun.
        exfalso. exact (flush_not_returned cfg chain _ _ _ _ Hfl).
      - destruct (IH _ _ _ _ Hrun) as [[Hnone Hgas] | Hok]; [| exact Hok].
        rewrite Hnone, app_nil_r in Hall. rewrite Hall.
        rewrite (isOvertargetGas_same_gas m2 m' _ Hgas). exact Hover. }
    destruct (PrimFloat.eqb _ _).
    + destruct (estimateGas_proveMessage chain (hash t)) as [e | gas];
        [discriminate H |].
      destruct (JS.toNumber gas) as [e | g]; [discriminate H |].
      destruct (populateTransaction_proveMessage chain (hash t))
        as [e | data] eqn:Hdata; [discriminate H |].
      exact (Hstep _ data eq_refl H).
    + destruct (populateTransaction_proveMessage chain (hash t))
        as [e | data] eqn:Hdata; [discriminate H |].
      exact (Hstep _ data eq_refl H).
Qed.

(** X18. A batch handed on by [handleSingleBlock] from a block with a
    transaction ready to prove is never over the target gas: for the
    calibration value the prover ends with, [isOvertargetGas] is false of
    the number of calls returned. *)
Theorem handleSingleBlock_within_target
    (height : Z) (calldatas calldatas' : list CallWithMeta) (m m' : Machine) :
  handleSingleBlock cfg chain height calldatas m = Returned calldatas' m' ->
  readyAt chain height <> [] ->
  isOvertargetGas cfg m' (JS.ofNat (List.length calldatas')) = false.
Proof.
  unfold handleSingleBlock, readyAt.
  cbv [bind await emit modify ret throw]. intros H Hready.
  destruct (getBlockWithTransactions chain height) as [e | [b |]];
    [discriminate H | | congruence].
  destruct (transactions b) as [| t rest] eqn:Htx.
  - cbn in Hready. congruence.
  - apply scanTransactions_within_target in H.
    destruct H as [[Hnone _] | Hok]; [congruence | exact Hok].
Qed.

End WithinTarget.

(** Calibrated at 100,000 gas a call: two calls are within the target. *)
Lemma handleSingleBlock_within_target_witness :
  exists calldatas' m',
    handleSingleBlock (Scenario.cfg None) Scenario.allFail 7
      [Scenario.callAt 6 "0xa"] (Scenario.machine 20 3 3 0)
      = Returned calldatas' m' /\
    isOvertargetGas (Scenario.cfg None) m'
      (JS.ofNat (List.length calldatas')) = false.
Proof.
  destruct (handleSingleBlock (Scenario.cfg None) Scenario.allFail 7
              [Scenario.callAt 6 "0xa"] (Scenario.machine 20 3 3 0))
    as [calldatas' m' | e m' |] eqn:E.
  - exists calldatas', m'. split; [reflexivity |].
    apply (handleSingleBlock_within_target (Scenario.cfg None)
             Scenario.allFail 7 [Scenario.callAt 6 "0xa"] calldatas'
             (Scenario.machine 20 3 3 0) m' E).
    vm_compute. discriminate.
  - exfalso. revert E. vm_compute. discriminate.
  - exfalso. revert E. vm_compute. discriminate.
Defined.
